(** * STL analysis core: mesh property engine and session manager

    A shallow embedding of [api/core/stl_tools.py] (class [STLTools]) and
    [api/core/session_manager.py] (class [SessionManager]).

    Numbers: the Python code computes on IEEE floats (numpy arrays and Python
    floats).  They are modelled here by the real numbers of the Standard
    Library, the usual idealisation: rounding, overflow and NaN are absent
    from the model, so an "approximately equal" of the tests becomes an
    equality.  The comparisons that guard a division in the source are kept
    as they are written.

    Objects: a method of a Python object is a function in a state-and-error
    monad over the record of the object's attributes; an exception is the
    [Raise] outcome, and carries the state reached when it was raised. *)

From stdpp Require Import base gmap strings pretty.
From Stdlib Require Import Reals Lra List ZArith Lia Sorted.
Import ListNotations.

(** ** Exceptions and the state-and-error monad *)

Inductive exn : Type :=
| ValueError (msg : string)
| RuntimeError (msg : string)
| FileNotFoundError (msg : string)
| ValidationError (msg : string)
| OSError (msg : string).

Inductive result (A : Type) : Type :=
| Ok (a : A)
| Raise (e : exn).
Arguments Ok {A} a.
Arguments Raise {A} e.

Definition M (S A : Type) : Type := S -> result A * S.

Definition ret {S A} (a : A) : M S A := fun s => (Ok a, s).
Definition raise {S A} (e : exn) : M S A := fun s => (Raise e, s).
Definition bind {S A B} (m : M S A) (k : A -> M S B) : M S B :=
  fun s => match m s with
           | (Ok a, s') => k a s'
           | (Raise e, s') => (Raise e, s')
           end.
Definition get {S} : M S S := fun s => (Ok s, s).
Definition put {S} (s : S) : M S unit := fun _ => (Ok tt, s).
Definition modify {S} (f : S -> S) : M S unit := fun s => (Ok tt, f s).
Definition lift {S A} (r : result A) : M S A := fun s => (r, s).

(** [try_except m handler]: Python's [try: m  except Exception as e: handler e];
    the handler runs in the state the exception left. *)
Definition try_except {S A} (m : M S A) (handler : exn -> M S A) : M S A :=
  fun s => match m s with
           | (Ok a, s') => (Ok a, s')
           | (Raise e, s') => handler e s'
           end.

Declare Scope monad_scope.
Delimit Scope monad_scope with monad.
Notation "'let*' x ':=' m 'in' k" := (bind m (fun x => k))
  (at level 10, x name, m at level 100, k at level 200) : monad_scope.
Notation "'exec' m 'in' k" := (bind m (fun _ => k))
  (at level 10, m at level 100, k at level 200) : monad_scope.

(** The value a call returns and the state it leaves. *)
Definition outcome {S A} (m : M S A) (s : S) : result A := fst (m s).
Definition after {S A} (m : M S A) (s : S) : S := snd (m s).

Module STL.

Local Open Scope R_scope.
Local Open Scope monad_scope.

(** ** Vectors, triangles, meshes *)

(** One row of a numpy array of shape (3,). *)
Record vec3 : Type := V3 { vx : R; vy : R; vz : R }.

(** One entry of [mesh.vectors]: an array of shape (3, 3), unpacked by the
    source as [v0, v1, v2 = triangle]. *)
Record triangle : Type := Tri { v0 : vec3; v1 : vec3; v2 : vec3 }.

(** [mesh.vectors]: an array of shape (n, 3, 3). *)
Definition Mesh : Type := list triangle.

Definition vsub (a b : vec3) : vec3 := V3 (vx a - vx b) (vy a - vy b) (vz a - vz b).
Definition vadd (a b : vec3) : vec3 := V3 (vx a + vx b) (vy a + vy b) (vz a + vz b).
Definition vmul (a b : vec3) : vec3 := V3 (vx a * vx b) (vy a * vy b) (vz a * vz b).

(** [np.cross], [np.dot] and [np.linalg.norm] on vectors of length 3. *)
Definition cross (a b : vec3) : vec3 :=
  V3 (vy a * vz b - vz a * vy b)
     (vz a * vx b - vx a * vz b)
     (vx a * vy b - vy a * vx b).
Definition dot (a b : vec3) : R := vx a * vx b + vy a * vy b + vz a * vz b.
Definition norm (a : vec3) : R := sqrt (vx a * vx a + vy a * vy a + vz a * vz a).

(** [mesh.vectors.reshape(-1, 3)]: the vertices, three per triangle. *)
Definition reshape_vertices (m : Mesh) : list vec3 :=
  flat_map (fun t => [v0 t; v1 t; v2 t]) m.

(** ** The object *)

Record Bounds : Type := mkBounds { bmin : vec3; bmax : vec3; dimensions : vec3 }.

Record STLTools : Type := mkSTLTools {
  mesh : option Mesh;
  file_path : option string;
  _cached_surface_area : option R;
  _cached_volume : option R;
  _cached_bounds : option Bounds;
  _cached_center_of_mass : option vec3
}.

(** [STLTools.__init__] *)
Definition __init__ : STLTools := mkSTLTools None None None None None None.

Definition set_cached_surface_area (a : option R) (self : STLTools) : STLTools :=
  mkSTLTools (mesh self) (file_path self) a (_cached_volume self)
             (_cached_bounds self) (_cached_center_of_mass self).
Definition set_cached_volume (v : option R) (self : STLTools) : STLTools :=
  mkSTLTools (mesh self) (file_path self) (_cached_surface_area self) v
             (_cached_bounds self) (_cached_center_of_mass self).
Definition set_cached_bounds (b : option Bounds) (self : STLTools) : STLTools :=
  mkSTLTools (mesh self) (file_path self) (_cached_surface_area self)
             (_cached_volume self) b (_cached_center_of_mass self).
Definition set_cached_center_of_mass (c : option vec3) (self : STLTools) : STLTools :=
  mkSTLTools (mesh self) (file_path self) (_cached_surface_area self)
             (_cached_volume self) (_cached_bounds self) c.
Definition set_mesh (m : option Mesh) (self : STLTools) : STLTools :=
  mkSTLTools m (file_path self) (_cached_surface_area self)
             (_cached_volume self) (_cached_bounds self) (_cached_center_of_mass self).
Definition set_file_path (p : option string) (self : STLTools) : STLTools :=
  mkSTLTools (mesh self) p (_cached_surface_area self)
             (_cached_volume self) (_cached_bounds self) (_cached_center_of_mass self).

(** [STLTools._clear_cache] *)
Definition _clear_cache : M STLTools unit :=
  modify (fun self =>
    mkSTLTools (mesh self) (file_path self) None None None None).

(** [STLTools._ensure_mesh_loaded] *)
Definition _ensure_mesh_loaded : M STLTools unit :=
  let* self := get in
  match mesh self with
  | None => raise (ValueError "No mesh loaded. Call load_file() first.")
  | Some _ => ret tt
  end.

(** [self.mesh.vectors], read after [_ensure_mesh_loaded]. *)
Definition vectors (self : STLTools) : Mesh :=
  match mesh self with Some m => m | None => [] end.

(** [STLTools._calculate_triangle_area] *)
Definition _calculate_triangle_area (vertices : triangle) : R :=
  let edge1 := vsub (v1 vertices) (v0 vertices) in
  let edge2 := vsub (v2 vertices) (v0 vertices) in
  let cross_product := cross edge1 edge2 in
  0.5 * norm cross_product.

(** The loop of [calculate_surface_area]. *)
Definition total_area (m : Mesh) : R :=
  fold_left (fun total tri => total + _calculate_triangle_area tri) m 0.

(** [STLTools.calculate_surface_area] *)
Definition calculate_surface_area : M STLTools R :=
  exec _ensure_mesh_loaded in
  let* self := get in
  match _cached_surface_area self with
  | Some a => ret a
  | None =>
      let total := total_area (vectors self) in
      exec put (set_cached_surface_area (Some total) self) in
      ret total
  end.

(** The loop of [calculate_volume]: the signed sum of tetrahedra. *)
Definition signed_volume (m : Mesh) : R :=
  fold_left (fun volume tri =>
               volume + dot (v0 tri) (cross (v1 tri) (v2 tri)) / 6) m 0.

(** [STLTools.calculate_volume] *)
Definition calculate_volume : M STLTools R :=
  exec _ensure_mesh_loaded in
  let* self := get in
  match _cached_volume self with
  | Some v => ret v
  | None =>
      let volume := signed_volume (vectors self) in
      exec put (set_cached_volume (Some (Rabs volume)) self) in
      ret (Rabs volume)
  end.

(** [np.min(a, axis=0)] and [np.max(a, axis=0)] on an array of shape (k, 3);
    numpy raises [ValueError] on a reduction of an empty axis. *)
Definition np_min_axis0 (a : list vec3) : result vec3 :=
  match a with
  | [] => Raise (ValueError "zero-size array to reduction operation minimum which has no identity")
  | v :: vs =>
      Ok (fold_left (fun acc w => V3 (Rmin (vx acc) (vx w)) (Rmin (vy acc) (vy w))
                                     (Rmin (vz acc) (vz w))) vs v)
  end.
Definition np_max_axis0 (a : list vec3) : result vec3 :=
  match a with
  | [] => Raise (ValueError "zero-size array to reduction operation maximum which has no identity")
  | v :: vs =>
      Ok (fold_left (fun acc w => V3 (Rmax (vx acc) (vx w)) (Rmax (vy acc) (vy w))
                                     (Rmax (vz acc) (vz w))) vs v)
  end.

(** [STLTools.get_bounding_box] *)
Definition get_bounding_box : M STLTools Bounds :=
  exec _ensure_mesh_loaded in
  let* self := get in
  match _cached_bounds self with
  | Some b => ret b
  | None =>
      let all_vertices := reshape_vertices (vectors self) in
      let* min_coords := lift (np_min_axis0 all_vertices) in
      let* max_coords := lift (np_max_axis0 all_vertices) in
      let bounds := mkBounds min_coords max_coords (vsub max_coords min_coords) in
      exec put (set_cached_bounds (Some bounds) self) in
      ret bounds
  end.

(** [np.mean(a, axis=0)] on an array of shape (k, 3). *)
Definition np_mean_axis0 (a : list vec3) : vec3 :=
  let s := fold_left vadd a (V3 0 0 0) in
  let k := INR (length a) in
  V3 (vx s / k) (vy s / k) (vz s / k).

(** [STLTools.get_center_of_mass] *)
Definition get_center_of_mass : M STLTools vec3 :=
  exec _ensure_mesh_loaded in
  let* self := get in
  match _cached_center_of_mass self with
  | Some c => ret c
  | None =>
      let all_vertices := reshape_vertices (vectors self) in
      let center := np_mean_axis0 all_vertices in
      exec put (set_cached_center_of_mass (Some center) self) in
      ret center
  end.

(** ** Statistics *)

(** [np.sort] on a one-dimensional array. *)
Fixpoint insert_sorted (x : R) (l : list R) : list R :=
  match l with
  | [] => [x]
  | y :: l' => if Rle_dec x y then x :: l else y :: insert_sorted x l'
  end.
Definition np_sort (l : list R) : list R := fold_right insert_sorted [] l.

(** [ndarray.tolist] on an array of shape (3,). *)
Definition tolist (v : vec3) : list R := [vx v; vy v; vz v].

(** [STLTools._calculate_aspect_ratio] *)
Definition _calculate_aspect_ratio (dims : vec3) : option R :=
  let sorted_dims := np_sort (tolist dims) in
  if Rgt_dec (nth 0 sorted_dims 0) 0
  then Some (nth 2 sorted_dims 0 / nth 0 sorted_dims 0)
  else None.

(** Python's [min] and [max] on a list, and on two arguments. *)
Definition py_min (l : list R) : result R :=
  match l with
  | [] => Raise (ValueError "min() arg is an empty sequence")
  | x :: xs => Ok (fold_left (fun m y => if Rlt_dec y m then y else m) xs x)
  end.
Definition py_max (l : list R) : result R :=
  match l with
  | [] => Raise (ValueError "max() arg is an empty sequence")
  | x :: xs => Ok (fold_left (fun m y => if Rgt_dec y m then y else m) xs x)
  end.
Definition py_min2 (a b : R) : R := if Rlt_dec b a then b else a.
Definition py_max2 (a b : R) : R := if Rgt_dec b a then b else a.

(** [np.mean] and [np.std] (population standard deviation) on a list. *)
Definition np_mean (l : list R) : R := fold_left Rplus l 0 / INR (length l).
Definition np_std (l : list R) : R :=
  let mu := np_mean l in
  sqrt (np_mean (map (fun x => (x - mu) * (x - mu)) l)).

Record Distribution : Type := mkDistribution {
  d_min : R; d_max : R; d_mean : R; d_std : R
}.

Definition distribution (l : list R) : result Distribution :=
  match py_min l, py_max l with
  | Ok lo, Ok hi => Ok (mkDistribution lo hi (np_mean l) (np_std l))
  | Raise e, _ => Raise e
  | _, Raise e => Raise e
  end.

(** The dictionary [get_mesh_statistics] returns. *)
Record MeshStatistics : Type := mkMeshStatistics {
  triangle_count : nat;
  vertex_count : nat;
  surface_area : R;
  volume : R;
  center_of_mass : list R;
  bounding_box : Bounds;
  triangle_areas : Distribution;
  edge_lengths : Distribution;
  aspect_ratio : option R;
  surface_area_to_volume_ratio : option R
}.

Definition triangle_edges (tri : triangle) : list R :=
  [ norm (vsub (v1 tri) (v0 tri));
    norm (vsub (v2 tri) (v1 tri));
    norm (vsub (v0 tri) (v2 tri)) ].

(** [STLTools.get_mesh_statistics] *)
Definition get_mesh_statistics : M STLTools MeshStatistics :=
  exec _ensure_mesh_loaded in
  let* bounds := get_bounding_box in
  let* center := get_center_of_mass in
  let* surface_area := calculate_surface_area in
  let* volume := calculate_volume in
  let* self := get in
  let triangles := vectors self in
  let areas := map _calculate_triangle_area triangles in
  let edges := flat_map triangle_edges triangles in
  let* area_stats := lift (distribution areas) in
  let* edge_stats := lift (distribution edges) in
  ret (mkMeshStatistics
         (length triangles)
         (length triangles * 3)
         surface_area
         volume
         (tolist center)
         bounds
         area_stats
         edge_stats
         (_calculate_aspect_ratio (dimensions bounds))
         (if Rgt_dec volume 0 then Some (surface_area / volume) else None)).

(** ** Validation *)

Record ValidationResult : Type := mkValidationResult {
  is_valid : bool;
  issues : list string;
  warnings : list string;
  degenerate_triangles : list nat
}.

(** Python's [enumerate]. *)
Definition enumerate {A} (l : list A) : list (nat * A) :=
  combine (seq 0 (length l)) l.

(** The threshold of [validate_mesh] below which a triangle is degenerate. *)
Definition degenerate_area_threshold : R := 1e-10.

(** The first loop of [validate_mesh]: one iteration, and the loop. *)
Definition degenerate_step (acc : list nat) (it : nat * triangle) : list nat :=
  if Rlt_dec (_calculate_triangle_area (snd it)) degenerate_area_threshold
  then acc ++ [fst it] else acc.
Definition find_degenerate_triangles (m : Mesh) : list nat :=
  fold_left degenerate_step (enumerate m) [].

(** [np.any(dimensions < 1e-6)] *)
Definition any_dimension_below (dims : vec3) (eps : R) : bool :=
  existsb (fun d => if Rlt_dec d eps then true else false) (tolist dims).

(** [STLTools.validate_mesh] *)
Definition validate_mesh : M STLTools ValidationResult :=
  exec _ensure_mesh_loaded in
  let* self := get in
  let degenerate_triangles := find_degenerate_triangles (vectors self) in
  let issues :=
    match degenerate_triangles with
    | [] => []
    | _ => ["Found " +:+ pretty (length degenerate_triangles) +:+ " degenerate triangles"]
    end%string in
  let* bounds := get_bounding_box in
  let warnings1 :=
    if any_dimension_below (dimensions bounds) 1e-6
    then ["Mesh has very small dimensions in one or more axes"%string] else [] in
  let* volume := calculate_volume in
  let warnings2 :=
    if Rlt_dec volume 1e-10
    then warnings1 ++ ["Mesh has very small or zero volume"%string] else warnings1 in
  ret (mkValidationResult
         (Nat.eqb (length issues) 0) issues warnings2 degenerate_triangles).

(** ** Mutation *)

(** The argument of [scale_mesh]: a number ([int] or [float]) or a list. *)
Inductive scale_arg : Type :=
| Number (x : R)
| Sequence (l : list R).

(** [np.array(l)] for a list of three numbers, as a row to broadcast. *)
Definition np_array3 (l : list R) : vec3 :=
  V3 (nth 0 l 0) (nth 1 l 0) (nth 2 l 0).

(** [vectors *= row] and [vectors += row]: numpy broadcasts the row of
    shape (3,) over an array of shape (n, 3, 3). *)
Definition imul (m : Mesh) (row : vec3) : Mesh :=
  map (fun t => Tri (vmul (v0 t) row) (vmul (v1 t) row) (vmul (v2 t) row)) m.
Definition iadd (m : Mesh) (row : vec3) : Mesh :=
  map (fun t => Tri (vadd (v0 t) row) (vadd (v1 t) row) (vadd (v2 t) row)) m.

(** The body of the [try] of [scale_mesh]. *)
Definition scale_mesh_try (scale_factor : scale_arg) : M STLTools bool :=
  let* scale_factor :=
    match scale_factor with
    | Number x => ret [x; x; x]
    | Sequence l =>
        if negb (Nat.eqb (length l) 3)
        then raise (ValueError "Scale factor must be a single number or list of 3 numbers")
        else ret l
    end in
  let scale_matrix := np_array3 scale_factor in
  exec modify (fun self => set_mesh (Some (imul (vectors self) scale_matrix)) self) in
  exec _clear_cache in
  ret true.

(** [STLTools.scale_mesh]: the handler prints the exception and returns
    [False]. *)
Definition scale_mesh (scale_factor : scale_arg) : M STLTools bool :=
  exec _ensure_mesh_loaded in
  try_except (scale_mesh_try scale_factor) (fun e => ret false).

(** The body of the [try] of [translate_mesh]. *)
Definition translate_mesh_try (translation : list R) : M STLTools bool :=
  exec (if negb (Nat.eqb (length translation) 3)
        then raise (ValueError "Translation must be a list of 3 numbers")
        else ret tt) in
  let translation_vector := np_array3 translation in
  exec modify (fun self => set_mesh (Some (iadd (vectors self) translation_vector)) self) in
  exec _clear_cache in
  ret true.

(** [STLTools.translate_mesh] *)
Definition translate_mesh (translation : list R) : M STLTools bool :=
  exec _ensure_mesh_loaded in
  try_except (translate_mesh_try translation) (fun e => ret false).

(** ** Domain calculators *)

(** The dictionary [estimate_resin_cost] returns. *)
Record ResinCost : Type := mkResinCost {
  volume_mm3 : R;
  volume_cm3 : R;
  mass_g : R;
  mass_kg : R;
  cost : R
}.

(** [STLTools.estimate_resin_cost] *)
Definition estimate_resin_cost (resin_density_g_cm3 resin_price_per_kg : R)
    (volume_unit : string) : M STLTools ResinCost :=
  exec _ensure_mesh_loaded in
  let* volume_mm3 := calculate_volume in
  let* volume_cm3 :=
    if String.eqb volume_unit "mm3" then ret (volume_mm3 / 1000.0)
    else if String.eqb volume_unit "cm3" then ret volume_mm3
    else raise (ValueError "volume_unit must be 'mm3' or 'cm3'") in
  let mass_g := volume_cm3 * resin_density_g_cm3 in
  let mass_kg := mass_g / 1000.0 in
  let cost := mass_kg * resin_price_per_kg in
  ret (mkResinCost volume_mm3 volume_cm3 mass_g mass_kg cost).

(** [ResinCostRequest] of [api/core/models.py]: the request model of the
    cost endpoint declares both fields with [gt=0], so constructing a request
    fails with a validation error unless both are positive. *)
Definition ResinCostRequest (resin_density_g_cm3 resin_price_per_kg : R)
  : result (R * R) :=
  if Rgt_dec resin_density_g_cm3 0 then
    if Rgt_dec resin_price_per_kg 0
    then Ok (resin_density_g_cm3, resin_price_per_kg)
    else Raise (ValidationError "resin_price_per_kg: Input should be greater than 0")
  else Raise (ValidationError "resin_density_g_cm3: Input should be greater than 0").

(** [STLTools._calculate_surface_roughness_factor] *)
Definition _calculate_surface_roughness_factor : M STLTools R :=
  exec _ensure_mesh_loaded in
  let* self := get in
  let triangles := vectors self in
  let areas := map _calculate_triangle_area triangles in
  let mean_area := np_mean areas in
  let std_area := np_std areas in
  let cv := if Rgt_dec mean_area 0 then std_area / mean_area else 0 in
  let roughness_factor := 1.0 + (cv * 0.5) in
  ret (py_min2 roughness_factor 1.5).

(** [STLTools._calculate_coverage_efficiency] *)
Definition _calculate_coverage_efficiency : M STLTools R :=
  exec _ensure_mesh_loaded in
  let* bounds := get_bounding_box in
  let aspect_ratio := _calculate_aspect_ratio (dimensions bounds) in
  let* vol_test := calculate_volume in
  let* sa_v_ratio :=
    if Rgt_dec vol_test 0
    then (let* a := calculate_surface_area in
          let* v := calculate_volume in
          ret (a / v))
    else ret 0 in
  let aspect_ratio :=
    match aspect_ratio with
    | None => 1.0
    | Some r => r
    end in
  let aspect_factor := py_min2 (aspect_ratio / 10.0) 1.0 in
  let sa_v_factor := py_min2 (sa_v_ratio / 10.0) 1.0 in
  let efficiency := 1.0 - (aspect_factor * 0.15) - (sa_v_factor * 0.15) in
  ret (py_max2 efficiency 0.7).

(** The computed entries of the dictionary
    [calculate_electroplating_parameters] returns; the entries that repeat
    an argument and the formatted texts of [recommendations] are left out. *)
Record Electroplating : Type := mkElectroplating {
  surface_area_mm2 : R;
  surface_area_cm2 : R;
  surface_area_in2 : R;
  min_amps : R;
  max_amps : R;
  recommended_amps : R;
  recommended_density : R;
  thickness_inches : R;
  plating_time_minutes : R;
  plating_time_hours : R;
  plating_rate_inches_per_min : R;
  metal_mass_g : R;
  metal_mass_kg : R;
  metal_volume_cm3 : R;
  power_watts : R;
  energy_wh : R;
  energy_kwh : R;
  electricity_cost : R;
  solution_cost : R;
  total_cost : R;
  surface_roughness_factor : R;
  coverage_efficiency : R
}.

(** [STLTools.calculate_electroplating_parameters] *)
Definition calculate_electroplating_parameters
    (current_density_min current_density_max plating_thickness_microns
     metal_density_g_cm3 current_efficiency voltage : R)
  : M STLTools Electroplating :=
  exec _ensure_mesh_loaded in
  let* surface_area_mm2 := calculate_surface_area in
  let surface_area_in2 := surface_area_mm2 / 645.16 in
  let current_min := surface_area_in2 * current_density_min in
  let current_max := surface_area_in2 * current_density_max in
  let current_recommended := (current_min + current_max) / 2 in
  let plating_thickness_inches := plating_thickness_microns / 25400 in
  let current_density_avg := (current_density_min + current_density_max) / 2 in
  let base_rate_microns_per_min :=
    if Rle_dec current_density_avg 0.05 then 0.15 + (current_density_avg * 2.0)
    else if Rle_dec current_density_avg 0.1 then 0.25 + (current_density_avg * 1.5)
    else 0.4 + (current_density_avg * 1.0) in
  let actual_rate_microns_per_min := base_rate_microns_per_min * current_efficiency in
  let actual_plating_rate := actual_rate_microns_per_min / 25400 in
  let plating_time_minutes := plating_thickness_inches / actual_plating_rate in
  let plating_time_hours := plating_time_minutes / 60 in
  let surface_area_cm2 := surface_area_mm2 / 100 in
  let plating_thickness_cm := plating_thickness_microns / 10000 in
  let metal_volume_cm3 := surface_area_cm2 * plating_thickness_cm in
  let metal_mass_g := metal_volume_cm3 * metal_density_g_cm3 in
  let power_watts := current_recommended * voltage in
  let energy_wh := power_watts * plating_time_hours in
  let electricity_cost := energy_wh * 0.12 / 1000 in
  let solution_cost := metal_mass_g * 0.05 in
  let* surface_roughness_factor := _calculate_surface_roughness_factor in
  let* coverage_efficiency := _calculate_coverage_efficiency in
  let adjusted_metal_mass_g := metal_mass_g / coverage_efficiency in
  ret (mkElectroplating
         surface_area_mm2 surface_area_cm2 surface_area_in2
         current_min current_max current_recommended
         (current_recommended / surface_area_in2)
         plating_thickness_inches plating_time_minutes plating_time_hours
         actual_plating_rate
         adjusted_metal_mass_g (adjusted_metal_mass_g / 1000) metal_volume_cm3
         power_watts energy_wh (energy_wh / 1000)
         electricity_cost solution_cost (electricity_cost + solution_cost)
         surface_roughness_factor coverage_efficiency).

(** ** The test cube

    [create_test_cube] of [tests/test_stl_tools.py]: eight corners and the
    twelve triangles that index them. *)
Definition cube_vertices : list vec3 :=
  [ V3 0 0 0; V3 1 0 0; V3 1 1 0; V3 0 1 0;
    V3 0 0 1; V3 1 0 1; V3 1 1 1; V3 0 1 1 ].

Definition cube_faces : list (nat * nat * nat) :=
  [ (0, 3, 1); (1, 3, 2);
    (0, 4, 7); (0, 7, 3);
    (1, 2, 6); (1, 6, 5);
    (2, 3, 7); (2, 7, 6);
    (0, 1, 5); (0, 5, 4);
    (4, 5, 6); (4, 6, 7) ]%nat.

Definition create_test_cube : Mesh :=
  map (fun face =>
         match face with
         | (a, b, c) =>
             Tri (nth a cube_vertices (V3 0 0 0))
                 (nth b cube_vertices (V3 0 0 0))
                 (nth c cube_vertices (V3 0 0 0))
         end) cube_faces.

(** An instance on which [load_file] succeeded with mesh [m]: the mesh is
    set and [_clear_cache] has run. *)
Definition loaded (path : string) (m : Mesh) : STLTools :=
  mkSTLTools (Some m) (Some path) None None None None.

(** ** What the caches are supposed to hold *)

(** The bounding box [get_bounding_box] computes for mesh [m]. *)
Definition compute_bounds (m : Mesh) : result Bounds :=
  match np_min_axis0 (reshape_vertices m), np_max_axis0 (reshape_vertices m) with
  | Ok lo, Ok hi => Ok (mkBounds lo hi (vsub hi lo))
  | Raise e, _ => Raise e
  | _, Raise e => Raise e
  end.

(** The object holds mesh [m], and each cached value is either absent or
    the value the corresponding method computes for [m]. *)
Record holds (m : Mesh) (self : STLTools) : Prop := mkHolds {
  holds_mesh : mesh self = Some m;
  holds_area : forall a, _cached_surface_area self = Some a -> a = total_area m;
  holds_volume : forall v, _cached_volume self = Some v -> v = Rabs (signed_volume m);
  holds_bounds : forall b, _cached_bounds self = Some b -> compute_bounds m = Ok b;
  holds_center : forall c, _cached_center_of_mass self = Some c ->
                           c = np_mean_axis0 (reshape_vertices m)
}.

(** Two of the three vertices of a triangle coincide. *)
Definition coincident (t : triangle) : Prop :=
  v0 t = v1 t \/ v1 t = v2 t \/ v0 t = v2 t.

(** A call fails when it raises. *)
Definition fails {A} (r : result A) : Prop := exists e, r = Raise e.

(** A single triangle in the plane z = 0. *)
Definition flat_triangle : Mesh := [ Tri (V3 0 0 0) (V3 1 0 0) (V3 0 1 0) ].

(** The smallest and the largest of the three dimensions. *)
Definition smallest (dims : vec3) : R := Rmin (vx dims) (Rmin (vy dims) (vz dims)).
Definition largest (dims : vec3) : R := Rmax (vx dims) (Rmax (vy dims) (vz dims)).

(** The threshold of [_calculate_aspect_ratio]: the test is
    [sorted_dims[0] > 0]. *)
Definition aspect_ratio_epsilon : R := 0.


(** The same with the guard of the source: the quotient is taken as 0
    unless the volume is positive. *)
Definition coverage_value (aspect : option R) (area vol : R) : R :=
  let ar := match aspect with Some r => r | None => 1.0 end in
  let sa_v := if Rgt_dec vol 0 then area / vol else 0 in
  Rmax (1 - 0.15 * Rmin (ar / 10) 1 - 0.15 * Rmin (sa_v / 10) 1) 0.7.


(** ** Further methods of the class *)

(** The dictionary [get_mesh_info] returns. *)
Record MeshInfo : Type := mkMeshInfo {
  info_file_path : option string;
  info_triangle_count : nat;
  info_bounding_box : Bounds;
  info_center_of_mass : list R;
  info_surface_area : R;
  info_volume : R
}.

(** [STLTools.get_mesh_info] *)
Definition get_mesh_info : M STLTools MeshInfo :=
  exec _ensure_mesh_loaded in
  let* bounds := get_bounding_box in
  let* self := get in
  let* center := get_center_of_mass in
  let* area := calculate_surface_area in
  let* vol := calculate_volume in
  ret (mkMeshInfo (file_path self) (length (vectors self)) bounds
                  (tolist center) area vol).

(** [str.lower] on ASCII text. *)
Definition ascii_lower (c : Ascii.ascii) : Ascii.ascii :=
  let n := Ascii.nat_of_ascii c in
  if andb (Nat.leb 65 n) (Nat.leb n 90) then Ascii.ascii_of_nat (n + 32) else c.
Fixpoint str_lower (s : string) : string :=
  match s with
  | EmptyString => EmptyString
  | String c rest => String (ascii_lower c) (str_lower rest)
  end.

(** One entry of the table [metal_properties] of
    [get_electroplating_recommendations]. *)
Record MetalProperties : Type := mkMetalProperties {
  density_g_cm3 : R;
  preset_current_density_min : R;
  preset_current_density_max : R;
  preset_voltage : R;
  plating_rate_microns_per_min : R;
  solution_cost_per_kg : R;
  color : string;
  hardness : string;
  corrosion_resistance : string;
  typical_thickness_microns : R
}.

(** The table [metal_properties], as the lookup of a key. *)
Definition metal_properties (key : string) : option MetalProperties :=
  if String.eqb key "nickel" then
    Some (mkMetalProperties 8.9 0.07 0.1 6.0 0.4 50.0
            "Silver-gray" "Hard" "Excellent" 25.0)
  else if String.eqb key "copper" then
    Some (mkMetalProperties 8.96 0.07 0.1 3.0 0.45 30.0
            "Reddish-brown" "Soft" "Good" 20.0)
  else if String.eqb key "chrome" then
    Some (mkMetalProperties 7.19 0.1 0.15 12.0 0.25 80.0
            "Bright silver" "Very hard" "Excellent" 15.0)
  else if String.eqb key "gold" then
    Some (mkMetalProperties 19.32 0.02 0.05 3.0 0.15 2000.0
            "Yellow" "Soft" "Excellent" 5.0)
  else if String.eqb key "silver" then
    Some (mkMetalProperties 10.49 0.03 0.06 2.0 0.2 500.0
            "Bright silver" "Soft" "Good" 10.0)
  else None.

(** The dictionary [get_electroplating_recommendations] returns, without the
    constant table of tips. *)
Record Recommendations : Type := mkRecommendations {
  recommended_metal : MetalProperties;
  calculated_parameters : Electroplating
}.

(** [STLTools.get_electroplating_recommendations]; the call of
    [calculate_electroplating_parameters] leaves [current_efficiency] at its
    default 0.95. *)
Definition get_electroplating_recommendations (metal_type : string)
  : M STLTools Recommendations :=
  match metal_properties (str_lower metal_type) with
  | None => raise (ValueError ("Unsupported metal type: " +:+ metal_type))
  | Some props =>
      let* plating_params :=
        calculate_electroplating_parameters
          (preset_current_density_min props) (preset_current_density_max props)
          (typical_thickness_microns props) (density_g_cm3 props)
          0.95 (preset_voltage props) in
      ret (mkRecommendations props plating_params)
  end.

(** ** Quantities the properties of the methods are stated with *)

(** The base plating rate of [calculate_electroplating_parameters], in
    microns per minute, as a function of the average current density. *)
Definition plating_base_rate (current_density_avg : R) : R :=
  if Rle_dec current_density_avg 0.05 then 0.15 + (current_density_avg * 2.0)
  else if Rle_dec current_density_avg 0.1 then 0.25 + (current_density_avg * 1.5)
  else 0.4 + (current_density_avg * 1.0).


(** A vertex of the mesh. *)
Definition vertex_of (m : Mesh) (v : vec3) : Prop := In v (reshape_vertices m).

(** Component-wise order of vectors. *)
Definition vle (a b : vec3) : Prop := vx a <= vx b /\ vy a <= vy b /\ vz a <= vz b.

(** The calls a client can make on a loaded object, and the object a
    sequence of calls leaves (results and exceptions are dropped: an
    exception leaves the object as it was when raised). *)
Inductive call : Type :=
| call_calculate_surface_area
| call_calculate_volume
| call_get_bounding_box
| call_get_center_of_mass
| call_get_mesh_statistics
| call_validate_mesh
| call_get_mesh_info
| call_scale_mesh (scale_factor : scale_arg)
| call_translate_mesh (translation : list R)
| call_estimate_resin_cost (density price : R) (volume_unit : string)
| call_calculate_electroplating_parameters
    (cd_min cd_max thickness density efficiency volts : R)
| call_get_electroplating_recommendations (metal_type : string).

Definition perform (c : call) (self : STLTools) : STLTools :=
  match c with
  | call_calculate_surface_area => after calculate_surface_area self
  | call_calculate_volume => after calculate_volume self
  | call_get_bounding_box => after get_bounding_box self
  | call_get_center_of_mass => after get_center_of_mass self
  | call_get_mesh_statistics => after get_mesh_statistics self
  | call_validate_mesh => after validate_mesh self
  | call_get_mesh_info => after get_mesh_info self
  | call_scale_mesh f => after (scale_mesh f) self
  | call_translate_mesh t => after (translate_mesh t) self
  | call_estimate_resin_cost d p u => after (estimate_resin_cost d p u) self
  | call_calculate_electroplating_parameters a b c d e f =>
      after (calculate_electroplating_parameters a b c d e f) self
  | call_get_electroplating_recommendations metal =>
      after (get_electroplating_recommendations metal) self
  end.

Definition perform_all (cs : list call) (self : STLTools) : STLTools :=
  fold_left (fun s c => perform c s) cs self.

(** No cached value is stale: each is absent or the value of the current
    vertices. *)
Definition consistent (self : STLTools) : Prop :=
  match mesh self with
  | Some m => holds m self
  | None => True
  end.

(** The exception of [_ensure_mesh_loaded]. *)
Definition no_mesh_error {A} : result A :=
  Raise (ValueError "No mesh loaded. Call load_file() first.").


(** One step of the folds of [np_min_axis0] and [np_max_axis0]. *)
Definition min_step (acc w : vec3) : vec3 :=
  V3 (Rmin (vx acc) (vx w)) (Rmin (vy acc) (vy w)) (Rmin (vz acc) (vz w)).
Definition max_step (acc w : vec3) : vec3 :=
  V3 (Rmax (vx acc) (vx w)) (Rmax (vy acc) (vy w)) (Rmax (vz acc) (vz w)).


(** A computation keeps the mesh and leaves no stale cached value. *)
Definition preserves {A} (c : M STLTools A) : Prop :=
  forall m self, holds m self -> holds m (after c self).

(** [str.isascii]: on such text [str_lower] is [str.lower]. *)
Definition isascii (s : string) : bool :=
  forallb (fun c => Nat.ltb (Ascii.nat_of_ascii c) 128) (String.list_ascii_of_string s).

End STL.

Module Session.

Local Open Scope Z_scope.
Local Open Scope monad_scope.

(** ** The file system

    Files are keyed by their path string, directories are a set of path
    strings.  Writing and creating directories succeed; removing a tree
    raises for the directories listed in [undeletable], the fault the
    [try] of [delete_session] is written for. *)

Record FS : Type := mkFS {
  files : gmap string (list Byte.byte);
  dirs : gset string;
  undeletable : gset string
}.

(** The separator "/" of [posixpath]. *)
Definition sep : Ascii.ascii := Ascii.ascii_of_nat 47.

Definition startswith_sep (p : string) : bool := String.prefix "/" p.
Fixpoint endswith_sep (p : string) : bool :=
  match p with
  | EmptyString => false
  | String c EmptyString => Ascii.eqb c sep
  | String _ rest => endswith_sep rest
  end.

(** A plain name: a non-empty string without separator, as the identifiers
    [uuid.uuid4()] returns and the file names of ordinary uploads are. *)
Fixpoint contains_sep (p : string) : bool :=
  match p with
  | EmptyString => false
  | String c rest => orb (Ascii.eqb c sep) (contains_sep rest)
  end.
Definition plain (p : string) : Prop := p <> EmptyString /\ contains_sep p = false.

(** [os.path.join(a, b)] of [posixpath]. *)
Definition os_path_join (a b : string) : string :=
  if startswith_sep b then b
  else if orb (String.eqb a "") (endswith_sep a) then a +:+ b
  else a +:+ "/" +:+ b.

(** Path [p] is directory [d] or lies below it. *)
Definition inside (d p : string) : bool :=
  orb (String.eqb d p) (String.prefix (d +:+ "/") p).

(** [os.path.exists] *)
Definition os_path_exists (p : string) (fs : FS) : bool :=
  orb (bool_decide (p ∈ dirs fs)) (bool_decide (is_Some (files fs !! p))).

(** [os.makedirs(d, exist_ok=True)] *)
Definition os_makedirs (d : string) (fs : FS) : FS :=
  mkFS (files fs) ({[ d ]} ∪ dirs fs) (undeletable fs).

(** [open(p, 'wb')] followed by [write(content)]. *)
Definition write_file (p : string) (content : list Byte.byte) (fs : FS) : FS :=
  mkFS (<[ p := content ]> (files fs)) (dirs fs) (undeletable fs).

(** The file system without directory [d] and everything below it. *)
Definition remove_tree (d : string) (fs : FS) : FS :=
  mkFS (base.filter (fun kv => inside d (fst kv) = false) (files fs))
       (base.filter (fun p => inside d p = false) (dirs fs))
       (undeletable fs).

(** [shutil.rmtree(d)] *)
Definition shutil_rmtree (d : string) (fs : FS) : result FS :=
  if bool_decide (d ∈ undeletable fs)
  then Raise (OSError "Permission denied")
  else Ok (remove_tree d fs).

(** ** The session manager *)

(** The dictionary kept per session in [SessionManager.sessions]; the two
    times are [datetime.now().isoformat()] strings in the source, read back
    with [fromisoformat(...).timestamp()], and are kept as timestamps. *)
Record SessionInfo : Type := mkSessionInfo {
  filename : string;
  file_path : string;
  file_size : nat;
  upload_time : Z;
  last_accessed : Z;
  session_dir : string
}.

(** A reference to an [STLTools] object on the heap. *)
Definition ref : Type := nat.

(** Entries of the [functools.lru_cache] around [_get_stl_tools_cached],
    most recently used first. *)
Definition lru_state : Type := list (string * option ref).
Definition lru_maxsize : nat := 100.

Record SessionManager : Type := mkSessionManager {
  upload_dir : string;
  session_timeout : Z;
  max_sessions : Z;
  sessions : gmap string SessionInfo;
  stl_instances : gmap string ref;
  cache_hits : nat;
  cache_misses : nat;
  lru : lru_state
}.

(** Everything the manager's methods read and write: the manager, the
    heap of [STLTools] objects and the file system. *)
Record World : Type := mkWorld {
  mgr : SessionManager;
  heap : list STL.STLTools;
  fs : FS
}.

Definition set_sessions (ss : gmap string SessionInfo) (m : SessionManager) :=
  mkSessionManager (upload_dir m) (session_timeout m) (max_sessions m) ss
                   (stl_instances m) (cache_hits m) (cache_misses m) (lru m).
Definition set_stl_instances (si : gmap string ref) (m : SessionManager) :=
  mkSessionManager (upload_dir m) (session_timeout m) (max_sessions m) (sessions m)
                   si (cache_hits m) (cache_misses m) (lru m).
Definition set_lru (l : lru_state) (m : SessionManager) :=
  mkSessionManager (upload_dir m) (session_timeout m) (max_sessions m) (sessions m)
                   (stl_instances m) (cache_hits m) (cache_misses m) l.
Definition hit (m : SessionManager) :=
  mkSessionManager (upload_dir m) (session_timeout m) (max_sessions m) (sessions m)
                   (stl_instances m) (S (cache_hits m)) (cache_misses m) (lru m).
Definition miss (m : SessionManager) :=
  mkSessionManager (upload_dir m) (session_timeout m) (max_sessions m) (sessions m)
                   (stl_instances m) (cache_hits m) (S (cache_misses m)) (lru m).

Definition on_mgr (f : SessionManager -> SessionManager) : M World unit :=
  modify (fun w => mkWorld (f (mgr w)) (heap w) (fs w)).
Definition on_fs (f : FS -> FS) : M World unit :=
  modify (fun w => mkWorld (mgr w) (heap w) (f (fs w))).

(** [SessionManager.__init__] with an explicit [upload_dir]. *)
Definition __init__ (upload_dir : string) (session_timeout max_sessions : Z)
    (fs : FS) : World :=
  mkWorld (mkSessionManager upload_dir session_timeout max_sessions ∅ ∅ 0%nat 0%nat [])
          [] (os_makedirs upload_dir fs).

(** [self._get_stl_tools_cached.cache_clear()] *)
Definition cache_clear : M World unit := on_mgr (set_lru []).

(** [SessionManager.delete_session] *)
Definition delete_session (session_id : string) : M World bool :=
  let* w := get in
  match sessions (mgr w) !! session_id with
  | None => ret false
  | Some session =>
      try_except
        (exec on_mgr (fun m => set_stl_instances (delete session_id (stl_instances m)) m) in
         exec cache_clear in
         exec (let* w := get in
               if os_path_exists (session_dir session) (fs w)
               then (let* fs' := lift (shutil_rmtree (session_dir session) (fs w)) in
                     on_fs (fun _ => fs'))
               else ret tt) in
         exec on_mgr (fun m => set_sessions (delete session_id (sessions m)) m) in
         ret true)
        (fun e => ret false)
  end.

(** The manager a successful [delete_session] leaves. *)
Definition without_session (session_id : string) (m : SessionManager) : SessionManager :=
  set_sessions (delete session_id (sessions m))
    (set_lru [] (set_stl_instances (delete session_id (stl_instances m)) m)).

(** The sessions [cleanup_expired_sessions] collects at time [current_time]
    (the dictionary is a finite map here, so they come in the order of the
    map rather than in the order of insertion). *)
Definition expired_sessions (current_time : Z) (m : SessionManager) : list string :=
  map fst
      (List.filter (fun kv => Z.ltb (session_timeout m) (current_time - last_accessed (snd kv)))
                   (map_to_list (sessions m))).

(** [SessionManager.cleanup_expired_sessions], with the value [time.time()]
    returns. *)
Definition cleanup_expired_sessions (current_time : Z) : M World nat :=
  let* w := get in
  let expired_sessions := expired_sessions current_time (mgr w) in
  exec fold_left (fun acc session_id => exec acc in exec delete_session session_id in ret tt)
                 expired_sessions (ret tt) in
  ret (length expired_sessions).

(** [SessionManager.create_session]; [time_time] and [datetime_now] are the
    two clock readings of the call and [uuid4] the identifier
    [uuid.uuid4()] returns. *)
Definition create_session (time_time datetime_now : Z) (uuid4 : string)
    (file_content : list Byte.byte) (filename : string) : M World (string * string) :=
  let* w := get in
  exec (if Z.geb (Z.of_nat (size (sessions (mgr w)))) (max_sessions (mgr w))
        then (exec cleanup_expired_sessions time_time in
              let* w := get in
              if Z.geb (Z.of_nat (size (sessions (mgr w)))) (max_sessions (mgr w))
              then raise (RuntimeError "Maximum number of sessions reached")
              else ret tt)
        else ret tt) in
  let session_id := uuid4 in
  let* w := get in
  let session_dir := os_path_join (upload_dir (mgr w)) session_id in
  exec on_fs (os_makedirs session_dir) in
  let file_path := os_path_join session_dir filename in
  exec on_fs (write_file file_path file_content) in
  let current_time := datetime_now in
  exec on_mgr (fun m =>
          set_sessions (<[ session_id :=
                             mkSessionInfo filename file_path (length file_content)
                                           current_time current_time session_dir ]>
                          (sessions m)) m) in
  ret (session_id, file_path).

(** [SessionManager.get_session] *)
Definition get_session (datetime_now : Z) (session_id : string)
  : M World (option SessionInfo) :=
  let* w := get in
  match sessions (mgr w) !! session_id with
  | None => ret None
  | Some s =>
      let s' := mkSessionInfo (filename s) (file_path s) (file_size s)
                              (upload_time s) datetime_now (session_dir s) in
      exec on_mgr (fun m => set_sessions (<[ session_id := s' ]> (sessions m)) m) in
      ret (Some s')
  end.

(** ** Materialising the mesh of a session *)

Section Materialise.

(** [stl.mesh.Mesh.from_file] of the numpy-stl library, as a function of the
    bytes of the file: [None] when the library raises. *)
Variable from_file : list Byte.byte -> option STL.Mesh.

(** [STLTools.load_file], reading from file system [fs]. *)
Definition load_file (path : string) (fs : FS) : M STL.STLTools bool :=
  if negb (os_path_exists path fs)
  then raise (FileNotFoundError ("File '" +:+ path +:+ "' not found."))
  else
    match files fs !! path with
    | None => raise (ValueError "Error loading STL file: Is a directory")
    | Some content =>
        match from_file content with
        | None => raise (ValueError "Error loading STL file")
        | Some m =>
            exec modify (fun self => STL.set_file_path (Some path) (STL.set_mesh (Some m) self)) in
            exec STL._clear_cache in
            ret true
        end
    end.

(** The function under the [lru_cache]: a new [STLTools] object is
    allocated and loaded; a failure to load is printed and gives [None]. *)
Definition _get_stl_tools_uncached (session_id : string) : M World (option ref) :=
  let* w := get in
  match sessions (mgr w) !! session_id with
  | None => ret None
  | Some session =>
      let stl_tools : ref := length (heap w) in
      match load_file (file_path session) (fs w) STL.__init__ with
      | (Ok _, obj) =>
          exec put (mkWorld (mgr w) (heap w ++ [obj]) (fs w)) in
          ret (Some stl_tools)
      | (Raise _, obj) =>
          exec put (mkWorld (mgr w) (heap w ++ [obj]) (fs w)) in
          ret None
      end
  end.

Fixpoint lru_find (session_id : string) (l : lru_state) : option (option ref) :=
  match l with
  | [] => None
  | (k, v) :: l' => if String.eqb k session_id then Some v else lru_find session_id l'
  end.
Definition lru_remove (session_id : string) (l : lru_state) : lru_state :=
  List.filter (fun kv => negb (String.eqb (fst kv) session_id)) l.

(** [SessionManager._get_stl_tools_cached], the method as decorated with
    [lru_cache(maxsize=100)]. *)
Definition _get_stl_tools_cached (session_id : string) : M World (option ref) :=
  let* w := get in
  match lru_find session_id (lru (mgr w)) with
  | Some r =>
      exec on_mgr (fun m => set_lru ((session_id, r) :: lru_remove session_id (lru m)) m) in
      ret r
  | None =>
      let* r := _get_stl_tools_uncached session_id in
      exec on_mgr (fun m => set_lru (take lru_maxsize ((session_id, r) :: lru m)) m) in
      ret r
  end.

(** [SessionManager.get_stl_tools] *)
Definition get_stl_tools (session_id : string) : M World (option ref) :=
  let* w := get in
  match sessions (mgr w) !! session_id with
  | None =>
      exec on_mgr miss in
      ret None
  | Some _ =>
      match stl_instances (mgr w) !! session_id with
      | Some r =>
          exec on_mgr hit in
          ret (Some r)
      | None =>
          let* stl_tools := _get_stl_tools_cached session_id in
          exec (match stl_tools with
                | Some r =>
                    exec on_mgr (fun m => set_stl_instances (<[ session_id := r ]> (stl_instances m)) m) in
                    on_mgr hit
                | None => on_mgr miss
                end) in
          ret stl_tools
      end
  end.

End Materialise.

(** ** A store with two sessions

    Session "a" is uploaded under a plain file name; session "b" under a file
    name that is an absolute path into the directory of session "a"; the
    mesh of "b" is then materialised. *)
Definition example_content : list Byte.byte := [Byte.x73; Byte.x6f; Byte.x6c].

(** A parser that reads every file as the test cube. *)
Definition example_parser (_ : list Byte.byte) : option STL.Mesh :=
  Some STL.create_test_cube.

Definition example_store (from_file : list Byte.byte -> option STL.Mesh) : World :=
  let w0 := __init__ "/up" 3600 10 (mkFS ∅ ∅ ∅) in
  let w1 := after (create_session 0 0 "a" example_content "a.stl") w0 in
  let w2 := after (create_session 0 0 "b" example_content "/up/a/b.stl") w1 in
  after (get_stl_tools from_file "b") w2.

(** ** Listing and statistics *)

(** The dictionary [get_session_info] returns. *)
Record SessionSummary : Type := mkSessionSummary {
  summary_session_id : string;
  summary_filename : string;
  summary_file_size : nat;
  summary_upload_time : Z;
  summary_last_accessed : Z
}.

(** [SessionManager.get_session_info] *)
Definition get_session_info (datetime_now : Z) (session_id : string)
  : M World (option SessionSummary) :=
  let* session := get_session datetime_now session_id in
  match session with
  | None => ret None
  | Some session =>
      ret (Some (mkSessionSummary session_id (filename session) (file_size session)
                                  (upload_time session) (last_accessed session)))
  end.

(** [SessionManager.list_sessions]: the comprehension calls
    [get_session_info] once per key; [datetime_now] gives the clock reading
    of the call made for a key.  The dictionary returned is kept as the list
    of its items. *)
Definition list_sessions (datetime_now : string -> Z)
  : M World (list (string * option SessionSummary)) :=
  let* w := get in
  fold_left (fun acc session_id =>
               let* listed := acc in
               let* info := get_session_info (datetime_now session_id) session_id in
               ret (listed ++ [(session_id, info)]))
            (map fst (map_to_list (sessions (mgr w)))) (ret []).

(** The dictionary [get_stats] returns, flattened. *)
Record Stats : Type := mkStats {
  stats_total_sessions : nat;
  stats_active_sessions : nat;
  stats_expired_sessions : nat;
  stats_max_sessions : Z;
  stats_total_size_bytes : nat;
  stats_total_size_mb : R;
  stats_upload_directory : string;
  stats_stl_instances_cached : nat;
  stats_cache_hits : nat;
  stats_cache_misses : nat;
  stats_cache_hit_rate : R
}.

(** The loop of [get_stats] over the sessions: one iteration on the pair
    (active, expired). *)
Definition count_session (timeout current_time : Z) (counts : nat * nat)
    (session : SessionInfo) : nat * nat :=
  if Z.ltb timeout (current_time - last_accessed session)
  then (fst counts, S (snd counts))
  else (S (fst counts), snd counts).

(** [SessionManager.get_stats], with the value [time.time()] returns. *)
Definition get_stats (time_time : Z) : M World Stats :=
  let* w := get in
  let m := mgr w in
  let values := map snd (map_to_list (sessions m)) in
  let counts := fold_left (count_session (session_timeout m) time_time) values
                          (0%nat, 0%nat) in
  let total_size := fold_left (fun acc session => (acc + file_size session)%nat)
                              values 0%nat in
  ret (mkStats (size (sessions m)) (fst counts) (snd counts) (max_sessions m)
               total_size (INR total_size / (1024 * 1024))%R (upload_dir m)
               (size (stl_instances m)) (cache_hits m) (cache_misses m)
               (INR (cache_hits m)
                / INR (Nat.max 1 (cache_hits m + cache_misses m)))%R).

(** ** Stores that calls of the public methods reach *)

(** Every materialised instance belongs to a recorded session and refers
    to an allocated object; the entries of the [lru_cache] belong to
    recorded sessions, and an entry that holds an object is also the
    materialised instance of its session. *)
Definition wf (w : World) : Prop :=
  (forall session_id r, stl_instances (mgr w) !! session_id = Some r ->
     is_Some (sessions (mgr w) !! session_id) /\ (r < length (heap w))%nat) /\
  (forall session_id v, lru_find session_id (lru (mgr w)) = Some v ->
     is_Some (sessions (mgr w) !! session_id)) /\
  (forall session_id r, lru_find session_id (lru (mgr w)) = Some (Some r) ->
     stl_instances (mgr w) !! session_id = Some r).

(** The calls a client can make on the manager, and the store a sequence of
    calls leaves. *)
Inductive op : Type :=
| op_create_session (time_time datetime_now : Z) (uuid4 : string)
                    (file_content : list Byte.byte) (filename : string)
| op_get_session (datetime_now : Z) (session_id : string)
| op_get_stl_tools (session_id : string)
| op_delete_session (session_id : string)
| op_cleanup_expired_sessions (time_time : Z)
| op_get_session_info (datetime_now : Z) (session_id : string)
| op_list_sessions (datetime_now : string -> Z)
| op_get_stats (time_time : Z).

Definition run_op (from_file : list Byte.byte -> option STL.Mesh) (o : op)
    (w : World) : World :=
  match o with
  | op_create_session t now uuid4 content name =>
      after (create_session t now uuid4 content name) w
  | op_get_session now session_id => after (get_session now session_id) w
  | op_get_stl_tools session_id => after (get_stl_tools from_file session_id) w
  | op_delete_session session_id => after (delete_session session_id) w
  | op_cleanup_expired_sessions t => after (cleanup_expired_sessions t) w
  | op_get_session_info now session_id => after (get_session_info now session_id) w
  | op_list_sessions now => after (list_sessions now) w
  | op_get_stats t => after (get_stats t) w
  end.

Definition run_ops (from_file : list Byte.byte -> option STL.Mesh) (os : list op)
    (w : World) : World :=
  fold_left (fun w o => run_op from_file o w) os w.


End Session.

(** * Properties of the mesh engine *)

Module MeshFacts.
Import STL.
Local Open Scope R_scope.

Ltac run :=
  unfold outcome, after, bind, ret, raise, get, put, modify, lift, try_except in *;
  simpl in *.

Ltac holds_tac :=
  split; simpl; auto; try (intros ? [= <-]; auto; fail).

Lemma loaded_holds p m : holds m (loaded p m).
Proof. split; simpl; intros; congruence. Qed.

Lemma calculate_volume_holds m self :
  holds m self ->
  exists self', calculate_volume self = (Ok (Rabs (signed_volume m)), self')
                /\ holds m self'.
Proof.
  intros [Hm Ha Hv Hb Hc].
  unfold calculate_volume, _ensure_mesh_loaded, vectors. run. rewrite Hm.
  destruct self as [ms fp ca cv cb cc]; simpl in *; subst ms.
  destruct (cv) as [v|]; simpl.
  - rewrite (Hv v eq_refl). eexists; split; [reflexivity|]. holds_tac.
  - eexists; split; [reflexivity|]. holds_tac.
Qed.

Lemma calculate_surface_area_holds m self :
  holds m self ->
  exists self', calculate_surface_area self = (Ok (total_area m), self')
                /\ holds m self'.
Proof.
  intros [Hm Ha Hv Hb Hc].
  unfold calculate_surface_area, _ensure_mesh_loaded, vectors. run. rewrite Hm.
  destruct self as [ms fp ca cv cb cc]; simpl in *; subst ms.
  destruct (ca) as [v|]; simpl.
  - rewrite (Ha v eq_refl). eexists; split; [reflexivity|]. holds_tac.
  - eexists; split; [reflexivity|]. holds_tac.
Qed.

Lemma get_center_of_mass_holds m self :
  holds m self ->
  exists self', get_center_of_mass self = (Ok (np_mean_axis0 (reshape_vertices m)), self')
                /\ holds m self'.
Proof.
  intros [Hm Ha Hv Hb Hc].
  unfold get_center_of_mass, _ensure_mesh_loaded, vectors. run. rewrite Hm.
  destruct self as [ms fp ca cv cb cc]; simpl in *; subst ms.
  destruct (cc) as [v|]; simpl.
  - rewrite (Hc v eq_refl). eexists; split; [reflexivity|]. holds_tac.
  - eexists; split; [reflexivity|]. holds_tac.
Qed.

Lemma compute_bounds_nonempty m :
  m <> [] ->
  exists lo hi, np_min_axis0 (reshape_vertices m) = Ok lo
             /\ np_max_axis0 (reshape_vertices m) = Ok hi
             /\ compute_bounds m = Ok (mkBounds lo hi (vsub hi lo)).
Proof.
  destruct m as [|t m]; [congruence|]. intros _.
  unfold compute_bounds. simpl. eauto.
Qed.

Lemma compute_bounds_empty : fails (compute_bounds []).
Proof. unfold compute_bounds; simpl. eexists; reflexivity. Qed.

Lemma get_bounding_box_holds m self :
  holds m self -> m <> [] ->
  exists self' b, get_bounding_box self = (Ok b, self')
                  /\ compute_bounds m = Ok b /\ holds m self'.
Proof.
  intros [Hm Ha Hv Hb Hc] Hne.
  unfold get_bounding_box, _ensure_mesh_loaded, vectors. run. rewrite Hm.
  destruct self as [ms fp ca cv cb cc]; simpl in *; subst ms.
  destruct cb as [b|]; simpl.
  - eexists _, b. split; [reflexivity|]. split; [auto|]. holds_tac.
  - destruct (compute_bounds_nonempty m Hne) as (lo & hi & -> & -> & Hcb).
    eexists _, _; split; [reflexivity|]. split; [exact Hcb|].
    holds_tac.
Qed.


(** *** Aspect ratio *)

Lemma np_sort_three x y z :
  let s := np_sort [x; y; z] in
  s ≡ₚ [x; y; z] /\
  nth 0 s 0 <= nth 1 s 0 <= nth 2 s 0 /\
  nth 0 s 0 = Rmin x (Rmin y z) /\
  nth 2 s 0 = Rmax x (Rmax y z).
Proof.
  unfold np_sort, Rmin, Rmax; simpl.
  repeat (destruct Rle_dec; simpl);
    (split; [ try reflexivity; eauto using Permutation_swap, perm_trans, perm_skip, Permutation_refl
            | repeat split; try lra ]).
Qed.

Lemma aspect_ratio_by_extremes (dims : vec3) :
  let sorted_dims := np_sort (tolist dims) in
  sorted_dims ≡ₚ tolist dims /\
  nth 0 sorted_dims 0 <= nth 1 sorted_dims 0 <= nth 2 sorted_dims 0 /\
  nth 0 sorted_dims 0 = smallest dims /\
  nth 2 sorted_dims 0 = largest dims /\
  _calculate_aspect_ratio dims =
    if Rle_dec (smallest dims) aspect_ratio_epsilon
    then None
    else Some (nth 2 sorted_dims 0 / nth 0 sorted_dims 0).
Proof.
  destruct (np_sort_three (vx dims) (vy dims) (vz dims)) as (Hp & Hs & Hlo & Hhi).
  cbv zeta. unfold tolist, smallest, largest.
  repeat split; try assumption; try apply Hs.
  unfold _calculate_aspect_ratio, tolist, aspect_ratio_epsilon.
  rewrite <- Hlo.
  destruct Rgt_dec; destruct Rle_dec; try reflexivity; lra.
Qed.

(** Claim C7.  For every vector of bounding-box dimensions,
    [_calculate_aspect_ratio] sorts the three dimensions (the sorted array is
    a permutation in ascending order, its first entry the smallest and its
    last the largest dimension) and returns the value [None], never an
    exception, when the smallest dimension is at most the threshold
    [aspect_ratio_epsilon] (which is 0), and [sorted_dims[2] / sorted_dims[0]]
    otherwise. *)
Theorem aspect_ratio_sorted_quotient (dims : vec3) :
  let sorted_dims := np_sort (tolist dims) in
  sorted_dims ≡ₚ tolist dims /\
  nth 0 sorted_dims 0 <= nth 1 sorted_dims 0 <= nth 2 sorted_dims 0 /\
  nth 0 sorted_dims 0 = smallest dims /\
  nth 2 sorted_dims 0 = largest dims /\
  _calculate_aspect_ratio dims =
    if Rle_dec (smallest dims) aspect_ratio_epsilon
    then None
    else Some (nth 2 sorted_dims 0 / nth 0 sorted_dims 0).
Proof. exact (aspect_ratio_by_extremes dims). Qed.

(** *** Validation *)


Lemma find_degenerate_fold m : forall k acc i,
  In i (fold_left degenerate_step (combine (seq k (length m)) m) acc) <->
  In i acc \/
  exists t, (k <= i)%nat /\ nth_error m (i - k) = Some t
            /\ _calculate_triangle_area t < degenerate_area_threshold.
Proof.
  induction m as [|t m IH]; intros k acc i; simpl.
  - split; [auto|]. intros [H|(t & _ & H & _)]; [auto|].
    destruct (i - k)%nat; discriminate.
  - rewrite IH. unfold degenerate_step; simpl.
    split.
    + intros [H|(t' & Hk & Hn & Ha)].
      * destruct Rlt_dec as [Hlt|]; [|auto].
        apply in_app_or in H as [H|[<-|[]]]; [auto|].
        right. exists t. rewrite Nat.sub_diag. auto.
      * right. exists t'. split; [lia|]. split; [|assumption].
        replace (i - k)%nat with (S (i - S k)) by lia. exact Hn.
    + intros [H|(t' & Hk & Hn & Ha)].
      * left. destruct Rlt_dec; [apply in_or_app|]; auto.
      * destruct (Nat.eq_dec i k) as [->|Hne].
        -- rewrite Nat.sub_diag in Hn. injection Hn as <-.
           left. destruct Rlt_dec; [|contradiction].
           apply in_or_app. right. left. reflexivity.
        -- right. exists t'. split; [lia|]. split; [|assumption].
           replace (i - k)%nat with (S (i - S k)) in Hn by lia. exact Hn.
Qed.

Lemma find_degenerate_triangles_spec m i :
  In i (find_degenerate_triangles m) <->
  exists t, nth_error m i = Some t
            /\ _calculate_triangle_area t < degenerate_area_threshold.
Proof.
  unfold find_degenerate_triangles, enumerate.
  rewrite find_degenerate_fold. rewrite Nat.sub_0_r.
  split.
  - intros [[]|(t & _ & H)]. eauto.
  - intros (t & H). right. exists t. split; [lia|exact H].
Qed.

Lemma coincident_area t : coincident t -> _calculate_triangle_area t = 0.
Proof.
  destruct t as [[a1 a2 a3] [b1 b2 b3] [c1 c2 c3]].
  unfold coincident, _calculate_triangle_area, norm, cross, vsub; simpl.
  intros H.
  match goal with |- _ * sqrt ?e = _ => replace e with 0 end.
  - rewrite sqrt_0. lra.
  - destruct H as [H|[H|H]]; injection H as -> -> ->; ring.
Qed.

Lemma threshold_positive : 0 < degenerate_area_threshold.
Proof. unfold degenerate_area_threshold. lra. Qed.

Lemma validate_mesh_holds m self :
  holds m self -> m <> [] ->
  exists r self' b,
    validate_mesh self = (Ok r, self') /\ holds m self' /\
    compute_bounds m = Ok b /\
    degenerate_triangles r = find_degenerate_triangles m /\
    is_valid r = (match find_degenerate_triangles m with [] => true | _ => false end) /\
    (find_degenerate_triangles m = [] -> issues r = []) /\
    warnings r =
      (if any_dimension_below (dimensions b) 1e-6
       then ["Mesh has very small dimensions in one or more axes"%string] else [])
      ++ (if Rlt_dec (Rabs (signed_volume m)) 1e-10
          then ["Mesh has very small or zero volume"%string] else []).
Proof.
  intros H Hne.
  destruct (get_bounding_box_holds m self H Hne) as (s1 & b & Hbb & Hcb & H1).
  destruct (calculate_volume_holds m s1 H1) as (s2 & Hvol & H2).
  unfold validate_mesh, _ensure_mesh_loaded, vectors. run.
  pose proof (holds_mesh _ _ H) as Hm.
  rewrite Hm; simpl. rewrite Hbb, Hvol; simpl. rewrite Hm.
  eexists _, s2, b. split; [reflexivity|]. simpl.
  split; [exact H2|]. split; [exact Hcb|]. split; [reflexivity|].
  split; [|split].
  - destruct (find_degenerate_triangles m); reflexivity.
  - intros ->. reflexivity.
  - destruct any_dimension_below; destruct Rlt_dec; reflexivity.
Qed.

(** Claim C6.  On an object that holds mesh [m]: a triangle of [m] with two
    coincident vertices has an area below the threshold 1e-10, and
    [validate_mesh] returns a result that lists its index among
    [degenerate_triangles] and has [is_valid = False]; conversely, when [m]
    has at least one triangle and none of them is degenerate,
    [validate_mesh] returns a result with [is_valid = True] and no issue,
    whatever the bounding box and the volume are: small dimensions and a
    small volume only add to [warnings]. *)
Theorem validate_mesh_degenerate_triangles (m : Mesh) (self : STLTools) :
  holds m self ->
  (forall i t, nth_error m i = Some t -> coincident t ->
     _calculate_triangle_area t < degenerate_area_threshold /\
     exists r, outcome validate_mesh self = Ok r
               /\ In i (degenerate_triangles r) /\ is_valid r = false) /\
  (m <> [] -> find_degenerate_triangles m = [] ->
     exists r b, outcome validate_mesh self = Ok r
               /\ is_valid r = true /\ issues r = [] /\ degenerate_triangles r = []
               /\ compute_bounds m = Ok b
               /\ warnings r =
                    (if any_dimension_below (dimensions b) 1e-6
                     then ["Mesh has very small dimensions in one or more axes"%string] else [])
                    ++ (if Rlt_dec (Rabs (signed_volume m)) 1e-10
                        then ["Mesh has very small or zero volume"%string] else [])).
Proof.
  intros H. split.
  - intros i t Hi Hc.
    assert (Ha : _calculate_triangle_area t < degenerate_area_threshold).
    { rewrite (coincident_area t Hc). apply threshold_positive. }
    split; [exact Ha|].
    assert (Hne : m <> []) by (intros ->; destruct i; discriminate).
    destruct (validate_mesh_holds m self H Hne)
      as (r & s' & b & Hrun & _ & _ & Hd & Hv & _).
    assert (Hin : In i (find_degenerate_triangles m)).
    { apply find_degenerate_triangles_spec. eauto. }
    exists r. unfold outcome. rewrite Hrun. simpl. rewrite Hd, Hv.
    repeat split; [assumption|].
    destruct (find_degenerate_triangles m); [destruct Hin|reflexivity].
  - intros Hne Hnone.
    destruct (validate_mesh_holds m self H Hne)
      as (r & s' & b & Hrun & _ & Hb & Hd & Hv & Hi & Hw).
    exists r, b. unfold outcome. rewrite Hrun. simpl.
    rewrite Hd, Hv, Hnone. auto 10.
Qed.

Lemma flat_triangle_not_degenerate : find_degenerate_triangles flat_triangle = [].
Proof.
  cbv [find_degenerate_triangles enumerate flat_triangle combine seq length fold_left
       degenerate_step fst snd].
  destruct Rlt_dec as [Hlt|]; [exfalso|reflexivity].
  revert Hlt.
  cbv [_calculate_triangle_area norm cross vsub vx vy vz v0 v1 v2
       degenerate_area_threshold].
  match goal with |- context [sqrt ?e] => replace e with 1 by lra end.
  rewrite sqrt_1. lra.
Qed.

Lemma validate_mesh_degenerate_triangles_witness :
  (let m := [ Tri (V3 0 0 0) (V3 0 0 0) (V3 1 0 0) ] in
   exists r, outcome validate_mesh (loaded "d.stl" m) = Ok r
             /\ In 0%nat (degenerate_triangles r) /\ is_valid r = false) /\
  (exists r, outcome validate_mesh (loaded "flat.stl" flat_triangle) = Ok r
             /\ is_valid r = true).
Proof.
  split.
  - intros m.
    apply (proj1 (validate_mesh_degenerate_triangles m (loaded "d.stl" m) (loaded_holds _ _))
                 0%nat (Tri (V3 0 0 0) (V3 0 0 0) (V3 1 0 0))).
    + reflexivity.
    + left. reflexivity.
  - destruct (proj2 (validate_mesh_degenerate_triangles flat_triangle
                       (loaded "flat.stl" flat_triangle) (loaded_holds _ _)))
      as (r & b & Hr & Hv & _).
    + discriminate.
    + apply flat_triangle_not_degenerate.
    + exists r. split; [exact Hr|exact Hv].
Defined.

(** *** Mutation *)

(** The object a successful [scale_mesh] or [translate_mesh] leaves: the new
    vertices and no cached value. *)
Lemma scale_mesh_number m self x :
  mesh self = Some m ->
  scale_mesh (Number x) self =
  (Ok true, mkSTLTools (Some (imul m (V3 x x x))) (file_path self) None None None None).
Proof.
  intros Hm. unfold scale_mesh, scale_mesh_try, _ensure_mesh_loaded, _clear_cache, vectors.
  run. rewrite Hm. simpl. rewrite Hm. reflexivity.
Qed.

Lemma scale_mesh_sequence m self l :
  mesh self = Some m -> length l = 3%nat ->
  scale_mesh (Sequence l) self =
  (Ok true, mkSTLTools (Some (imul m (np_array3 l))) (file_path self) None None None None).
Proof.
  intros Hm Hl. unfold scale_mesh, scale_mesh_try, _ensure_mesh_loaded, _clear_cache, vectors.
  run. rewrite Hm. simpl. rewrite Hl. simpl. rewrite Hm. reflexivity.
Qed.

Lemma scale_mesh_wrong_arity m self l :
  mesh self = Some m -> length l <> 3%nat ->
  scale_mesh_try (Sequence l) self =
    (Raise (ValueError "Scale factor must be a single number or list of 3 numbers"), self)
  /\ scale_mesh (Sequence l) self = (Ok false, self).
Proof.
  intros Hm Hl. apply Nat.eqb_neq in Hl.
  unfold scale_mesh, scale_mesh_try, _ensure_mesh_loaded. run.
  rewrite Hm. simpl. rewrite Hl. simpl. split; reflexivity.
Qed.

Lemma translate_mesh_three m self l :
  mesh self = Some m -> length l = 3%nat ->
  translate_mesh l self =
  (Ok true, mkSTLTools (Some (iadd m (np_array3 l))) (file_path self) None None None None).
Proof.
  intros Hm Hl. unfold translate_mesh, translate_mesh_try, _ensure_mesh_loaded, _clear_cache, vectors.
  run. rewrite Hm. simpl. rewrite Hl. simpl. rewrite Hm. reflexivity.
Qed.

Lemma translate_mesh_wrong_arity m self l :
  mesh self = Some m -> length l <> 3%nat ->
  translate_mesh_try l self =
    (Raise (ValueError "Translation must be a list of 3 numbers"), self)
  /\ translate_mesh l self = (Ok false, self).
Proof.
  intros Hm Hl. apply Nat.eqb_neq in Hl.
  unfold translate_mesh, translate_mesh_try, _ensure_mesh_loaded. run.
  rewrite Hm. simpl. rewrite Hl. simpl. split; reflexivity.
Qed.

(** Claim C5.  On an object with a mesh loaded, [scale_mesh] succeeds on a
    number (applied to all three axes) and on a list of exactly three
    numbers (one per axis); on a list of any other length the guarded block
    raises [ValueError], the call reports the failure by returning [False],
    and the object, its vertices included, is left as it was.
    [translate_mesh] succeeds on a list of exactly three numbers and fails
    in the same way on any other length. *)
Theorem scale_translate_arity (m : Mesh) (self : STLTools) :
  mesh self = Some m ->
  (forall x, outcome (scale_mesh (Number x)) self = Ok true
             /\ mesh (after (scale_mesh (Number x)) self) = Some (imul m (V3 x x x))) /\
  (forall l, length l = 3%nat ->
             outcome (scale_mesh (Sequence l)) self = Ok true
             /\ mesh (after (scale_mesh (Sequence l)) self) = Some (imul m (np_array3 l))) /\
  (forall l, length l <> 3%nat ->
             outcome (scale_mesh_try (Sequence l)) self =
               Raise (ValueError "Scale factor must be a single number or list of 3 numbers")
             /\ outcome (scale_mesh (Sequence l)) self = Ok false
             /\ after (scale_mesh (Sequence l)) self = self) /\
  (forall l, length l = 3%nat ->
             outcome (translate_mesh l) self = Ok true
             /\ mesh (after (translate_mesh l) self) = Some (iadd m (np_array3 l))) /\
  (forall l, length l <> 3%nat ->
             outcome (translate_mesh_try l) self =
               Raise (ValueError "Translation must be a list of 3 numbers")
             /\ outcome (translate_mesh l) self = Ok false
             /\ after (translate_mesh l) self = self).
Proof.
  intros Hm. unfold outcome, after. repeat split.
  - rewrite (scale_mesh_number m); auto.
  - rewrite (scale_mesh_number m); auto.
  - rewrite (scale_mesh_sequence m); auto.
  - rewrite (scale_mesh_sequence m); auto.
  - destruct (scale_mesh_wrong_arity m self l Hm H) as [-> _]; reflexivity.
  - destruct (scale_mesh_wrong_arity m self l Hm H) as [_ ->]; reflexivity.
  - destruct (scale_mesh_wrong_arity m self l Hm H) as [_ ->]; reflexivity.
  - rewrite (translate_mesh_three m); auto.
  - rewrite (translate_mesh_three m); auto.
  - destruct (translate_mesh_wrong_arity m self l Hm H) as [-> _]; reflexivity.
  - destruct (translate_mesh_wrong_arity m self l Hm H) as [_ ->]; reflexivity.
  - destruct (translate_mesh_wrong_arity m self l Hm H) as [_ ->]; reflexivity.
Qed.

Lemma scale_translate_arity_witness :
  outcome (scale_mesh (Sequence [2; 3])) (loaded "cube.stl" create_test_cube) = Ok false
  /\ after (scale_mesh (Sequence [2; 3])) (loaded "cube.stl" create_test_cube)
     = loaded "cube.stl" create_test_cube.
Proof.
  pose proof (scale_translate_arity create_test_cube (loaded "cube.stl" create_test_cube)
                eq_refl) as (_ & _ & H & _).
  refine (let H' := H [2; 3] _ in conj (proj1 (proj2 H')) (proj2 (proj2 H'))).
  simpl. lia.
Defined.

(** Scaling laws of the signed volume and of the area. *)
Lemma signed_volume_imul m s : 
  signed_volume (imul m (V3 s s s)) = s ^ 3 * signed_volume m.
Proof.
  unfold signed_volume.
  assert (G : forall acc,
    fold_left (fun volume tri => volume + dot (v0 tri) (cross (v1 tri) (v2 tri)) / 6)
              (imul m (V3 s s s)) (s ^ 3 * acc) =
    s ^ 3 * fold_left (fun volume tri => volume + dot (v0 tri) (cross (v1 tri) (v2 tri)) / 6)
              m acc).
  { induction m as [|t m IH]; intros acc; simpl; [reflexivity|].
    rewrite <- IH. f_equal. unfold dot, cross, vmul; simpl. field. }
  rewrite <- G. f_equal. ring.
Qed.














(** *** The test cube *)

Ltac sqrt_ones :=
  repeat match goal with
  | |- context [sqrt ?e] =>
      tryif constr_eq e 1 then fail else replace e with 1 by lra
  end;
  rewrite ?sqrt_1.

Lemma cube_area : total_area create_test_cube = 6.
Proof.
  unfold total_area, create_test_cube, _calculate_triangle_area, norm, cross, vsub. simpl.
  sqrt_ones. lra.
Qed.

Lemma cube_volume : Rabs (signed_volume create_test_cube) = 1.
Proof.
  unfold signed_volume, create_test_cube, dot, cross. simpl.
  match goal with |- Rabs ?e = _ =>
    first [ replace e with (-1) by lra | replace e with 1 by lra ] end;
  unfold Rabs; destruct Rcase_abs; lra.
Qed.

Lemma Rmin_00 : Rmin 0 0 = 0. Proof. apply Rmin_left; lra. Qed.
Lemma Rmin_01 : Rmin 0 1 = 0. Proof. apply Rmin_left; lra. Qed.
Lemma Rmin_10 : Rmin 1 0 = 0. Proof. apply Rmin_right; lra. Qed.
Lemma Rmin_11 : Rmin 1 1 = 1. Proof. apply Rmin_left; lra. Qed.
Lemma Rmax_00 : Rmax 0 0 = 0. Proof. apply Rmax_left; lra. Qed.
Lemma Rmax_01 : Rmax 0 1 = 1. Proof. apply Rmax_right; lra. Qed.
Lemma Rmax_10 : Rmax 1 0 = 1. Proof. apply Rmax_left; lra. Qed.
Lemma Rmax_11 : Rmax 1 1 = 1. Proof. apply Rmax_left; lra. Qed.

Lemma cube_bounds :
  compute_bounds create_test_cube
  = Ok (mkBounds (V3 0 0 0) (V3 1 1 1) (vsub (V3 1 1 1) (V3 0 0 0))).
Proof.
  cbv [compute_bounds create_test_cube reshape_vertices flat_map map nth cube_faces
       cube_vertices np_min_axis0 np_max_axis0 fold_left app vx vy vz v0 v1 v2].
  repeat first [ rewrite Rmin_00 | rewrite Rmin_01 | rewrite Rmin_10 | rewrite Rmin_11
               | rewrite Rmax_00 | rewrite Rmax_01 | rewrite Rmax_10 | rewrite Rmax_11 ].
  reflexivity.
Qed.

Lemma cube_center :
  np_mean_axis0 (reshape_vertices create_test_cube) = V3 0.5 0.5 0.5.
Proof.
  cbv [np_mean_axis0 create_test_cube reshape_vertices flat_map map nth cube_faces
       cube_vertices fold_left app vadd vx vy vz v0 v1 v2 length INR].
  f_equal; lra.
Qed.

Lemma cube_aspect_ratio :
  _calculate_aspect_ratio (vsub (V3 1 1 1) (V3 0 0 0)) = Some 1.
Proof.
  destruct (aspect_ratio_by_extremes (vsub (V3 1 1 1) (V3 0 0 0)))
    as (_ & _ & Hlo & Hhi & ->).
  rewrite Hlo, Hhi. cbv [smallest largest aspect_ratio_epsilon vsub vx vy vz].
  replace (1 - 0) with 1 by lra.
  rewrite Rmin_11, Rmin_11, Rmax_11, Rmax_11.
  destruct Rle_dec; [lra|]. f_equal. lra.
Qed.

(** *** Statistics *)

Lemma distribution_cons x l : exists d, distribution (x :: l) = Ok d.
Proof. unfold distribution, py_min, py_max. eexists; reflexivity. Qed.

Lemma get_mesh_statistics_holds m self :
  holds m self -> m <> [] ->
  exists stats self' b,
    get_mesh_statistics self = (Ok stats, self') /\ holds m self' /\
    compute_bounds m = Ok b /\
    triangle_count stats = length m /\
    vertex_count stats = (length m * 3)%nat /\
    surface_area stats = total_area m /\
    volume stats = Rabs (signed_volume m) /\
    center_of_mass stats = tolist (np_mean_axis0 (reshape_vertices m)) /\
    bounding_box stats = b /\
    aspect_ratio stats = _calculate_aspect_ratio (dimensions b) /\
    surface_area_to_volume_ratio stats =
      (if Rgt_dec (Rabs (signed_volume m)) 0
       then Some (total_area m / Rabs (signed_volume m)) else None).
Proof.
  intros H Hne.
  destruct (get_bounding_box_holds m self H Hne) as (s1 & b & E1 & Hcb & H1).
  destruct (get_center_of_mass_holds m s1 H1) as (s2 & E2 & H2).
  destruct (calculate_surface_area_holds m s2 H2) as (s3 & E3 & H3).
  destruct (calculate_volume_holds m s3 H3) as (s4 & E4 & H4).
  pose proof (holds_mesh _ _ H) as Hm. pose proof (holds_mesh _ _ H4) as Hm4.
  destruct m as [|t m']; [congruence|].
  destruct (distribution_cons (_calculate_triangle_area t)
              (map _calculate_triangle_area m')) as (da & Hda).
  destruct (distribution_cons (norm (vsub (v1 t) (v0 t)))
              (norm (vsub (v2 t) (v1 t)) :: norm (vsub (v0 t) (v2 t))
                 :: flat_map triangle_edges m')) as (de & Hde).
  unfold get_mesh_statistics, _ensure_mesh_loaded, vectors.
  unfold bind, ret, raise, get, lift.
  rewrite Hm, E1, E2, E3, E4, Hm4.
  cbn [map flat_map triangle_edges app]. rewrite Hda, Hde.
  eexists _, s4, b. split; [reflexivity|]. cbn.
  split; [exact H4|]. split; [exact Hcb|]. repeat split; reflexivity.
Qed.

(** Claim C1.  For the unit cube of [create_test_cube] (12 triangles, side
    1), loaded from any path, [get_mesh_statistics] reports 12 triangles, 36
    vertices, surface area 6, volume 1, centre of mass [0.5, 0.5, 0.5] and
    aspect ratio 1; [calculate_surface_area], [calculate_volume] and
    [get_center_of_mass] return the same values. *)
Theorem unit_cube_statistics (path : string) :
  let cube := loaded path create_test_cube in
  (exists stats,
     outcome get_mesh_statistics cube = Ok stats /\
     triangle_count stats = 12%nat /\
     vertex_count stats = 36%nat /\
     surface_area stats = 6 /\
     volume stats = 1 /\
     center_of_mass stats = [0.5; 0.5; 0.5] /\
     aspect_ratio stats = Some 1) /\
  outcome calculate_surface_area cube = Ok 6 /\
  outcome calculate_volume cube = Ok 1 /\
  outcome get_center_of_mass cube = Ok (V3 0.5 0.5 0.5).
Proof.
  intros cube.
  pose proof (loaded_holds path create_test_cube) as H. fold cube in H.
  assert (Hne : create_test_cube <> []) by discriminate.
  split; [|split; [|split]].
  - destruct (get_mesh_statistics_holds _ _ H Hne)
      as (stats & s' & b & E & _ & Hb & Htc & Hvc & Hsa & Hv & Hc & _ & Har & _).
    exists stats. unfold outcome. rewrite E. split; [reflexivity|].
    rewrite Htc, Hvc, Hsa, Hv, Hc, Har.
    rewrite cube_bounds in Hb. injection Hb as <-.
    rewrite cube_area, cube_volume, cube_center.
    cbn [dimensions]. rewrite cube_aspect_ratio. repeat split; reflexivity.
  - unfold outcome. destruct (calculate_surface_area_holds _ _ H) as (? & -> & _).
    cbn [fst]. rewrite cube_area. reflexivity.
  - unfold outcome. destruct (calculate_volume_holds _ _ H) as (? & -> & _).
    cbn [fst]. rewrite cube_volume. reflexivity.
  - unfold outcome. destruct (get_center_of_mass_holds _ _ H) as (? & -> & _).
    cbn [fst]. rewrite cube_center. reflexivity.
Qed.

(** *** Resin cost *)

Lemma estimate_resin_cost_mm3 m self d p :
  holds m self ->
  let V := Rabs (signed_volume m) in
  outcome (estimate_resin_cost d p "mm3") self =
  Ok (mkResinCost V (V / 1000.0) (V / 1000.0 * d) (V / 1000.0 * d / 1000.0)
                  (V / 1000.0 * d / 1000.0 * p)).
Proof.
  intros H V. destruct (calculate_volume_holds m self H) as (s1 & E1 & _).
  unfold outcome, estimate_resin_cost, _ensure_mesh_loaded.
  unfold bind, ret, raise, get.
  rewrite (holds_mesh _ _ H), E1. reflexivity.
Qed.

Lemma estimate_resin_cost_bad_unit m self d p unit :
  holds m self -> unit <> "mm3"%string -> unit <> "cm3"%string ->
  outcome (estimate_resin_cost d p unit) self =
  Raise (ValueError "volume_unit must be 'mm3' or 'cm3'").
Proof.
  intros H U1 U2. destruct (calculate_volume_holds m self H) as (s1 & E1 & _).
  unfold outcome, estimate_resin_cost, _ensure_mesh_loaded.
  unfold bind, ret, raise, get.
  rewrite (holds_mesh _ _ H), E1.
  apply String.eqb_neq in U1, U2. rewrite U1, U2. reflexivity.
Qed.

Lemma ResinCostRequest_accepts d p :
  ResinCostRequest d p = Ok (d, p) <-> d > 0 /\ p > 0.
Proof.
  unfold ResinCostRequest.
  destruct (Rgt_dec d 0); destruct (Rgt_dec p 0); split;
    try (intros; discriminate); try tauto; intros [? ?]; contradiction.
Qed.

(** Claim C4, amended.  On an object that holds mesh [m] of volume [V],
    [estimate_resin_cost] with unit 'mm3' returns, for every density and
    price (also non-positive ones: it checks neither),
    [volume_cm3 = V/1000], [mass_g = volume_cm3 * density] and
    [cost = (mass_g/1000) * price], so that V = 1000, density 1.1 and price
    50 give volume 1, mass 1.1 and cost 0.055; it raises [ValueError] only
    for a unit other than 'mm3' and 'cm3'.  A density or price that is not
    positive is rejected before the call, by the request model
    [ResinCostRequest], which accepts exactly the positive values. *)
Theorem resin_cost_formula (m : Mesh) (self : STLTools) (d p : R) :
  holds m self ->
  let V := Rabs (signed_volume m) in
  (exists r,
     outcome (estimate_resin_cost d p "mm3") self = Ok r /\
     volume_mm3 r = V /\
     volume_cm3 r = V / 1000 /\
     mass_g r = volume_cm3 r * d /\
     cost r = (mass_g r / 1000) * p /\
     (V = 1000 -> d = 1.1 -> p = 50 ->
      volume_cm3 r = 1 /\ mass_g r = 1.1 /\ cost r = 0.055)) /\
  (forall unit, unit <> "mm3"%string -> unit <> "cm3"%string ->
     outcome (estimate_resin_cost d p unit) self =
     Raise (ValueError "volume_unit must be 'mm3' or 'cm3'")) /\
  (ResinCostRequest d p = Ok (d, p) <-> d > 0 /\ p > 0) /\
  (d <= 0 \/ p <= 0 -> fails (ResinCostRequest d p)).
Proof.
  intros H V. split; [|split; [|split]].
  - eexists. split; [apply (estimate_resin_cost_mm3 m self d p H)|].
    cbn [volume_mm3 volume_cm3 mass_g cost]. fold V.
    replace 1000.0 with 1000 by lra.
    split; [reflexivity|]. split; [reflexivity|]. split; [reflexivity|].
    split; [reflexivity|]. intros HV -> ->. rewrite HV. repeat split; lra.
  - intros unit U1 U2. apply (estimate_resin_cost_bad_unit m); assumption.
  - apply ResinCostRequest_accepts.
  - intros Hdp. unfold fails, ResinCostRequest.
    destruct (Rgt_dec d 0); [destruct (Rgt_dec p 0)|]; eauto.
    destruct Hdp; lra.
Qed.

Lemma scaled_cube_volume :
  Rabs (signed_volume (imul create_test_cube (V3 10 10 10))) = 1000.
Proof.
  rewrite signed_volume_imul, Rabs_mult, cube_volume.
  rewrite Rabs_right; lra.
Qed.

Lemma resin_cost_formula_witness :
  exists r,
    outcome (estimate_resin_cost 1.1 50 "mm3")
            (loaded "cube10.stl" (imul create_test_cube (V3 10 10 10))) = Ok r /\
    volume_cm3 r = 1 /\ mass_g r = 1.1 /\ cost r = 0.055.
Proof.
  destruct (resin_cost_formula (imul create_test_cube (V3 10 10 10))
              (loaded "cube10.stl" (imul create_test_cube (V3 10 10 10))) 1.1 50
              (loaded_holds _ _)) as ((r & Hr & _ & _ & _ & _ & Hs) & _).
  exists r. split; [exact Hr|].
  apply Hs; [apply scaled_cube_volume|reflexivity|reflexivity].
Defined.

(** Claim C4 as stated fails: on the test cube, [estimate_resin_cost] with
    density -1.1 does not fail. *)
Lemma resin_cost_accepts_negative_density :
  ~ fails (outcome (estimate_resin_cost (-1.1) 50 "mm3")
                   (loaded "cube.stl" create_test_cube)).
Proof.
  rewrite (estimate_resin_cost_mm3 create_test_cube _ _ _ (loaded_holds _ _)).
  intros [e He]. discriminate.
Qed.

(** *** Coverage efficiency *)

Lemma py_min2_Rmin a b : py_min2 a b = Rmin a b.
Proof. unfold py_min2, Rmin. destruct Rlt_dec; destruct Rle_dec; lra. Qed.

Lemma py_max2_Rmax a b : py_max2 a b = Rmax a b.
Proof. unfold py_max2, Rmax. destruct Rgt_dec; destruct Rle_dec; lra. Qed.

Lemma _calculate_coverage_efficiency_holds m self :
  holds m self -> m <> [] ->
  exists self' b,
    compute_bounds m = Ok b /\ holds m self' /\
    _calculate_coverage_efficiency self =
    (Ok (coverage_value (_calculate_aspect_ratio (dimensions b))
                        (total_area m) (Rabs (signed_volume m))), self').
Proof.
  intros H Hne.
  destruct (get_bounding_box_holds m self H Hne) as (s1 & b & E1 & Hcb & H1).
  destruct (calculate_volume_holds m s1 H1) as (s2 & E2 & H2).
  destruct (calculate_surface_area_holds m s2 H2) as (s3 & E3 & H3).
  destruct (calculate_volume_holds m s3 H3) as (s4 & E4 & H4).
  unfold _calculate_coverage_efficiency, _ensure_mesh_loaded, coverage_value.
  unfold bind, ret, raise, get.
  rewrite (holds_mesh _ _ H), E1, E2. cbv beta iota.
  destruct (Rgt_dec (Rabs (signed_volume m)) 0).
  - rewrite E3, E4. cbv beta iota.
    exists s4, b. split; [exact Hcb|]. split; [exact H4|].
    rewrite !py_min2_Rmin, !py_max2_Rmax.
    f_equal. f_equal. f_equal.
    replace 1.0 with 1 by lra. replace 10.0 with 10 by lra. ring.
  - exists s2, b. split; [exact Hcb|]. split; [exact H2|].
    rewrite !py_min2_Rmin, !py_max2_Rmax.
    f_equal. f_equal. f_equal.
    replace 1.0 with 1 by lra. replace 10.0 with 10 by lra. ring.
Qed.







(** *** The flat triangle *)









End MeshFacts.

(** * Properties of the session manager *)

Module SessionFacts.
Import Session.
Local Open Scope Z_scope.

Lemma filter_all_false {A} (f : A -> bool) (l : list A) :
  (forall x, In x l -> f x = false) -> List.filter f l = [].
Proof.
  induction l as [|x l IH]; intros H; simpl; [reflexivity|].
  rewrite (H x) by (left; reflexivity). apply IH. intros y Hy. apply H. right. exact Hy.
Qed.

Lemma expired_sessions_none (current_time : Z) (m : SessionManager) :
  (forall sid s, sessions m !! sid = Some s ->
                 current_time - last_accessed s <= session_timeout m) ->
  expired_sessions current_time m = [].
Proof.
  intros H. unfold expired_sessions. rewrite filter_all_false; [reflexivity|].
  intros [sid s] Hin. apply list_elem_of_In, elem_of_map_to_list in Hin.
  apply Z.ltb_ge. simpl. eauto.
Qed.

Lemma cleanup_expired_sessions_none (current_time : Z) (w : World) :
  (forall sid s, sessions (mgr w) !! sid = Some s ->
                 current_time - last_accessed s <= session_timeout (mgr w)) ->
  cleanup_expired_sessions current_time w = (Ok 0%nat, w).
Proof.
  intros H. unfold cleanup_expired_sessions, bind, get, ret.
  rewrite (expired_sessions_none _ _ H). reflexivity.
Qed.


(** The world [create_session] leaves when the store is below capacity. *)
Lemma create_session_below time_time datetime_now uuid4 content name (w : World) :
  Z.of_nat (size (sessions (mgr w))) < max_sessions (mgr w) ->
  let session_dir := os_path_join (upload_dir (mgr w)) uuid4 in
  let path := os_path_join session_dir name in
  create_session time_time datetime_now uuid4 content name w =
  (Ok (uuid4, path),
   mkWorld (set_sessions
              (<[ uuid4 := mkSessionInfo name path (length content)
                                         datetime_now datetime_now session_dir ]>
                 (sessions (mgr w))) (mgr w))
           (heap w)
           (write_file path content (os_makedirs session_dir (fs w)))).
Proof.
  intros Hlt. unfold create_session, bind, get, ret, raise, on_fs, on_mgr, modify.
  assert (G : (Z.of_nat (size (sessions (mgr w))) >=? max_sessions (mgr w)) = false)
    by (rewrite Z.geb_leb; apply Z.leb_gt; lia).
  rewrite G. reflexivity.
Qed.

(** What a successful [delete_session] has done. *)
Lemma delete_session_true session_id (w : World) :
  outcome (delete_session session_id) w = Ok true ->
  exists session,
    sessions (mgr w) !! session_id = Some session /\
    after (delete_session session_id) w =
    mkWorld (without_session session_id (mgr w)) (heap w)
            (if os_path_exists (session_dir session) (fs w)
             then remove_tree (session_dir session) (fs w) else fs w).
Proof.
  unfold outcome, after, delete_session, bind, get, ret, try_except, on_mgr, on_fs,
    cache_clear, modify, lift, shutil_rmtree.
  destruct (sessions (mgr w) !! session_id) as [session|] eqn:E; [|discriminate].
  cbn. destruct (os_path_exists (session_dir session) (fs w)) eqn:Ex; cbn; rewrite ?Ex.
  - destruct (bool_decide (session_dir session ∈ undeletable (fs w))); cbn.
    + discriminate.
    + intros _. exists session. rewrite Ex. split; reflexivity.
  - intros _. exists session. rewrite Ex. split; reflexivity.
Qed.

Lemma delete_session_absent session_id (w : World) :
  sessions (mgr w) !! session_id = None ->
  delete_session session_id w = (Ok false, w).
Proof.
  intros E. unfold delete_session, bind, get, ret. rewrite E. reflexivity.
Qed.




(** *** Paths of plain names *)

Lemma prefix_cons (a b : Ascii.ascii) (x y : string) :
  String.prefix (String a x) (String b y) =
  if Ascii.ascii_dec a b then String.prefix x y else false.
Proof. reflexivity. Qed.

Lemma append_cons (c : Ascii.ascii) (u x : string) :
  String c u +:+ x = String c (u +:+ x).
Proof. reflexivity. Qed.

Lemma append_nil (x : string) : EmptyString +:+ x = x.
Proof. reflexivity. Qed.

Lemma append_assoc (x y z : string) : (x +:+ y) +:+ z = x +:+ y +:+ z.
Proof. induction x as [|c x IH]; [reflexivity|]. rewrite !append_cons, IH. reflexivity. Qed.

Lemma prefix_app (u x y : string) : String.prefix (u +:+ x) (u +:+ y) = String.prefix x y.
Proof.
  induction u as [|c u IH]; [reflexivity|].
  rewrite !append_cons, prefix_cons.
  destruct (Ascii.ascii_dec c c); [exact IH|congruence].
Qed.

Lemma eqb_app (u x y : string) : String.eqb (u +:+ x) (u +:+ y) = String.eqb x y.
Proof.
  induction u as [|c u IH]; simpl; [reflexivity|].
  rewrite Ascii.eqb_refl. exact IH.
Qed.

Lemma contains_sep_app (x y : string) :
  contains_sep (x +:+ y) = orb (contains_sep x) (contains_sep y).
Proof.
  induction x as [|c x IH]; simpl; [reflexivity|].
  rewrite IH. apply orb_assoc.
Qed.

Lemma plain_not_absolute (p : string) : contains_sep p = false -> startswith_sep p = false.
Proof.
  destruct p as [|c p]; simpl; [reflexivity|].
  intros H. apply orb_false_iff in H as [H _].
  unfold startswith_sep. change "/"%string with (String sep EmptyString).
  rewrite prefix_cons.
  destruct (Ascii.ascii_dec sep c) as [<-|]; [|reflexivity].
  rewrite Ascii.eqb_refl in H. discriminate.
Qed.

Lemma plain_no_trailing_sep (u p : string) :
  p <> EmptyString -> contains_sep p = false -> endswith_sep (u +:+ p) = false.
Proof.
  intros Hne Hp. induction u as [|c u IH]; simpl.
  - clear Hne. induction p as [|c p IH]; [reflexivity|].
    simpl in Hp. apply orb_false_iff in Hp as [Hc Hp].
    simpl. destruct p; [exact Hc|]. apply IH. exact Hp.
  - destruct (u +:+ p) eqn:E; [|exact IH].
    destruct u; [|discriminate]. simpl in E. contradiction.
Qed.

Lemma prefix_plain (a b rest : string) :
  contains_sep a = false -> contains_sep b = false ->
  String.prefix (a +:+ "/") (b +:+ "/" +:+ rest) = true -> a = b.
Proof.
  change "/"%string with (String sep EmptyString).
  revert b. induction a as [|c a IH]; intros [|c' b] Ha Hb;
    rewrite ?append_nil, ?append_cons, ?append_nil, ?prefix_cons.
  - reflexivity.
  - cbn [contains_sep] in Hb. apply orb_false_iff in Hb as [Hc _].
    destruct (Ascii.ascii_dec sep c') as [<-|]; [|intros H; cbv beta iota in H; discriminate H].
    rewrite Ascii.eqb_refl in Hc. discriminate.
  - cbn [contains_sep] in Ha. apply orb_false_iff in Ha as [Hc _].
    destruct (Ascii.ascii_dec c sep) as [->|]; [|intros H; cbv beta iota in H; discriminate H].
    rewrite Ascii.eqb_refl in Hc. discriminate.
  - cbn [contains_sep] in Ha, Hb.
    apply orb_false_iff in Ha as [_ Ha]. apply orb_false_iff in Hb as [_ Hb].
    destruct (Ascii.ascii_dec c c') as [->|]; [|intros H; cbv beta iota in H; discriminate H].
    intros H. f_equal. apply IH; assumption.
Qed.

(** The session directory of a plain identifier, and a plain file name in it. *)
Lemma os_path_join_plain (up p : string) :
  contains_sep p = false ->
  exists pre, forall q, contains_sep q = false -> os_path_join up q = pre +:+ q.
Proof.
  intros _. unfold os_path_join.
  destruct (orb (String.eqb up "") (endswith_sep up)) eqn:E.
  - exists up. intros q Hq. rewrite (plain_not_absolute q Hq). reflexivity.
  - exists (up +:+ "/"). intros q Hq. rewrite (plain_not_absolute q Hq).
    symmetry. apply append_assoc.
Qed.

Lemma plain_names_isolated (up a b name : string) :
  plain a -> plain b -> plain name -> a <> b ->
  inside (os_path_join up a) (os_path_join (os_path_join up b) name) = false.
Proof.
  intros [Hane Ha] [Hbne Hb] [Hnne Hn] Hab.
  destruct (os_path_join_plain up a Ha) as (pre & Hpre).
  rewrite (Hpre a Ha), (Hpre b Hb).
  unfold os_path_join at 1. rewrite (plain_not_absolute name Hn).
  rewrite (plain_no_trailing_sep pre b Hbne Hb), orb_false_r.
  assert (Hne : String.eqb (pre +:+ b) "" = false).
  { apply String.eqb_neq. destruct pre; simpl; [assumption|discriminate]. }
  rewrite Hne. unfold inside.
  rewrite !append_assoc. rewrite eqb_app, prefix_app.
  apply orb_false_iff. split.
  - apply String.eqb_neq. intros E.
    assert (Hc : contains_sep a = true).
    { rewrite E, !contains_sep_app. change "/"%string with (String sep EmptyString).
      cbn [contains_sep]. rewrite Ascii.eqb_refl.
      rewrite orb_true_r. reflexivity. }
    congruence.
  - destruct (String.prefix (a +:+ "/") (b +:+ "/" +:+ name)) eqn:E; [|reflexivity].
    exfalso. apply Hab. apply (prefix_plain a b name); assumption.
Qed.

(** What [delete_session] leaves alone. *)
Lemma delete_session_frame (from_file : list Byte.byte -> option STL.Mesh)
    (w : World) (a b : string) (session_b : SessionInfo) (r : ref) :
  a <> b ->
  sessions (mgr w) !! b = Some session_b ->
  stl_instances (mgr w) !! b = Some r ->
  outcome (delete_session a) w = Ok true ->
  let w' := after (delete_session a) w in
  sessions (mgr w') !! a = None /\
  stl_instances (mgr w') !! a = None /\
  sessions (mgr w') !! b = Some session_b /\
  stl_instances (mgr w') !! b = Some r /\
  heap w' = heap w /\
  outcome (get_stl_tools from_file b) w' = Ok (Some r) /\
  (forall session_a,
     sessions (mgr w) !! a = Some session_a ->
     inside (session_dir session_a) (file_path session_b) = false ->
     files (fs w') !! file_path session_b = files (fs w) !! file_path session_b).
Proof.
  intros Hab Hb Hr Hdel.
  destruct (delete_session_true _ _ Hdel) as (session_a & Ha & Hafter).
  cbv zeta. rewrite Hafter. cbn.
  rewrite !lookup_delete_eq, !lookup_delete_ne by assumption.
  repeat split; try assumption.
  - unfold outcome, get_stl_tools, bind, get, ret, on_mgr, modify. cbn.
    rewrite !lookup_delete_ne by assumption. rewrite Hb, Hr. reflexivity.
  - intros session_a' Ha' Hout. rewrite Ha in Ha'. injection Ha' as <-.
    destruct (os_path_exists (session_dir session_a) (fs w)); [|reflexivity].
    cbn. rewrite map_lookup_filter.
    destruct (files (fs w) !! file_path session_b) as [bytes|]; [|reflexivity].
    cbn. rewrite option_guard_True by exact Hout. reflexivity.
Qed.

(** With plain identifiers and a plain file name, the file of one session
    survives the removal of another. *)
Lemma delete_session_keeps_plain_file (w : World) (a b : string)
    (session_a session_b : SessionInfo) :
  a <> b -> plain a -> plain b -> plain (filename session_b) ->
  sessions (mgr w) !! a = Some session_a ->
  session_dir session_a = os_path_join (upload_dir (mgr w)) a ->
  file_path session_b =
    os_path_join (os_path_join (upload_dir (mgr w)) b) (filename session_b) ->
  outcome (delete_session a) w = Ok true ->
  files (fs (after (delete_session a) w)) !! file_path session_b
  = files (fs w) !! file_path session_b.
Proof.
  intros Hab Ha Hb Hn Hsa Hdir Hpath Hdel.
  destruct (delete_session_true _ _ Hdel) as (session_a' & Ha' & Hafter).
  rewrite Hsa in Ha'. injection Ha' as <-.
  rewrite Hafter. cbn.
  destruct (os_path_exists (session_dir session_a) (fs w)); [|reflexivity].
  cbn. rewrite map_lookup_filter.
  destruct (files (fs w) !! file_path session_b) as [bytes|]; [|reflexivity].
  cbn. rewrite option_guard_True; [reflexivity|].
  cbn. rewrite Hdir, Hpath. apply plain_names_isolated; assumption.
Qed.

(** Claim C10, evaluated on the store of two sessions [example_store], in
    which the file of session "b" lies in the directory of session "a":
    [delete_session("a")] succeeds and leaves the record of "b" and its
    materialised instance in place, and [get_stl_tools("b")] still returns
    that instance, but the bytes stored for "b" are gone. *)
Theorem delete_session_removes_foreign_file :
  let w := example_store example_parser in
  let w' := after (delete_session "a") w in
  sessions (mgr w) !! "b"%string =
    Some (mkSessionInfo "/up/a/b.stl" "/up/a/b.stl" 3 0 0 "/up/b") /\
  stl_instances (mgr w) !! "b"%string = Some 0%nat /\
  files (fs w) !! "/up/a/b.stl"%string = Some example_content /\
  outcome (delete_session "a") w = Ok true /\
  sessions (mgr w') !! "b"%string = sessions (mgr w) !! "b"%string /\
  stl_instances (mgr w') !! "b"%string = Some 0%nat /\
  outcome (get_stl_tools example_parser "b") w' = Ok (Some 0%nat) /\
  files (fs w') !! "/up/a/b.stl"%string = None.
Proof. vm_compute. repeat split; reflexivity. Qed.
End SessionFacts.

(** * Further properties of the mesh property engine *)

Module MeshLaws.
Import STL MeshFacts.
Local Open Scope R_scope.


Ltac unloaded H :=
  cbv [bind ret raise get try_except _ensure_mesh_loaded]; rewrite H; reflexivity.



(** *** Bounding box *)

Lemma fold_Rmin_lower (l : list R) : forall a,
  fold_left Rmin l a <= a /\ (forall x, In x l -> fold_left Rmin l a <= x).
Proof.
  induction l as [|y l IH]; intros a; simpl.
  - split; [lra|]. intros x [].
  - destruct (IH (Rmin a y)) as [H1 H2]. split.
    + pose proof (Rmin_l a y). lra.
    + intros x [<-|Hx]; [|auto]. pose proof (Rmin_r a y). lra.
Qed.

Lemma fold_Rmax_upper (l : list R) : forall a,
  a <= fold_left Rmax l a /\ (forall x, In x l -> x <= fold_left Rmax l a).
Proof.
  induction l as [|y l IH]; intros a; simpl.
  - split; [lra|]. intros x [].
  - destruct (IH (Rmax a y)) as [H1 H2]. split.
    + pose proof (Rmax_l a y). lra.
    + intros x [<-|Hx]; [|auto]. pose proof (Rmax_r a y). lra.
Qed.

Lemma fold_Rmin_attained (l : list R) : forall a,
  fold_left Rmin l a = a \/ In (fold_left Rmin l a) l.
Proof.
  induction l as [|y l IH]; intros a; simpl; [auto|].
  destruct (IH (Rmin a y)) as [H|H]; [|auto].
  rewrite H. unfold Rmin. destruct Rle_dec; auto.
Qed.

Lemma fold_Rmax_attained (l : list R) : forall a,
  fold_left Rmax l a = a \/ In (fold_left Rmax l a) l.
Proof.
  induction l as [|y l IH]; intros a; simpl; [auto|].
  destruct (IH (Rmax a y)) as [H|H]; [|auto].
  rewrite H. unfold Rmax. destruct Rle_dec; auto.
Qed.


Lemma fold_min_step (vs : list vec3) : forall v,
  fold_left min_step vs v =
  V3 (fold_left Rmin (map vx vs) (vx v)) (fold_left Rmin (map vy vs) (vy v))
     (fold_left Rmin (map vz vs) (vz v)).
Proof.
  induction vs as [|w vs IH]; intros [a b c]; simpl; [reflexivity|].
  rewrite IH. reflexivity.
Qed.

Lemma fold_max_step (vs : list vec3) : forall v,
  fold_left max_step vs v =
  V3 (fold_left Rmax (map vx vs) (vx v)) (fold_left Rmax (map vy vs) (vy v))
     (fold_left Rmax (map vz vs) (vz v)).
Proof.
  induction vs as [|w vs IH]; intros [a b c]; simpl; [reflexivity|].
  rewrite IH. reflexivity.
Qed.

(** The bounds of a non-empty list of vertices. *)
Lemma np_min_axis0_spec (v : vec3) (vs : list vec3) :
  exists lo, np_min_axis0 (v :: vs) = Ok lo /\
    (forall w, In w (v :: vs) -> vle lo w) /\
    (exists w, In w (v :: vs) /\ vx w = vx lo) /\
    (exists w, In w (v :: vs) /\ vy w = vy lo) /\
    (exists w, In w (v :: vs) /\ vz w = vz lo).
Proof.
  unfold np_min_axis0. change (fun acc w => _) with min_step.
  rewrite fold_min_step. eexists. split; [reflexivity|]. cbn [vx vy vz].
  assert (A : forall (f : vec3 -> R),
             (forall w, In w (v :: vs) -> fold_left Rmin (map f vs) (f v) <= f w) /\
             (exists w, In w (v :: vs) /\ f w = fold_left Rmin (map f vs) (f v))).
  { intros f. destruct (fold_Rmin_lower (map f vs) (f v)) as [H1 H2]. split.
    - intros w [<-|Hw]; [exact H1|]. apply H2, in_map, Hw.
    - destruct (fold_Rmin_attained (map f vs) (f v)) as [H|H].
      + exists v. split; [left; reflexivity|]. symmetry. exact H.
      + apply in_map_iff in H as (w & Hw & Hin). exists w. split; [right; exact Hin|exact Hw]. }
  destruct (A vx) as [X1 X2], (A vy) as [Y1 Y2], (A vz) as [Z1 Z2].
  split; [|auto]. intros w Hw. unfold vle; cbn [vx vy vz]. auto.
Qed.

Lemma np_max_axis0_spec (v : vec3) (vs : list vec3) :
  exists hi, np_max_axis0 (v :: vs) = Ok hi /\
    (forall w, In w (v :: vs) -> vle w hi) /\
    (exists w, In w (v :: vs) /\ vx w = vx hi) /\
    (exists w, In w (v :: vs) /\ vy w = vy hi) /\
    (exists w, In w (v :: vs) /\ vz w = vz hi).
Proof.
  unfold np_max_axis0. change (fun acc w => _) with max_step.
  rewrite fold_max_step. eexists. split; [reflexivity|]. cbn [vx vy vz].
  assert (A : forall (f : vec3 -> R),
             (forall w, In w (v :: vs) -> f w <= fold_left Rmax (map f vs) (f v)) /\
             (exists w, In w (v :: vs) /\ f w = fold_left Rmax (map f vs) (f v))).
  { intros f. destruct (fold_Rmax_upper (map f vs) (f v)) as [H1 H2]. split.
    - intros w [<-|Hw]; [exact H1|]. apply H2, in_map, Hw.
    - destruct (fold_Rmax_attained (map f vs) (f v)) as [H|H].
      + exists v. split; [left; reflexivity|]. symmetry. exact H.
      + apply in_map_iff in H as (w & Hw & Hin). exists w. split; [right; exact Hin|exact Hw]. }
  destruct (A vx) as [X1 X2], (A vy) as [Y1 Y2], (A vz) as [Z1 Z2].
  split; [|auto]. intros w Hw. unfold vle; cbn [vx vy vz]. auto.
Qed.

Lemma compute_bounds_spec (m : Mesh) :
  m <> [] ->
  exists b, compute_bounds m = Ok b /\
    dimensions b = vsub (bmax b) (bmin b) /\
    (forall v, vertex_of m v -> vle (bmin b) v /\ vle v (bmax b)) /\
    (exists v, vertex_of m v /\ vx v = vx (bmin b)) /\
    (exists v, vertex_of m v /\ vy v = vy (bmin b)) /\
    (exists v, vertex_of m v /\ vz v = vz (bmin b)) /\
    (exists v, vertex_of m v /\ vx v = vx (bmax b)) /\
    (exists v, vertex_of m v /\ vy v = vy (bmax b)) /\
    (exists v, vertex_of m v /\ vz v = vz (bmax b)) /\
    vle (V3 0 0 0) (dimensions b).
Proof.
  destruct m as [|t m]; [congruence|]. intros _.
  unfold compute_bounds, vertex_of.
  cbn [reshape_vertices flat_map app].
  destruct (np_min_axis0_spec (v0 t) (v1 t :: v2 t :: flat_map (fun t => [v0 t; v1 t; v2 t]) m))
    as (lo & -> & L1 & L2 & L3 & L4).
  destruct (np_max_axis0_spec (v0 t) (v1 t :: v2 t :: flat_map (fun t => [v0 t; v1 t; v2 t]) m))
    as (hi & -> & H1 & H2 & H3 & H4).
  eexists. split; [reflexivity|]. cbn [bmin bmax dimensions].
  split; [reflexivity|]. split; [auto|].
  repeat (split; [assumption|]).
  destruct (L1 (v0 t)) as (a1 & a2 & a3); [left; reflexivity|].
  destruct (H1 (v0 t)) as (b1 & b2 & b3); [left; reflexivity|].
  unfold vle, vsub; cbn [vx vy vz]. lra.
Qed.

(** Property X2.  On a mesh with at least one triangle [get_bounding_box]
    returns a box that encloses every vertex and is tight: on each axis some
    vertex lies on the lower face and some vertex on the upper face.  The
    dimensions are [max - min] and are never negative. *)
Theorem bounding_box_encloses (m : Mesh) (self : STLTools) :
  holds m self -> m <> [] ->
  exists b, outcome get_bounding_box self = Ok b /\
    dimensions b = vsub (bmax b) (bmin b) /\
    (forall v, vertex_of m v -> vle (bmin b) v /\ vle v (bmax b)) /\
    (exists v, vertex_of m v /\ vx v = vx (bmin b)) /\
    (exists v, vertex_of m v /\ vy v = vy (bmin b)) /\
    (exists v, vertex_of m v /\ vz v = vz (bmin b)) /\
    (exists v, vertex_of m v /\ vx v = vx (bmax b)) /\
    (exists v, vertex_of m v /\ vy v = vy (bmax b)) /\
    (exists v, vertex_of m v /\ vz v = vz (bmax b)) /\
    vle (V3 0 0 0) (dimensions b).
Proof.
  intros H Hne.
  destruct (get_bounding_box_holds m self H Hne) as (s' & b & E & Hb & _).
  destruct (compute_bounds_spec m Hne) as (b' & Hb' & P).
  rewrite Hb in Hb'. injection Hb' as <-.
  exists b. unfold outcome. rewrite E. split; [reflexivity|exact P].
Qed.

Lemma bounding_box_encloses_witness :
  exists b, outcome get_bounding_box (loaded "flat.stl" flat_triangle) = Ok b /\
            vle (V3 0 0 0) (dimensions b).
Proof.
  destruct (bounding_box_encloses flat_triangle (loaded "flat.stl" flat_triangle)
              (loaded_holds _ _)) as (b & Hb & P).
  - discriminate.
  - exists b. split; [exact Hb|]. apply P.
Defined.

(** *** Aspect ratio of a mesh *)

Lemma aspect_ratio_of_dimensions (dims : vec3) :
  vle (V3 0 0 0) dims ->
  match _calculate_aspect_ratio dims with
  | Some r => 1 <= r /\ 0 < smallest dims /\ r = largest dims / smallest dims
  | None => smallest dims = 0
  end.
Proof.
  intros (Hx & Hy & Hz). cbn [vx vy vz] in *.
  destruct (aspect_ratio_by_extremes dims) as (_ & Hs & Hlo & Hhi & ->).
  rewrite Hlo, Hhi in *.
  assert (Hmin : 0 <= smallest dims).
  { unfold smallest. apply Rmin_glb; [|apply Rmin_glb]; assumption. }
  unfold aspect_ratio_epsilon.
  destruct Rle_dec as [Hle|Hgt]; [lra|].
  assert (Hpos : 0 < smallest dims) by lra.
  split; [|split; [assumption|reflexivity]].
  apply (Rmult_le_reg_r (smallest dims)); [assumption|].
  unfold Rdiv. rewrite Rmult_assoc, Rinv_l by lra. lra.
Qed.

(** Property X3.  The aspect ratio [get_mesh_statistics] reports is at least
    1 whenever it is a number, and it is [None] exactly when the smallest
    dimension of the bounding box is 0 (a flat mesh). *)
Theorem aspect_ratio_at_least_one (m : Mesh) (self : STLTools) :
  holds m self -> m <> [] ->
  exists stats,
    outcome get_mesh_statistics self = Ok stats /\
    match aspect_ratio stats with
    | Some r => 1 <= r /\ 0 < smallest (dimensions (bounding_box stats))
    | None => smallest (dimensions (bounding_box stats)) = 0
    end.
Proof.
  intros H Hne.
  destruct (get_mesh_statistics_holds m self H Hne)
    as (stats & s' & b & E & _ & Hb & _ & _ & _ & _ & _ & Hbb & Har & _).
  destruct (compute_bounds_spec m Hne) as (b' & Hb' & _ & _ & _ & _ & _ & _ & _ & _ & Hd).
  rewrite Hb in Hb'. injection Hb' as <-.
  exists stats. unfold outcome. rewrite E. split; [reflexivity|].
  rewrite Har, Hbb.
  pose proof (aspect_ratio_of_dimensions (dimensions b) Hd) as P.
  destruct (_calculate_aspect_ratio (dimensions b)); [|exact P].
  destruct P as (P1 & P2 & _). auto.
Qed.

Lemma aspect_ratio_at_least_one_witness :
  exists stats,
    outcome get_mesh_statistics (loaded "cube.stl" create_test_cube) = Ok stats /\
    match aspect_ratio stats with
    | Some r => 1 <= r /\ 0 < smallest (dimensions (bounding_box stats))
    | None => smallest (dimensions (bounding_box stats)) = 0
    end.
Proof.
  apply (aspect_ratio_at_least_one create_test_cube).
  - apply loaded_holds.
  - discriminate.
Defined.

(** *** Translation *)
























(** *** Scaling *)






(** *** Validation *)

Lemma sorted_snoc (acc : list nat) (k : nat) :
  StronglySorted lt acc -> Forall (fun j => (j < k)%nat) acc ->
  StronglySorted lt (acc ++ [k]).
Proof.
  induction 1 as [|j acc Hs IH Hj]; intros Hk; simpl.
  - constructor; constructor.
  - inversion Hk as [|? ? Hjk Hk']; subst. constructor; [apply IH, Hk'|].
    apply Forall_app. split; [exact Hj|]. constructor; [exact Hjk|constructor].
Qed.

Lemma find_degenerate_sorted (m : Mesh) : forall k acc,
  StronglySorted lt acc -> Forall (fun j => (j < k)%nat) acc ->
  StronglySorted lt (fold_left degenerate_step (combine (seq k (length m)) m) acc).
Proof.
  induction m as [|t m IH]; intros k acc Hs Hk; simpl; [exact Hs|].
  apply IH.
  - unfold degenerate_step; cbn [fst snd]. destruct Rlt_dec; [|exact Hs].
    apply sorted_snoc; assumption.
  - unfold degenerate_step; cbn [fst snd].
    assert (Hk' : Forall (fun j => (j < S k)%nat) acc).
    { eapply Forall_impl; [|exact Hk]. intros; cbn in *; lia. }
    destruct Rlt_dec; [|exact Hk'].
    apply Forall_app. split; [exact Hk'|]. constructor; [lia|constructor].
Qed.

Lemma validate_mesh_explicit (m : Mesh) (self : STLTools) :
  holds m self -> m <> [] ->
  exists s' b,
    compute_bounds m = Ok b /\
    validate_mesh self =
    (Ok (let found := find_degenerate_triangles m in
         let found_issues :=
           match found with
           | [] => []
           | _ => ["Found " +:+ pretty (length found) +:+ " degenerate triangles"]%string
           end in
         let w1 :=
           if any_dimension_below (dimensions b) 1e-6
           then ["Mesh has very small dimensions in one or more axes"%string] else [] in
         let w2 :=
           if Rlt_dec (Rabs (signed_volume m)) 1e-10
           then w1 ++ ["Mesh has very small or zero volume"%string] else w1 in
         mkValidationResult (Nat.eqb (length found_issues) 0) found_issues w2 found), s').
Proof.
  intros H Hne.
  destruct (get_bounding_box_holds m self H Hne) as (s1 & b & Hbb & Hcb & H1).
  destruct (calculate_volume_holds m s1 H1) as (s2 & Hvol & _).
  exists s2, b. split; [exact Hcb|].
  pose proof (holds_mesh _ _ H) as Hm.
  unfold validate_mesh, _ensure_mesh_loaded, vectors. run.
  rewrite Hm; simpl. rewrite Hbb, Hvol; simpl. rewrite Hm. reflexivity.
Qed.

(** Property X8.  On a mesh with at least one triangle [validate_mesh]
    returns normally; its list [degenerate_triangles] holds exactly the
    indices of the triangles of area below 1e-10, in strictly ascending
    order; [is_valid] is true exactly when that list is empty, and otherwise
    [issues] is the single message that counts them.  There are at most two
    warnings. *)
Theorem degenerate_triangles_exact (m : Mesh) (self : STLTools) :
  holds m self -> m <> [] ->
  exists r,
    outcome validate_mesh self = Ok r /\
    (forall i, In i (degenerate_triangles r) <->
               exists t, nth_error m i = Some t
                         /\ _calculate_triangle_area t < degenerate_area_threshold) /\
    StronglySorted lt (degenerate_triangles r) /\
    (is_valid r = true <-> degenerate_triangles r = []) /\
    (is_valid r = false ->
     issues r = ["Found " +:+ pretty (length (degenerate_triangles r))
                 +:+ " degenerate triangles"]%string) /\
    (length (warnings r) <= 2)%nat.
Proof.
  intros H Hne.
  destruct (validate_mesh_explicit m self H Hne) as (s' & b & _ & Hrun).
  eexists. unfold outcome. rewrite Hrun. split; [reflexivity|].
  cbn [fst degenerate_triangles is_valid issues warnings].
  split; [intros i; apply find_degenerate_triangles_spec|].
  split; [apply find_degenerate_sorted; constructor|].
  split; [|split].
  - destruct (find_degenerate_triangles m); cbn; split; congruence.
  - destruct (find_degenerate_triangles m); cbn; [discriminate|reflexivity].
  - destruct any_dimension_below; destruct Rlt_dec; cbn; lia.
Qed.

Lemma degenerate_triangles_exact_witness :
  exists r, outcome validate_mesh (loaded "flat.stl" flat_triangle) = Ok r /\
            StronglySorted lt (degenerate_triangles r).
Proof.
  destruct (degenerate_triangles_exact flat_triangle (loaded "flat.stl" flat_triangle)
              (loaded_holds _ _)) as (r & Hr & _ & Hs & _).
  - discriminate.
  - exists r. split; [exact Hr|exact Hs].
Defined.

(** *** Surface roughness *)

Lemma np_std_nonneg (l : list R) : 0 <= np_std l.
Proof. unfold np_std. apply sqrt_pos. Qed.

Lemma fold_plus_const (l : list R) (a : R) : forall acc,
  (forall x, In x l -> x = a) ->
  fold_left Rplus l acc = acc + INR (length l) * a.
Proof.
  induction l as [|x l IH]; intros acc H.
  - simpl. ring.
  - cbn [fold_left length]. rewrite S_INR, IH by (intros; apply H; right; assumption).
    rewrite (H x) by (left; reflexivity). ring.
Qed.

Lemma np_mean_const (l : list R) (a : R) :
  l <> [] -> (forall x, In x l -> x = a) -> np_mean l = a.
Proof.
  intros Hne H. unfold np_mean. rewrite (fold_plus_const l a 0 H).
  assert (INR (length l) <> 0).
  { destruct l; [congruence|]. cbn [length]. rewrite S_INR.
    pose proof (pos_INR (length l)). lra. }
  field. assumption.
Qed.

Lemma np_std_const (l : list R) (a : R) :
  l <> [] -> (forall x, In x l -> x = a) -> np_std l = 0.
Proof.
  intros Hne H. unfold np_std. rewrite (np_mean_const l a Hne H).
  rewrite (np_mean_const _ 0).
  - apply sqrt_0.
  - destruct l; [congruence|discriminate].
  - intros y Hy. apply in_map_iff in Hy as (x & <- & Hx). rewrite (H x Hx). ring.
Qed.

Lemma roughness_value (m : Mesh) (self : STLTools) :
  mesh self = Some m ->
  _calculate_surface_roughness_factor self =
  (Ok (let areas := map _calculate_triangle_area m in
       let cv := if Rgt_dec (np_mean areas) 0 then np_std areas / np_mean areas else 0 in
       py_min2 (1.0 + cv * 0.5) 1.5), self).
Proof.
  intros Hm.
  cbv beta iota zeta delta
    [_calculate_surface_roughness_factor _ensure_mesh_loaded vectors bind ret raise get].
  rewrite Hm. cbv beta iota. rewrite Hm. reflexivity.
Qed.

Lemma roughness_factor_bounds (m : Mesh) (self : STLTools) :
  mesh self = Some m ->
  exists x,
    _calculate_surface_roughness_factor self = (Ok x, self) /\
    1 <= x <= 1.5 /\
    (m <> [] ->
     (exists a, forall t, In t m -> _calculate_triangle_area t = a) -> x = 1).
Proof.
  intros Hm. rewrite (roughness_value m self Hm). eexists. split; [reflexivity|].
  cbv zeta. rewrite py_min2_Rmin.
  set (areas := map _calculate_triangle_area m).
  split.
  - assert (Hcv : 0 <= (if Rgt_dec (np_mean areas) 0
                        then np_std areas / np_mean areas else 0)).
    { destruct Rgt_dec; [|lra].
      apply Rmult_le_pos; [apply np_std_nonneg|].
      apply Rlt_le, Rinv_0_lt_compat. lra. }
    unfold Rmin. destruct Rle_dec; lra.
  - intros Hne (a & Ha).
    assert (Hl : areas <> []) by (destruct m; [congruence|discriminate]).
    assert (Hall : forall x, In x areas -> x = a).
    { intros x Hx. apply in_map_iff in Hx as (t & <- & Ht). apply Ha, Ht. }
    rewrite (np_std_const areas a Hl Hall).
    replace (if Rgt_dec (np_mean areas) 0 then 0 / np_mean areas else 0) with 0
      by (destruct Rgt_dec; [unfold Rdiv; ring|reflexivity]).
    unfold Rmin. destruct Rle_dec; lra.
Qed.

(** Property X9.  With a mesh loaded, [_calculate_surface_roughness_factor]
    returns a value between 1 and 1.5 and does not change the object; the
    value is exactly 1 when all triangles of a non-empty mesh have the same
    area. *)
Theorem roughness_factor_range (m : Mesh) (self : STLTools) :
  mesh self = Some m ->
  exists x,
    _calculate_surface_roughness_factor self = (Ok x, self) /\
    1 <= x <= 1.5 /\
    (m <> [] ->
     (exists a, forall t, In t m -> _calculate_triangle_area t = a) -> x = 1).
Proof. exact (roughness_factor_bounds m self). Qed.

Lemma roughness_factor_range_witness :
  exists x,
    _calculate_surface_roughness_factor (loaded "flat.stl" flat_triangle)
    = (Ok x, loaded "flat.stl" flat_triangle) /\ x = 1.
Proof.
  destruct (roughness_factor_range flat_triangle (loaded "flat.stl" flat_triangle) eq_refl)
    as (x & Hx & _ & H1).
  exists x. split; [exact Hx|]. apply H1; [discriminate|].
  exists (_calculate_triangle_area (Tri (V3 0 0 0) (V3 1 0 0) (V3 0 1 0))).
  intros t [<-|[]]. reflexivity.
Defined.

(** *** Coverage efficiency *)

Lemma triangle_area_nonneg (t : triangle) : 0 <= _calculate_triangle_area t.
Proof.
  unfold _calculate_triangle_area, norm. 
  pose proof (sqrt_pos (vx (cross (vsub (v1 t) (v0 t)) (vsub (v2 t) (v0 t)))
                        * vx (cross (vsub (v1 t) (v0 t)) (vsub (v2 t) (v0 t)))
                        + vy (cross (vsub (v1 t) (v0 t)) (vsub (v2 t) (v0 t)))
                          * vy (cross (vsub (v1 t) (v0 t)) (vsub (v2 t) (v0 t)))
                        + vz (cross (vsub (v1 t) (v0 t)) (vsub (v2 t) (v0 t)))
                          * vz (cross (vsub (v1 t) (v0 t)) (vsub (v2 t) (v0 t))))).
  cbv zeta. lra.
Qed.

Lemma total_area_nonneg (m : Mesh) : 0 <= total_area m.
Proof.
  unfold total_area.
  assert (G : forall acc, 0 <= acc ->
            0 <= fold_left (fun total tri => total + _calculate_triangle_area tri) m acc).
  { induction m as [|t m IH]; intros acc Hacc; simpl; [assumption|].
    apply IH. pose proof (triangle_area_nonneg t). lra. }
  apply G. lra.
Qed.

Lemma coverage_value_range (dims : vec3) (A V : R) :
  vle (V3 0 0 0) dims -> 0 <= A -> 0 <= V ->
  0.7 <= coverage_value (_calculate_aspect_ratio dims) A V <= 0.985.
Proof.
  intros Hd HA HV. unfold coverage_value.
  pose proof (aspect_ratio_of_dimensions dims Hd) as P.
  set (ar := match _calculate_aspect_ratio dims with Some r => r | None => 1.0 end).
  assert (Har : 1 <= ar).
  { unfold ar. destruct (_calculate_aspect_ratio dims); [apply P|lra]. }
  set (q := if Rgt_dec V 0 then A / V else 0).
  assert (Hq : 0 <= q).
  { unfold q. destruct Rgt_dec; [|lra].
    apply Rmult_le_pos; [assumption|]. apply Rlt_le, Rinv_0_lt_compat. lra. }
  assert (H1 : 0.1 <= Rmin (ar / 10) 1 <= 1).
  { unfold Rmin. destruct Rle_dec; lra. }
  assert (H2 : 0 <= Rmin (q / 10) 1 <= 1).
  { unfold Rmin. destruct Rle_dec; lra. }
  unfold Rmax. destruct Rle_dec; lra.
Qed.

Lemma coverage_efficiency_bounds (m : Mesh) (self : STLTools) :
  holds m self -> m <> [] ->
  exists e, outcome _calculate_coverage_efficiency self = Ok e /\ 0.7 <= e <= 0.985.
Proof.
  intros H Hne.
  destruct (_calculate_coverage_efficiency_holds m self H Hne) as (s' & b & Hb & _ & E).
  destruct (compute_bounds_spec m Hne) as (b' & Hb' & _ & _ & _ & _ & _ & _ & _ & _ & Hd).
  rewrite Hb in Hb'. injection Hb' as <-.
  eexists. unfold outcome. rewrite E. split; [reflexivity|].
  apply coverage_value_range; [exact Hd|apply total_area_nonneg|apply Rabs_pos].
Qed.

(** Property X10.  On a mesh with at least one triangle
    [_calculate_coverage_efficiency] returns a value between 0.7 and
    0.985. *)
Theorem coverage_efficiency_range (m : Mesh) (self : STLTools) :
  holds m self -> m <> [] ->
  exists e, outcome _calculate_coverage_efficiency self = Ok e /\ 0.7 <= e <= 0.985.
Proof. exact (coverage_efficiency_bounds m self). Qed.

Lemma coverage_efficiency_range_witness :
  exists e, outcome _calculate_coverage_efficiency (loaded "cube.stl" create_test_cube) = Ok e
            /\ 0.7 <= e <= 0.985.
Proof.
  apply (coverage_efficiency_range create_test_cube).
  - apply loaded_holds.
  - discriminate.
Defined.

(** *** Electroplating parameters *)

Lemma plating_base_rate_positive (x : R) : 0 <= x -> 0.15 <= plating_base_rate x.
Proof.
  intros Hx. unfold plating_base_rate.
  destruct (Rle_dec x 0.05); [lra|]. destruct (Rle_dec x 0.1); lra.
Qed.

Lemma plating_base_rate_increasing (x y : R) :
  x < y -> plating_base_rate x < plating_base_rate y.
Proof.
  intros Hxy. unfold plating_base_rate.
  destruct (Rle_dec x 0.05), (Rle_dec y 0.05), (Rle_dec x 0.1), (Rle_dec y 0.1); lra.
Qed.

Lemma electroplating_fields (m : Mesh) (self : STLTools)
    (cd_min cd_max thickness density efficiency voltage : R) :
  holds m self -> m <> [] ->
  exists ep,
    outcome (calculate_electroplating_parameters
               cd_min cd_max thickness density efficiency voltage) self = Ok ep /\
    0.7 <= coverage_efficiency ep <= 0.985 /\
    1 <= surface_roughness_factor ep <= 1.5 /\
    surface_area_mm2 ep = total_area m /\
    surface_area_cm2 ep = total_area m / 100 /\
    surface_area_in2 ep = total_area m / 645.16 /\
    min_amps ep = total_area m / 645.16 * cd_min /\
    max_amps ep = total_area m / 645.16 * cd_max /\
    recommended_amps ep = (min_amps ep + max_amps ep) / 2 /\
    recommended_density ep = recommended_amps ep / surface_area_in2 ep /\
    plating_time_minutes ep =
      thickness / 25400 / (plating_base_rate ((cd_min + cd_max) / 2) * efficiency / 25400) /\
    plating_time_hours ep = plating_time_minutes ep / 60 /\
    metal_volume_cm3 ep = total_area m / 100 * (thickness / 10000) /\
    metal_mass_g ep = metal_volume_cm3 ep * density / coverage_efficiency ep /\
    metal_mass_kg ep = metal_mass_g ep / 1000 /\
    power_watts ep = recommended_amps ep * voltage /\
    energy_wh ep = power_watts ep * plating_time_hours ep /\
    energy_kwh ep = energy_wh ep / 1000 /\
    electricity_cost ep = energy_wh ep * 0.12 / 1000 /\
    solution_cost ep = metal_volume_cm3 ep * density * 0.05 /\
    total_cost ep = electricity_cost ep + solution_cost ep.
Proof.
  intros H Hne.
  destruct (calculate_surface_area_holds m self H) as (s1 & E1 & H1).
  destruct (roughness_factor_bounds m s1 (holds_mesh _ _ H1)) as (x & E2 & Hx & _).
  destruct (_calculate_coverage_efficiency_holds m s1 H1 Hne) as (s3 & b & Hcb & _ & E3).
  destruct (coverage_efficiency_bounds m s1 H1 Hne) as (e & Ee & He).
  unfold outcome in Ee. rewrite E3 in Ee. cbn [fst] in Ee. injection Ee as Ee.
  unfold outcome, calculate_electroplating_parameters, _ensure_mesh_loaded.
  unfold bind, ret, raise, get.
  rewrite (holds_mesh _ _ H), E1, E2, E3. cbv beta iota zeta. rewrite Ee.
  eexists. split; [reflexivity|].
  cbn [coverage_efficiency surface_roughness_factor surface_area_mm2 surface_area_cm2
       surface_area_in2 min_amps max_amps recommended_amps recommended_density
       plating_time_minutes plating_time_hours metal_volume_cm3 metal_mass_g
       metal_mass_kg power_watts energy_wh energy_kwh electricity_cost solution_cost
       total_cost].
  unfold plating_base_rate.
  repeat (split; [first [assumption | reflexivity | lra]|]).
  reflexivity.
Qed.

(** Property X11.  For current densities [0 <= min <= max], a positive
    thickness and a positive current efficiency,
    [calculate_electroplating_parameters] returns currents with
    [min_amps <= recommended_amps <= max_amps]; the recommended density is
    the mean of the two densities when the surface area is positive; the
    plating time in minutes is the thickness in microns divided by the base
    rate of the mean density times the efficiency, is positive and at most
    [thickness / (0.15 * efficiency)]; the hours are the minutes over 60 and
    the energy is recommended current times voltage times hours. *)
Theorem electroplating_current_and_time (m : Mesh) (self : STLTools)
    (cd_min cd_max thickness density efficiency voltage : R) :
  holds m self -> m <> [] ->
  0 <= cd_min <= cd_max -> 0 < thickness -> 0 < efficiency ->
  exists ep,
    outcome (calculate_electroplating_parameters
               cd_min cd_max thickness density efficiency voltage) self = Ok ep /\
    min_amps ep <= recommended_amps ep <= max_amps ep /\
    (0 < total_area m -> recommended_density ep = (cd_min + cd_max) / 2) /\
    plating_time_minutes ep =
      thickness / (plating_base_rate ((cd_min + cd_max) / 2) * efficiency) /\
    0 < plating_time_minutes ep /\
    plating_time_minutes ep <= thickness / (0.15 * efficiency) /\
    plating_time_hours ep * 60 = plating_time_minutes ep /\
    energy_wh ep = recommended_amps ep * voltage * plating_time_hours ep.
Proof.
  intros H Hne Hcd Ht He.
  destruct (electroplating_fields m self cd_min cd_max thickness density efficiency
              voltage H Hne)
    as (ep & E & _ & _ & _ & _ & Hin & Hmin & Hmax & Hrec & Hdens & Htime & Hh & _ & _ & _
        & Hp & Hen & _).
  exists ep. split; [exact E|].
  pose proof (total_area_nonneg m) as HA.
  pose proof (plating_base_rate_positive ((cd_min + cd_max) / 2) ltac:(lra)) as Hb.
  set (rate := plating_base_rate ((cd_min + cd_max) / 2)) in *.
  assert (Hre : 0 < rate * efficiency) by (apply Rmult_lt_0_compat; lra).
  assert (Htime' : plating_time_minutes ep = thickness / (rate * efficiency)).
  { rewrite Htime. field. split; lra. }
  split; [|split; [|split; [exact Htime'|split; [|split; [|split]]]]].
  - rewrite Hrec, Hmin, Hmax.
    assert (total_area m / 645.16 * cd_min <= total_area m / 645.16 * cd_max).
    { apply Rmult_le_compat_l; lra. }
    lra.
  - intros Hpos. rewrite Hdens, Hrec, Hmin, Hmax, Hin. field. lra.
  - rewrite Htime'. apply Rdiv_lt_0_compat; assumption.
  - rewrite Htime'. unfold Rdiv. apply Rmult_le_compat_l; [lra|].
    apply Rinv_le_contravar; [lra|].
    apply Rmult_le_compat_r; lra.
  - rewrite Hh. field.
  - rewrite Hen, Hp. reflexivity.
Qed.

Lemma electroplating_current_and_time_witness :
  exists ep,
    outcome (calculate_electroplating_parameters 0.07 0.1 80 8.9 0.95 3)
            (loaded "cube.stl" create_test_cube) = Ok ep /\
    min_amps ep <= recommended_amps ep <= max_amps ep /\
    0 < plating_time_minutes ep.
Proof.
  destruct (electroplating_current_and_time create_test_cube
              (loaded "cube.stl" create_test_cube) 0.07 0.1 80 8.9 0.95 3
              (loaded_holds _ _) ltac:(discriminate) ltac:(lra) ltac:(lra) ltac:(lra))
    as (ep & E & Hamps & _ & _ & Hpos & _).
  exists ep. split; [exact E|]. split; [exact Hamps|exact Hpos].
Defined.



(** Property X13.  With the same thickness and efficiency (both positive),
    a strictly higher mean current density (the lower one not negative)
    gives a strictly shorter plating time. *)
Theorem plating_time_decreases_with_current (m : Mesh) (self : STLTools)
    (lo1 hi1 lo2 hi2 thickness density efficiency voltage : R) :
  holds m self -> m <> [] ->
  0 <= lo1 + hi1 -> lo1 + hi1 < lo2 + hi2 -> 0 < thickness -> 0 < efficiency ->
  exists ep1 ep2,
    outcome (calculate_electroplating_parameters
               lo1 hi1 thickness density efficiency voltage) self = Ok ep1 /\
    outcome (calculate_electroplating_parameters
               lo2 hi2 thickness density efficiency voltage) self = Ok ep2 /\
    plating_time_minutes ep2 < plating_time_minutes ep1.
Proof.
  intros H Hne H0 Hlt Ht He.
  destruct (electroplating_fields m self lo1 hi1 thickness density efficiency voltage
              H Hne)
    as (ep1 & E1 & _ & _ & _ & _ & _ & _ & _ & _ & _ & T1 & _).
  destruct (electroplating_fields m self lo2 hi2 thickness density efficiency voltage
              H Hne)
    as (ep2 & E2 & _ & _ & _ & _ & _ & _ & _ & _ & _ & T2 & _).
  exists ep1, ep2. split; [exact E1|]. split; [exact E2|].
  pose proof (plating_base_rate_positive ((lo1 + hi1) / 2) ltac:(lra)) as P1.
  pose proof (plating_base_rate_increasing ((lo1 + hi1) / 2) ((lo2 + hi2) / 2) ltac:(lra))
    as P12.
  set (r1 := plating_base_rate ((lo1 + hi1) / 2)) in *.
  set (r2 := plating_base_rate ((lo2 + hi2) / 2)) in *.
  assert (Q1 : 0 < r1 * efficiency) by (apply Rmult_lt_0_compat; lra).
  assert (Q2 : r1 * efficiency < r2 * efficiency) by (apply Rmult_lt_compat_r; lra).
  replace (plating_time_minutes ep1) with (thickness * / (r1 * efficiency))
    by (rewrite T1; field; split; lra).
  replace (plating_time_minutes ep2) with (thickness * / (r2 * efficiency))
    by (rewrite T2; field; split; lra).
  apply Rmult_lt_compat_l; [assumption|].
  apply Rinv_lt_contravar; [|assumption].
  apply Rmult_lt_0_compat; lra.
Qed.

Lemma plating_time_decreases_with_current_witness :
  exists ep1 ep2,
    outcome (calculate_electroplating_parameters 0.02 0.04 80 8.9 0.95 3)
            (loaded "cube.stl" create_test_cube) = Ok ep1 /\
    outcome (calculate_electroplating_parameters 0.07 0.1 80 8.9 0.95 3)
            (loaded "cube.stl" create_test_cube) = Ok ep2 /\
    plating_time_minutes ep2 < plating_time_minutes ep1.
Proof.
  apply (plating_time_decreases_with_current create_test_cube
           (loaded "cube.stl" create_test_cube) 0.02 0.04 0.07 0.1 80 8.9 0.95 3).
  - apply loaded_holds.
  - discriminate.
  - lra.
  - lra.
  - lra.
  - lra.
Defined.

(** *** Resin cost *)




(** *** The cache over sequences of calls *)


Lemma preserves_ret {A} (a : A) : preserves (ret a).
Proof. intros m self H. exact H. Qed.

Lemma preserves_raise {A} (e : exn) : preserves (@raise STLTools A e).
Proof. intros m self H. exact H. Qed.

Lemma preserves_lift {A} (r : result A) : preserves (lift r).
Proof. intros m self H. exact H. Qed.

Lemma preserves_get : preserves (@get STLTools).
Proof. intros m self H. exact H. Qed.

Lemma preserves_bind {A B} (c : M STLTools A) (k : A -> M STLTools B) :
  preserves c -> (forall a, preserves (k a)) -> preserves (bind c k).
Proof.
  intros Hc Hk m self H. specialize (Hc m self H).
  unfold after, bind in *. destruct (c self) as [[a|e] s1]; cbn [snd] in *.
  - apply (Hk a m s1 Hc).
  - exact Hc.
Qed.

Lemma preserves_ensure : preserves _ensure_mesh_loaded.
Proof.
  intros m self H. unfold after, _ensure_mesh_loaded, bind, get, ret, raise.
  destruct (mesh self); exact H.
Qed.

Lemma preserves_calculate_volume : preserves calculate_volume.
Proof.
  intros m self H. destruct (calculate_volume_holds m self H) as (s & E & Hs).
  unfold after. rewrite E. exact Hs.
Qed.

Lemma preserves_calculate_surface_area : preserves calculate_surface_area.
Proof.
  intros m self H. destruct (calculate_surface_area_holds m self H) as (s & E & Hs).
  unfold after. rewrite E. exact Hs.
Qed.

Lemma preserves_get_center_of_mass : preserves get_center_of_mass.
Proof.
  intros m self H. destruct (get_center_of_mass_holds m self H) as (s & E & Hs).
  unfold after. rewrite E. exact Hs.
Qed.

Lemma preserves_get_bounding_box : preserves get_bounding_box.
Proof.
  intros m self H. destruct m as [|t m].
  - pose proof (holds_mesh _ _ H) as Hm.
    assert (Hb : _cached_bounds self = None).
    { destruct (_cached_bounds self) as [b|] eqn:Eb; [|reflexivity].
      pose proof (holds_bounds _ _ H b Eb) as Hc. discriminate Hc. }
    unfold after, get_bounding_box, _ensure_mesh_loaded, vectors.
    unfold bind, ret, raise, get, lift. rewrite Hm. cbv beta iota. rewrite Hb, Hm.
    exact H.
  - destruct (get_bounding_box_holds (t :: m) self H ltac:(discriminate))
      as (s & b & E & _ & Hs).
    unfold after. rewrite E. exact Hs.
Qed.

Ltac pres :=
  repeat first
    [ apply preserves_ensure
    | apply preserves_calculate_volume
    | apply preserves_calculate_surface_area
    | apply preserves_get_center_of_mass
    | apply preserves_get_bounding_box
    | apply preserves_get
    | apply preserves_ret
    | apply preserves_raise
    | apply preserves_lift
    | apply preserves_bind; [|intros ?]
    | match goal with
      | |- preserves (if ?c then _ else _) => destruct c
      | |- preserves (match ?x with _ => _ end) => destruct x
      end ].

Lemma preserves_get_mesh_statistics : preserves get_mesh_statistics.
Proof. unfold get_mesh_statistics. pres. Qed.

Lemma preserves_validate_mesh : preserves validate_mesh.
Proof. unfold validate_mesh. pres. Qed.

Lemma preserves_get_mesh_info : preserves get_mesh_info.
Proof. unfold get_mesh_info. pres. Qed.

Lemma preserves_estimate_resin_cost d p u : preserves (estimate_resin_cost d p u).
Proof. unfold estimate_resin_cost. pres. Qed.

Lemma preserves_roughness : preserves _calculate_surface_roughness_factor.
Proof. unfold _calculate_surface_roughness_factor. pres. Qed.

Lemma preserves_coverage : preserves _calculate_coverage_efficiency.
Proof. unfold _calculate_coverage_efficiency. pres. Qed.

Lemma preserves_electroplating a b c d e f :
  preserves (calculate_electroplating_parameters a b c d e f).
Proof.
  unfold calculate_electroplating_parameters.
  apply preserves_bind; [apply preserves_ensure|intros _].
  apply preserves_bind; [apply preserves_calculate_surface_area|intros A].
  cbv zeta.
  apply preserves_bind; [apply preserves_roughness|intros r].
  apply preserves_bind; [apply preserves_coverage|intros e'].
  apply preserves_ret.
Qed.

Lemma preserves_recommendations metal :
  preserves (get_electroplating_recommendations metal).
Proof.
  unfold get_electroplating_recommendations.
  destruct (metal_properties (str_lower metal)).
  - apply preserves_bind; [apply preserves_electroplating|intros ?; apply preserves_ret].
  - apply preserves_raise.
Qed.

Lemma perform_unloaded (c : call) (self : STLTools) :
  mesh self = None -> perform c self = self.
Proof.
  intros H. destruct c; unfold perform, after.
  - unfold calculate_surface_area; unloaded H.
  - unfold calculate_volume; unloaded H.
  - unfold get_bounding_box; unloaded H.
  - unfold get_center_of_mass; unloaded H.
  - unfold get_mesh_statistics; unloaded H.
  - unfold validate_mesh; unloaded H.
  - unfold get_mesh_info; unloaded H.
  - unfold scale_mesh; unloaded H.
  - unfold translate_mesh; unloaded H.
  - unfold estimate_resin_cost; unloaded H.
  - unfold calculate_electroplating_parameters; unloaded H.
  - unfold get_electroplating_recommendations.
    destruct (metal_properties (str_lower metal_type)); [|reflexivity].
    unfold calculate_electroplating_parameters; unloaded H.
Qed.

Lemma fresh_holds (m : Mesh) (fp : option string) :
  holds m (mkSTLTools (Some m) fp None None None None).
Proof. holds_tac. Qed.

Lemma holds_consistent (m : Mesh) (self : STLTools) : holds m self -> consistent self.
Proof. intros H. unfold consistent. rewrite (holds_mesh _ _ H). exact H. Qed.

Lemma consistent_perform (c : call) (self : STLTools) :
  consistent self -> consistent (perform c self).
Proof.
  intros H. destruct (mesh self) as [m|] eqn:Hm.
  - unfold consistent in H. rewrite Hm in H.
    destruct c; cbn [perform];
      try (apply (holds_consistent m);
           first [ apply preserves_calculate_surface_area
                 | apply preserves_calculate_volume
                 | apply preserves_get_bounding_box
                 | apply preserves_get_center_of_mass
                 | apply preserves_get_mesh_statistics
                 | apply preserves_validate_mesh
                 | apply preserves_get_mesh_info
                 | apply preserves_estimate_resin_cost
                 | apply preserves_electroplating
                 | apply preserves_recommendations ]; exact H).
    + destruct scale_factor as [x|l].
      * unfold after. rewrite (scale_mesh_number m self x Hm). cbn [snd].
        eapply holds_consistent, fresh_holds.
      * destruct (Nat.eq_dec (length l) 3) as [Hl|Hl].
        -- unfold after. rewrite (scale_mesh_sequence m self l Hm Hl). cbn [snd].
           eapply holds_consistent, fresh_holds.
        -- unfold after.
           rewrite (proj2 (scale_mesh_wrong_arity m self l Hm Hl)). cbn [snd].
           apply (holds_consistent m), H.
    + destruct (Nat.eq_dec (length translation) 3) as [Hl|Hl].
      * unfold after. rewrite (translate_mesh_three m self translation Hm Hl). cbn [snd].
        eapply holds_consistent, fresh_holds.
      * unfold after.
        rewrite (proj2 (translate_mesh_wrong_arity m self translation Hm Hl)). cbn [snd].
        apply (holds_consistent m), H.
  - rewrite (perform_unloaded c self Hm). exact H.
Qed.

Lemma mesh_kept_perform (c : call) (self : STLTools) :
  consistent self -> mesh self <> None -> mesh (perform c self) <> None.
Proof.
  intros H Hm. pose proof (consistent_perform c self H) as H'.
  destruct (mesh self) as [m|] eqn:Em; [|congruence].
  unfold consistent in H. rewrite Em in H.
  destruct c; cbn [perform];
    try (erewrite holds_mesh; [discriminate|];
         first [ apply preserves_calculate_surface_area
               | apply preserves_calculate_volume
               | apply preserves_get_bounding_box
               | apply preserves_get_center_of_mass
               | apply preserves_get_mesh_statistics
               | apply preserves_validate_mesh
               | apply preserves_get_mesh_info
               | apply preserves_estimate_resin_cost
               | apply preserves_electroplating
               | apply preserves_recommendations ]; exact H).
  - destruct scale_factor as [x|l].
    + unfold after. rewrite (scale_mesh_number m self x Em). discriminate.
    + destruct (Nat.eq_dec (length l) 3) as [Hl|Hl]; unfold after.
      * rewrite (scale_mesh_sequence m self l Em Hl). discriminate.
      * rewrite (proj2 (scale_mesh_wrong_arity m self l Em Hl)). cbn [snd]. congruence.
  - destruct (Nat.eq_dec (length translation) 3) as [Hl|Hl]; unfold after.
    + rewrite (translate_mesh_three m self translation Em Hl). discriminate.
    + rewrite (proj2 (translate_mesh_wrong_arity m self translation Em Hl)).
      cbn [snd]. congruence.
Qed.

(** Property X15.  Starting from an object with a mesh whose cached values
    are absent or correct, after any sequence of calls of the public methods
    (queries, scalings and translations, failing or not) the object still
    holds a mesh and no cached value is stale: [calculate_surface_area],
    [calculate_volume], [get_center_of_mass] and [get_bounding_box] return
    the values of the current vertices. *)
Theorem cache_never_stale (cs : list call) (self : STLTools) :
  consistent self -> mesh self <> None ->
  exists m,
    mesh (perform_all cs self) = Some m /\
    holds m (perform_all cs self) /\
    outcome calculate_surface_area (perform_all cs self) = Ok (total_area m) /\
    outcome calculate_volume (perform_all cs self) = Ok (Rabs (signed_volume m)) /\
    outcome get_center_of_mass (perform_all cs self)
      = Ok (np_mean_axis0 (reshape_vertices m)) /\
    (m <> [] -> outcome get_bounding_box (perform_all cs self) = compute_bounds m).
Proof.
  revert self. induction cs as [|c cs IH]; intros self H Hm.
  - cbn [perform_all fold_left].
    destruct (mesh self) as [m|] eqn:Em; [|congruence].
    unfold consistent in H. rewrite Em in H.
    exists m. split; [reflexivity|]. split; [exact H|].
    destruct (calculate_surface_area_holds m self H) as (? & E1 & _).
    destruct (calculate_volume_holds m self H) as (? & E2 & _).
    destruct (get_center_of_mass_holds m self H) as (? & E3 & _).
    unfold outcome. rewrite E1, E2, E3. cbn [fst].
    split; [reflexivity|]. split; [reflexivity|]. split; [reflexivity|].
    intros Hne. destruct (get_bounding_box_holds m self H Hne) as (? & b & E4 & Hb & _).
    rewrite E4, Hb. reflexivity.
  - change (perform_all (c :: cs) self) with (perform_all cs (perform c self)).
    apply IH; [apply consistent_perform, H|apply mesh_kept_perform; assumption].
Qed.

Lemma cache_never_stale_witness :
  exists m,
    mesh (perform_all [call_calculate_volume; call_scale_mesh (Number 2);
                       call_get_bounding_box; call_translate_mesh [1; 0; 0]]
                      (loaded "cube.stl" create_test_cube)) = Some m /\
    outcome calculate_volume
      (perform_all [call_calculate_volume; call_scale_mesh (Number 2);
                    call_get_bounding_box; call_translate_mesh [1; 0; 0]]
                   (loaded "cube.stl" create_test_cube))
    = Ok (Rabs (signed_volume m)).
Proof.
  destruct (cache_never_stale
              [call_calculate_volume; call_scale_mesh (Number 2);
               call_get_bounding_box; call_translate_mesh [1; 0; 0]]
              (loaded "cube.stl" create_test_cube)
              (holds_consistent _ _ (loaded_holds _ _)) ltac:(discriminate))
    as (m & Hm & _ & _ & Hv & _).
  exists m. split; [exact Hm|exact Hv].
Defined.

(** *** A mesh without triangles *)





(** *** Recommendations by metal *)


Lemma preset_ranges (key : string) (props : MetalProperties) :
  metal_properties key = Some props ->
  0 < preset_current_density_min props <= preset_current_density_max props /\
  0 < typical_thickness_microns props /\ 0 < density_g_cm3 props /\
  0 < preset_voltage props.
Proof.
  unfold metal_properties.
  repeat (destruct (String.eqb key _);
          [intros [= <-];
           cbn [preset_current_density_min preset_current_density_max
                typical_thickness_microns density_g_cm3 preset_voltage]; lra|]).
  discriminate.
Qed.

Lemma metal_properties_keys (key : string) :
  metal_properties key <> None <->
  In key ["nickel"; "copper"; "chrome"; "gold"; "silver"]%string.
Proof.
  unfold metal_properties. cbn [In].
  destruct (String.eqb_spec key "nickel"); [split; [auto|discriminate]|].
  destruct (String.eqb_spec key "copper"); [split; [auto|discriminate]|].
  destruct (String.eqb_spec key "chrome"); [split; [auto|discriminate]|].
  destruct (String.eqb_spec key "gold"); [split; [auto 6|discriminate]|].
  destruct (String.eqb_spec key "silver"); [split; [auto 6|discriminate]|].
  split; [congruence|]. intros [?|[?|[?|[?|[?|[]]]]]]; congruence.
Qed.

Lemma electroplating_time_and_currents (m : Mesh) (self : STLTools)
    (cd_min cd_max thickness density efficiency voltage : R) :
  holds m self -> m <> [] ->
  0 <= cd_min <= cd_max -> 0 < thickness -> 0 < efficiency ->
  exists ep,
    outcome (calculate_electroplating_parameters
               cd_min cd_max thickness density efficiency voltage) self = Ok ep /\
    min_amps ep <= recommended_amps ep <= max_amps ep /\
    plating_time_minutes ep =
      thickness / (plating_base_rate ((cd_min + cd_max) / 2) * efficiency).
Proof.
  intros H Hne Hcd Ht He.
  destruct (electroplating_fields m self cd_min cd_max thickness density efficiency
              voltage H Hne)
    as (ep & E & _ & _ & _ & _ & Hin & Hmin & Hmax & Hrec & Hdens & Htime & _).
  exists ep. split; [exact E|].
  pose proof (total_area_nonneg m) as HA.
  pose proof (plating_base_rate_positive ((cd_min + cd_max) / 2) ltac:(lra)) as Hb.
  split.
  - rewrite Hrec, Hmin, Hmax.
    assert (total_area m / 645.16 * cd_min <= total_area m / 645.16 * cd_max).
    { apply Rmult_le_compat_l; lra. }
    lra.
  - rewrite Htime. field. split; lra.
Qed.

(** Property X17.  [get_electroplating_recommendations] looks the metal up
    by its lower-cased name.  A name (of ASCII characters) that is not in the
    table raises [ValueError] with the name as given, before the mesh is
    looked at.  The table has exactly the keys nickel, copper, chrome, gold
    and silver.  For a name in the table the result does not depend on the
    case of the letters; without a mesh the call raises the error of
    [_ensure_mesh_loaded]; on a mesh with at least one triangle it returns
    the table entry together with the result of
    [calculate_electroplating_parameters] at the entry's densities,
    thickness, density and voltage and efficiency 0.95, whose currents are
    ordered and whose plating time comes from the base rate of the mean
    density, not from the entry's [plating_rate_microns_per_min]. *)
Theorem recommendations_by_metal (metal : string) (self : STLTools) :
  (isascii metal = true -> metal_properties (str_lower metal) = None ->
   get_electroplating_recommendations metal self =
   (Raise (ValueError ("Unsupported metal type: " +:+ metal)), self)) /\
  (metal_properties (str_lower metal) <> None <->
   In (str_lower metal) ["nickel"; "copper"; "chrome"; "gold"; "silver"]%string) /\
  (forall props, metal_properties (str_lower metal) = Some props ->
     (forall other, str_lower other = str_lower metal ->
        get_electroplating_recommendations other self =
        get_electroplating_recommendations metal self) /\
     (mesh self = None ->
        get_electroplating_recommendations metal self = (no_mesh_error, self)) /\
     (forall m, holds m self -> m <> [] ->
        exists rec,
          outcome (get_electroplating_recommendations metal) self = Ok rec /\
          recommended_metal rec = props /\
          outcome (calculate_electroplating_parameters
                     (preset_current_density_min props) (preset_current_density_max props)
                     (typical_thickness_microns props) (density_g_cm3 props)
                     0.95 (preset_voltage props)) self
            = Ok (calculated_parameters rec) /\
          min_amps (calculated_parameters rec)
            <= recommended_amps (calculated_parameters rec)
            <= max_amps (calculated_parameters rec) /\
          plating_time_minutes (calculated_parameters rec) =
            typical_thickness_microns props /
            (plating_base_rate ((preset_current_density_min props
                                 + preset_current_density_max props) / 2) * 0.95))).
Proof.
  split; [|split].
  - intros _ Hnone. unfold get_electroplating_recommendations. rewrite Hnone. reflexivity.
  - apply metal_properties_keys.
  - intros props Hp. split; [|split].
    + intros other Ho. unfold get_electroplating_recommendations. rewrite Ho, Hp.
      reflexivity.
    + intros Hm. unfold get_electroplating_recommendations. rewrite Hp.
      unfold calculate_electroplating_parameters, no_mesh_error. unloaded Hm.
    + intros m H Hne.
      destruct (preset_ranges _ _ Hp) as (Hcd & Ht & _ & _).
      destruct (electroplating_time_and_currents m self
                  (preset_current_density_min props) (preset_current_density_max props)
                  (typical_thickness_microns props) (density_g_cm3 props)
                  0.95 (preset_voltage props) H Hne ltac:(lra) Ht ltac:(lra))
        as (ep & E & Hamps & Htime).
      exists (mkRecommendations props ep).
      cbn [recommended_metal calculated_parameters].
      split; [|split; [reflexivity|split; [exact E|split; [exact Hamps|exact Htime]]]].
      unfold outcome in *. unfold get_electroplating_recommendations. rewrite Hp.
      unfold bind at 1.
      destruct (calculate_electroplating_parameters _ _ _ _ _ _ self) as [[a|e] s1];
        cbn [fst] in E; [|discriminate E].
      injection E as ->. reflexivity.
Qed.

Lemma recommendations_by_metal_witness :
  exists rec,
    outcome (get_electroplating_recommendations "Nickel")
            (loaded "cube.stl" create_test_cube) = Ok rec /\
    min_amps (calculated_parameters rec) <= recommended_amps (calculated_parameters rec).
Proof.
  destruct (recommendations_by_metal "Nickel" (loaded "cube.stl" create_test_cube))
    as (_ & _ & Hs).
  destruct (Hs (mkMetalProperties 8.9 0.07 0.1 6.0 0.4 50.0
                  "Silver-gray" "Hard" "Excellent" 25.0) eq_refl)
    as (_ & _ & Hrec).
  destruct (Hrec create_test_cube (loaded_holds _ _) ltac:(discriminate))
    as (rec & E & _ & _ & Hamps & _).
  exists rec. split; [exact E|apply Hamps].
Defined.

(** *** Distributions of the statistics *)

Lemma fold_py_min (xs : list R) : forall x,
  let lo := fold_left (fun m y => if Rlt_dec y m then y else m) xs x in
  In lo (x :: xs) /\ forall y, In y (x :: xs) -> lo <= y.
Proof.
  induction xs as [|a xs IH]; intros x; cbn [fold_left].
  - split; [left; reflexivity|]. intros y [<-|[]]. lra.
  - destruct (IH (if Rlt_dec a x then a else x)) as (Hin & Hle). cbv zeta in *.
    set (lo := fold_left _ xs _) in *.
    split.
    + destruct Hin as [Hin|Hin]; [|right; right; exact Hin].
      rewrite <- Hin. destruct Rlt_dec; [right; left|left]; reflexivity.
    + intros y Hy.
      assert (H0 : lo <= (if Rlt_dec a x then a else x)) by (apply Hle; left; reflexivity).
      destruct Hy as [<-|[<-|Hy]].
      * destruct Rlt_dec; lra.
      * destruct Rlt_dec; lra.
      * apply Hle. right. exact Hy.
Qed.

Lemma fold_py_max (xs : list R) : forall x,
  let hi := fold_left (fun m y => if Rgt_dec y m then y else m) xs x in
  In hi (x :: xs) /\ forall y, In y (x :: xs) -> y <= hi.
Proof.
  induction xs as [|a xs IH]; intros x; cbn [fold_left].
  - split; [left; reflexivity|]. intros y [<-|[]]. lra.
  - destruct (IH (if Rgt_dec a x then a else x)) as (Hin & Hle). cbv zeta in *.
    set (hi := fold_left _ xs _) in *.
    split.
    + destruct Hin as [Hin|Hin]; [|right; right; exact Hin].
      rewrite <- Hin. destruct Rgt_dec; [right; left|left]; reflexivity.
    + intros y Hy.
      assert (H0 : (if Rgt_dec a x then a else x) <= hi) by (apply Hle; left; reflexivity).
      destruct Hy as [<-|[<-|Hy]].
      * destruct Rgt_dec; lra.
      * destruct Rgt_dec; lra.
      * apply Hle. right. exact Hy.
Qed.

Lemma fold_plus_bounds (l : list R) (lo hi : R) : forall acc,
  (forall y, In y l -> lo <= y <= hi) ->
  acc + INR (length l) * lo <= fold_left Rplus l acc <= acc + INR (length l) * hi.
Proof.
  induction l as [|x l IH]; intros acc H.
  - cbn [fold_left length INR]. lra.
  - cbn [fold_left length]. rewrite S_INR.
    specialize (IH (acc + x) (fun y Hy => H y (or_intror Hy))).
    pose proof (H x (or_introl eq_refl)). lra.
Qed.

Lemma distribution_spec (l : list R) :
  l <> [] ->
  exists d, distribution l = Ok d /\
    In (d_min d) l /\ In (d_max d) l /\
    (forall y, In y l -> d_min d <= y <= d_max d) /\
    d_min d <= d_mean d <= d_max d /\
    0 <= d_std d /\
    d_mean d * INR (length l) = fold_left Rplus l 0.
Proof.
  destruct l as [|x xs]; [congruence|]. intros _.
  destruct (fold_py_min xs x) as (Hmin & Hlo).
  destruct (fold_py_max xs x) as (Hmax & Hhi). cbv zeta in *.
  unfold distribution, py_min, py_max.
  eexists. split; [reflexivity|]. cbn [d_min d_max d_mean d_std].
  set (lo := fold_left (fun m y => if Rlt_dec y m then y else m) xs x) in *.
  set (hi := fold_left (fun m y => if Rgt_dec y m then y else m) xs x) in *.
  assert (Hn : 0 < INR (length (x :: xs))).
  { cbn [length]. rewrite S_INR. pose proof (pos_INR (length xs)). lra. }
  split; [exact Hmin|]. split; [exact Hmax|].
  split; [intros y Hy; split; [apply Hlo|apply Hhi]; exact Hy|].
  split; [|split; [apply np_std_nonneg|]].
  - pose proof (fold_plus_bounds (x :: xs) lo hi 0
                  (fun y Hy => conj (Hlo y Hy) (Hhi y Hy))) as (B1 & B2).
    unfold np_mean. split.
    + apply (Rmult_le_reg_r (INR (length (x :: xs)))); [assumption|].
      unfold Rdiv. rewrite Rmult_assoc, Rinv_l by lra. lra.
    + apply (Rmult_le_reg_r (INR (length (x :: xs)))); [assumption|].
      unfold Rdiv. rewrite Rmult_assoc, Rinv_l by lra. lra.
  - unfold np_mean. field. lra.
Qed.

Lemma fold_plus_areas (m : Mesh) : forall acc,
  fold_left Rplus (map _calculate_triangle_area m) acc =
  fold_left (fun total tri => total + _calculate_triangle_area tri) m acc.
Proof. induction m as [|t m IH]; intros acc; [reflexivity|apply IH]. Qed.

Lemma get_mesh_statistics_distributions (m : Mesh) (self : STLTools) :
  holds m self -> m <> [] ->
  exists stats da de,
    outcome get_mesh_statistics self = Ok stats /\
    distribution (map _calculate_triangle_area m) = Ok da /\
    distribution (flat_map triangle_edges m) = Ok de /\
    triangle_areas stats = da /\ edge_lengths stats = de /\
    triangle_count stats = length m /\
    vertex_count stats = (length m * 3)%nat /\
    surface_area stats = total_area m /\
    volume stats = Rabs (signed_volume m) /\
    surface_area_to_volume_ratio stats =
      (if Rgt_dec (Rabs (signed_volume m)) 0
       then Some (total_area m / Rabs (signed_volume m)) else None).
Proof.
  intros H Hne.
  destruct (get_bounding_box_holds m self H Hne) as (s1 & b & E1 & Hcb & H1).
  destruct (get_center_of_mass_holds m s1 H1) as (s2 & E2 & H2).
  destruct (calculate_surface_area_holds m s2 H2) as (s3 & E3 & H3).
  destruct (calculate_volume_holds m s3 H3) as (s4 & E4 & H4).
  pose proof (holds_mesh _ _ H) as Hm. pose proof (holds_mesh _ _ H4) as Hm4.
  destruct (distribution_spec (map _calculate_triangle_area m)) as (da & Hda & _).
  { destruct m; [congruence|discriminate]. }
  destruct (distribution_spec (flat_map triangle_edges m)) as (de & Hde & _).
  { destruct m; [congruence|discriminate]. }
  unfold outcome, get_mesh_statistics, _ensure_mesh_loaded, vectors.
  unfold bind, ret, raise, get, lift.
  rewrite Hm, E1, E2, E3, E4, Hm4. cbv beta iota zeta. rewrite Hda, Hde.
  eexists _, da, de. split; [reflexivity|].
  cbn [triangle_areas edge_lengths triangle_count vertex_count surface_area volume
       surface_area_to_volume_ratio].
  repeat (split; [reflexivity|]). reflexivity.
Qed.

(** Property X18.  In the result of [get_mesh_statistics] on a mesh with at
    least one triangle: the vertex count is three times the triangle count;
    the minimum and maximum of [triangle_areas] are areas of triangles of the
    mesh and bound every triangle's area; [0 <= min <= mean <= max] and the
    standard deviation is not negative; the mean area times the triangle
    count is the surface area; the minimum and maximum of [edge_lengths]
    bound every edge; the surface-area-to-volume ratio is [None] exactly when
    the volume is 0 and otherwise times the volume gives the surface area. *)
Theorem statistics_distributions (m : Mesh) (self : STLTools) :
  holds m self -> m <> [] ->
  exists stats,
    outcome get_mesh_statistics self = Ok stats /\
    vertex_count stats = (3 * triangle_count stats)%nat /\
    (forall t, In t m ->
       d_min (triangle_areas stats) <= _calculate_triangle_area t
         <= d_max (triangle_areas stats)) /\
    (exists t, In t m /\ _calculate_triangle_area t = d_min (triangle_areas stats)) /\
    (exists t, In t m /\ _calculate_triangle_area t = d_max (triangle_areas stats)) /\
    0 <= d_min (triangle_areas stats) <= d_mean (triangle_areas stats) /\
    d_mean (triangle_areas stats) <= d_max (triangle_areas stats) /\
    0 <= d_std (triangle_areas stats) /\
    d_mean (triangle_areas stats) * INR (triangle_count stats) = surface_area stats /\
    (forall t e, In t m -> In e (triangle_edges t) ->
       d_min (edge_lengths stats) <= e <= d_max (edge_lengths stats)) /\
    (surface_area_to_volume_ratio stats = None <-> volume stats = 0) /\
    (forall r, surface_area_to_volume_ratio stats = Some r ->
       r * volume stats = surface_area stats).
Proof.
  intros H Hne.
  destruct (get_mesh_statistics_distributions m self H Hne)
    as (stats & da & de & E & Hda & Hde & <- & <- & Hc & Hv & Hsa & Hvol & Hr).
  exists stats. split; [exact E|].
  destruct (distribution_spec (map _calculate_triangle_area m)) as (da' & Hda' & A).
  { destruct m; [congruence|discriminate]. }
  rewrite Hda in Hda'. injection Hda' as <-.
  destruct (distribution_spec (flat_map triangle_edges m)) as (de' & Hde' & B).
  { destruct m; [congruence|discriminate]. }
  rewrite Hde in Hde'. injection Hde' as <-.
  destruct A as (Amin & Amax & Aall & Amean & Astd & Asum).
  destruct B as (_ & _ & Ball & _).
  split; [rewrite Hv, Hc; lia|].
  split; [intros t Ht; apply Aall, in_map, Ht|].
  split; [apply in_map_iff in Amin as (t & Et & Ht); exists t; auto|].
  split; [apply in_map_iff in Amax as (t & Et & Ht); exists t; auto|].
  split.
  { split; [|apply Amean].
    apply in_map_iff in Amin as (t & <- & _). apply triangle_area_nonneg. }
  split; [apply Amean|]. split; [exact Astd|].
  split.
  { rewrite Hc, Hsa. rewrite length_map in Asum. rewrite Asum.
    unfold total_area. apply fold_plus_areas. }
  split.
  { intros t e Ht He. apply Ball. apply in_flat_map. exists t. auto. }
  rewrite Hr, Hvol, Hsa.
  pose proof (Rabs_pos (signed_volume m)) as Hpos.
  destruct Rgt_dec as [Hgt|Hngt].
  - split; [split; [discriminate|lra]|].
    intros r [= <-]. field. lra.
  - split; [split; [lra|reflexivity]|]. discriminate.
Qed.

Lemma statistics_distributions_witness :
  exists stats,
    outcome get_mesh_statistics (loaded "cube.stl" create_test_cube) = Ok stats /\
    d_mean (triangle_areas stats) * INR (triangle_count stats) = surface_area stats.
Proof.
  destruct (statistics_distributions create_test_cube (loaded "cube.stl" create_test_cube)
              (loaded_holds _ _) ltac:(discriminate))
    as (stats & E & _ & _ & _ & _ & _ & _ & _ & Hmean & _).
  exists stats. split; [exact E|exact Hmean].
Defined.

(** *** The summary of the mesh *)

(** Property X19.  On a mesh with at least one triangle [get_mesh_info]
    returns the stored path, the number of triangles and the same bounding
    box, centre of mass, surface area and volume that the individual methods
    return; it keeps the mesh, and a second call returns the same
    summary. *)
Theorem get_mesh_info_agrees (m : Mesh) (self : STLTools) :
  holds m self -> m <> [] ->
  exists info,
    outcome get_mesh_info self = Ok info /\
    info_file_path info = file_path self /\
    info_triangle_count info = length m /\
    outcome get_bounding_box self = Ok (info_bounding_box info) /\
    outcome get_center_of_mass self =
      Ok (V3 (nth 0 (info_center_of_mass info) 0) (nth 1 (info_center_of_mass info) 0)
             (nth 2 (info_center_of_mass info) 0)) /\
    outcome calculate_surface_area self = Ok (info_surface_area info) /\
    outcome calculate_volume self = Ok (info_volume info) /\
    mesh (after get_mesh_info self) = Some m /\
    outcome get_mesh_info (after get_mesh_info self) = Ok info.
Proof.
  intros H Hne.
  assert (Run : forall s, holds m s ->
            exists s' b, holds m s' /\ file_path s' = file_path s /\
              compute_bounds m = Ok b /\
              get_mesh_info s =
              (Ok (mkMeshInfo (file_path s) (length m) b
                     (tolist (np_mean_axis0 (reshape_vertices m)))
                     (total_area m) (Rabs (signed_volume m))), s')).
  { intros s Hs.
    destruct (get_bounding_box_holds m s Hs Hne) as (s1 & b & E1 & Hcb & H1).
    destruct (get_center_of_mass_holds m s1 H1) as (s2 & E2 & H2).
    destruct (calculate_surface_area_holds m s2 H2) as (s3 & E3 & H3).
    destruct (calculate_volume_holds m s3 H3) as (s4 & E4 & H4).
    assert (F1 : file_path s1 = file_path s).
    { revert E1. unfold get_bounding_box, _ensure_mesh_loaded, vectors.
      unfold bind, ret, raise, get, put, lift. rewrite (holds_mesh _ _ Hs). cbv beta iota.
      destruct (_cached_bounds s); [intros E0; apply (f_equal snd) in E0; cbn [snd] in E0; rewrite <- E0; reflexivity|].
      rewrite (holds_mesh _ _ Hs).
      destruct (np_min_axis0 (reshape_vertices m)); [|discriminate].
      destruct (np_max_axis0 (reshape_vertices m)); [|discriminate].
      intros E0. apply (f_equal snd) in E0. cbn [snd] in E0. rewrite <- E0. reflexivity. }
    assert (F2 : file_path s2 = file_path s1).
    { revert E2. unfold get_center_of_mass, _ensure_mesh_loaded, vectors.
      unfold bind, ret, raise, get, put. rewrite (holds_mesh _ _ H1). cbv beta iota.
      destruct (_cached_center_of_mass s1); intros E0; apply (f_equal snd) in E0; cbn [snd] in E0; rewrite <- E0; reflexivity. }
    assert (F3 : file_path s3 = file_path s2).
    { revert E3. unfold calculate_surface_area, _ensure_mesh_loaded, vectors.
      unfold bind, ret, raise, get, put. rewrite (holds_mesh _ _ H2). cbv beta iota.
      destruct (_cached_surface_area s2); intros E0; apply (f_equal snd) in E0; cbn [snd] in E0; rewrite <- E0; reflexivity. }
    assert (F4 : file_path s4 = file_path s3).
    { revert E4. unfold calculate_volume, _ensure_mesh_loaded, vectors.
      unfold bind, ret, raise, get, put. rewrite (holds_mesh _ _ H3). cbv beta iota.
      destruct (_cached_volume s3); intros E0; apply (f_equal snd) in E0; cbn [snd] in E0; rewrite <- E0; reflexivity. }
    exists s4, b. split; [exact H4|]. split; [congruence|]. split; [exact Hcb|].
    unfold get_mesh_info, _ensure_mesh_loaded, vectors.
    unfold bind, ret, raise, get.
    rewrite (holds_mesh _ _ Hs), E1. cbv beta iota. rewrite E2, E3, E4.
    rewrite (holds_mesh _ _ H1), F1. reflexivity. }
  destruct (Run self H) as (s' & b & H' & F & Hcb & E).
  destruct (Run s' H') as (s'' & b' & _ & _ & Hcb' & E').
  rewrite Hcb in Hcb'. injection Hcb' as <-.
  eexists. unfold outcome, after. rewrite E. cbn [fst snd].
  split; [reflexivity|].
  cbn [info_file_path info_triangle_count info_bounding_box info_center_of_mass
       info_surface_area info_volume tolist nth].
  destruct (get_bounding_box_holds m self H Hne) as (? & b1 & -> & Hcb1 & _).
  destruct (get_center_of_mass_holds m self H) as (? & -> & _).
  destruct (calculate_surface_area_holds m self H) as (? & -> & _).
  destruct (calculate_volume_holds m self H) as (? & -> & _).
  rewrite Hcb in Hcb1. injection Hcb1 as <-. cbn [fst].
  split; [reflexivity|]. split; [reflexivity|]. split; [reflexivity|].
  split; [unfold np_mean_axis0; reflexivity|].
  split; [reflexivity|]. split; [reflexivity|].
  split; [apply (holds_mesh _ _ H')|].
  rewrite E', F. reflexivity.
Qed.

Lemma get_mesh_info_agrees_witness :
  exists info,
    outcome get_mesh_info (loaded "cube.stl" create_test_cube) = Ok info /\
    info_triangle_count info = 12%nat.
Proof.
  destruct (get_mesh_info_agrees create_test_cube (loaded "cube.stl" create_test_cube)
              (loaded_holds _ _) ltac:(discriminate))
    as (info & E & _ & Hc & _).
  exists info. split; [exact E|exact Hc].
Defined.
End MeshLaws.

(** * Further properties of the session manager *)

Module SessionLaws.
Import Session SessionFacts.
Local Open Scope Z_scope.

(** *** Materialising an instance *)



Lemma get_stl_tools_first (from_file : list Byte.byte -> option STL.Mesh)
    (w : World) (session_id : string) (session : SessionInfo) :
  sessions (mgr w) !! session_id = Some session ->
  stl_instances (mgr w) !! session_id = None ->
  lru_find session_id (lru (mgr w)) = None ->
  get_stl_tools from_file session_id w =
  match load_file from_file (file_path session) (fs w) STL.__init__ with
  | (Ok _, obj) =>
      (Ok (Some (length (heap w))),
       mkWorld (hit (set_stl_instances
                       (<[ session_id := length (heap w) ]> (stl_instances (mgr w)))
                       (set_lru (take lru_maxsize
                                      ((session_id, Some (length (heap w))) :: lru (mgr w)))
                                (mgr w))))
               (heap w ++ [obj]) (fs w))
  | (Raise _, obj) =>
      (Ok None,
       mkWorld (miss (set_lru (take lru_maxsize ((session_id, None) :: lru (mgr w)))
                              (mgr w)))
               (heap w ++ [obj]) (fs w))
  end.
Proof.
  intros Hs Hi Hl.
  unfold get_stl_tools, _get_stl_tools_cached, _get_stl_tools_uncached.
  unfold bind, get, ret, put, on_mgr, modify.
  rewrite Hs, Hi, Hl, Hs.
  destruct (load_file from_file (file_path session) (fs w) STL.__init__) as [[b|e] obj];
    reflexivity.
Qed.

Lemma get_stl_tools_again (from_file : list Byte.byte -> option STL.Mesh)
    (w : World) (session_id : string) (session : SessionInfo) (r : ref) :
  sessions (mgr w) !! session_id = Some session ->
  stl_instances (mgr w) !! session_id = Some r ->
  get_stl_tools from_file session_id w =
  (Ok (Some r), mkWorld (hit (mgr w)) (heap w) (fs w)).
Proof.
  intros Hs Hi. unfold get_stl_tools, bind, get, ret, on_mgr, modify.
  rewrite Hs, Hi. reflexivity.
Qed.




(** *** Loading a file *)

(** Property X21.  [load_file] raises [FileNotFoundError] with the path in
    the message when the path does not exist, and [ValueError] when the path
    exists but cannot be parsed (a directory, or bytes the parser rejects);
    in both cases the object keeps the mesh and the cached values it had.
    When the bytes parse, it returns [True] and the object holds exactly the
    parsed mesh and the path, with every cached value dropped, whatever it
    held before; the next [calculate_volume] is that of the new mesh. *)
Theorem load_file_outcomes (from_file : list Byte.byte -> option STL.Mesh)
    (path : string) (fs : FS) (self : STL.STLTools) :
  (os_path_exists path fs = false ->
   load_file from_file path fs self =
   (Raise (FileNotFoundError ("File '" +:+ path +:+ "' not found.")), self)) /\
  (os_path_exists path fs = true ->
   (forall content, files fs !! path = Some content -> from_file content = None) ->
   exists msg, load_file from_file path fs self = (Raise (ValueError msg), self)) /\
  (forall content m,
     files fs !! path = Some content -> from_file content = Some m ->
     load_file from_file path fs self = (Ok true, STL.loaded path m) /\
     outcome STL.calculate_volume (STL.loaded path m)
     = Ok (Rabs (STL.signed_volume m)) /\
     outcome STL.calculate_surface_area (STL.loaded path m) = Ok (STL.total_area m)).
Proof.
  split; [|split].
  - intros Hex. unfold load_file. rewrite Hex. reflexivity.
  - intros Hex Hbad. unfold load_file. rewrite Hex. cbn [negb].
    destruct (files fs !! path) as [content|]; [|eexists; reflexivity].
    rewrite (Hbad content eq_refl). eexists; reflexivity.
  - intros content m Hf Hm. split; [|split].
    + unfold load_file, os_path_exists. rewrite Hf, Hm.
      rewrite (bool_decide_eq_true_2 (is_Some (Some content))) by eauto.
      rewrite orb_true_r. reflexivity.
    + destruct (MeshFacts.calculate_volume_holds m _ (MeshFacts.loaded_holds path m))
        as (s1 & E & _).
      unfold outcome. rewrite E. reflexivity.
    + destruct (MeshFacts.calculate_surface_area_holds m _ (MeshFacts.loaded_holds path m))
        as (s1 & E & _).
      unfold outcome. rewrite E. reflexivity.
Qed.

(** *** Failed loads *)


Lemma get_stl_tools_replay (from_file : list Byte.byte -> option STL.Mesh)
    (w : World) (session_id : string) (session : SessionInfo) :
  sessions (mgr w) !! session_id = Some session ->
  stl_instances (mgr w) !! session_id = None ->
  lru_find session_id (lru (mgr w)) = Some None ->
  get_stl_tools from_file session_id w =
  (Ok None,
   mkWorld (miss (set_lru ((session_id, None) :: lru_remove session_id (lru (mgr w)))
                          (mgr w)))
           (heap w) (fs w)).
Proof.
  intros Hs Hi Hl.
  unfold get_stl_tools, _get_stl_tools_cached.
  unfold bind, get, ret, put, on_mgr, modify.
  rewrite Hs, Hi, Hl. reflexivity.
Qed.

Lemma delete_session_blocked (w : World) (session_id : string) (session : SessionInfo) :
  sessions (mgr w) !! session_id = Some session ->
  os_path_exists (session_dir session) (fs w) = true ->
  session_dir session ∈ undeletable (fs w) ->
  delete_session session_id w =
  (Ok false,
   mkWorld (set_lru [] (set_stl_instances (delete session_id (stl_instances (mgr w)))
                                          (mgr w)))
           (heap w) (fs w)).
Proof.
  intros Hs Hex Hun.
  unfold delete_session, bind, get, ret, try_except, on_mgr, on_fs,
    cache_clear, modify, lift, shutil_rmtree.
  rewrite Hs. cbn. rewrite Hex. cbn.
  rewrite (bool_decide_eq_true_2 _ Hun). reflexivity.
Qed.

Lemma delete_session_done (w : World) (session_id : string) (session : SessionInfo) :
  sessions (mgr w) !! session_id = Some session ->
  os_path_exists (session_dir session) (fs w) = false
  \/ session_dir session ∉ undeletable (fs w) ->
  delete_session session_id w =
  (Ok true,
   mkWorld (without_session session_id (mgr w)) (heap w)
           (if os_path_exists (session_dir session) (fs w)
            then remove_tree (session_dir session) (fs w) else fs w)).
Proof.
  intros Hs Hok.
  unfold delete_session, bind, get, ret, try_except, on_mgr, on_fs,
    cache_clear, modify, lift, shutil_rmtree.
  rewrite Hs. cbn.
  destruct (os_path_exists (session_dir session) (fs w)) eqn:Hex; cbn; rewrite ?Hex.
  - destruct Hok as [Hok|Hok]; [discriminate|].
    rewrite (bool_decide_eq_false_2 _ Hok). reflexivity.
  - reflexivity.
Qed.




(** *** Deleting a session *)





(** *** The sweep of expired sessions *)

Lemma delete_session_total (session_id : string) (w : World) :
  exists b, delete_session session_id w = (Ok b, after (delete_session session_id) w).
Proof.
  unfold after.
  destruct (sessions (mgr w) !! session_id) as [session|] eqn:Hs.
  - destruct (os_path_exists (session_dir session) (fs w)) eqn:Hex;
      [destruct (decide (session_dir session ∈ undeletable (fs w))) as [Hun|Hun]|].
    + rewrite (delete_session_blocked w session_id session Hs Hex Hun). eauto.
    + rewrite (delete_session_done w session_id session Hs (or_intror Hun)). eauto.
    + rewrite (delete_session_done w session_id session Hs (or_introl Hex)). eauto.
  - rewrite (delete_session_absent session_id w Hs). eauto.
Qed.

Lemma cleanup_fold (ids : list string) : forall (acc : M World unit) (w w0 : World),
  acc w = (Ok tt, w0) ->
  fold_left (fun acc session_id =>
               bind acc (fun _ => bind (delete_session session_id) (fun _ => ret tt)))
            ids acc w
  = (Ok tt, fold_left (fun w session_id => after (delete_session session_id) w) ids w0).
Proof.
  induction ids as [|session_id ids IH]; intros acc w w0 Hacc; cbn [fold_left].
  - exact Hacc.
  - apply IH. unfold bind at 1. rewrite Hacc. unfold bind.
    destruct (delete_session_total session_id w0) as (b & ->). reflexivity.
Qed.

Lemma cleanup_expired_sessions_run (current_time : Z) (w : World) :
  cleanup_expired_sessions current_time w =
  (Ok (length (expired_sessions current_time (mgr w))),
   fold_left (fun w session_id => after (delete_session session_id) w)
             (expired_sessions current_time (mgr w)) w).
Proof.
  unfold cleanup_expired_sessions. unfold bind at 1. unfold get at 1.
  unfold bind at 1.
  rewrite (cleanup_fold (expired_sessions current_time (mgr w)) (ret tt) w w eq_refl).
  reflexivity.
Qed.

Lemma delete_session_unblocked (w : World) (session_id : string) (session : SessionInfo) :
  sessions (mgr w) !! session_id = Some session ->
  undeletable (fs w) = ∅ ->
  after (delete_session session_id) w =
  mkWorld (without_session session_id (mgr w)) (heap w)
          (if os_path_exists (session_dir session) (fs w)
           then remove_tree (session_dir session) (fs w) else fs w).
Proof.
  intros Hs Hun. unfold after. rewrite (delete_session_done w session_id session Hs).
  - reflexivity.
  - right. rewrite Hun. apply not_elem_of_empty.
Qed.

Lemma lookup_fold_delete {A} (ids : list string) : forall (m : gmap string A) session_id,
  fold_left (fun m session_id => delete session_id m) ids m !! session_id
  = if decide (session_id ∈ ids) then None else m !! session_id.
Proof.
  induction ids as [|x ids IH]; intros m session_id; cbn [fold_left].
  - destruct (decide (session_id ∈ [])) as [H|H]; [|reflexivity].
    apply elem_of_nil in H. contradiction.
  - rewrite IH.
    destruct (decide (session_id ∈ ids)) as [H|H].
    + rewrite decide_True by (right; exact H). reflexivity.
    + destruct (decide (session_id = x)) as [->|Hne].
      * rewrite decide_True by left. apply lookup_delete_eq.
      * rewrite decide_False by (intros [?|?]%elem_of_cons; contradiction).
        apply lookup_delete_ne. congruence.
Qed.

Lemma deletes_effect (ids : list string) : forall (w : World),
  undeletable (fs w) = ∅ -> base.NoDup ids ->
  (forall session_id, session_id ∈ ids -> is_Some (sessions (mgr w) !! session_id)) ->
  let w' := fold_left (fun w session_id => after (delete_session session_id) w) ids w in
  undeletable (fs w') = ∅ /\ heap w' = heap w /\
  sessions (mgr w') = fold_left (fun m session_id => delete session_id m) ids
                                (sessions (mgr w)) /\
  stl_instances (mgr w') = fold_left (fun m session_id => delete session_id m) ids
                                     (stl_instances (mgr w)) /\
  session_timeout (mgr w') = session_timeout (mgr w) /\
  max_sessions (mgr w') = max_sessions (mgr w) /\
  upload_dir (mgr w') = upload_dir (mgr w) /\
  cache_hits (mgr w') = cache_hits (mgr w) /\
  cache_misses (mgr w') = cache_misses (mgr w).
Proof.
  induction ids as [|x ids IH]; intros w Hun Hnd Hin; cbn [fold_left].
  - cbv zeta. repeat split; try reflexivity. exact Hun.
  - inversion Hnd as [|? ? Hx Hnd']; subst. clear Hnd. rename Hnd' into Hnd.
    destruct (Hin x ltac:(left)) as [session Hs].
    rewrite (delete_session_unblocked w x session Hs Hun).
    set (w1 := mkWorld _ _ _).
    destruct (IH w1) as (U & Hh & S1 & S2 & T & Mx & Up & Ch & Cm).
    + unfold w1. cbn [fs]. destruct (os_path_exists _ _); exact Hun.
    + exact Hnd.
    + intros y Hy. unfold w1. cbn. rewrite lookup_delete_ne; [apply Hin; right; exact Hy|].
      intros ->. contradiction.
    + cbv zeta. rewrite U, Hh, S1, S2, T, Mx, Up, Ch, Cm. repeat split; reflexivity.
Qed.

Lemma NoDup_map_fst_filter {A B} (f : A * B -> bool) (l : list (A * B)) :
  base.NoDup (l.*1) -> base.NoDup (map fst (List.filter f l)).
Proof.
  induction l as [|x l IH]; intros H; cbn; [constructor|].
  cbn in H. inversion H as [|? ? Hx H']; subst.
  destruct (f x); [|apply IH, H'].
  cbn. constructor; [|apply IH, H'].
  intros Hin. apply Hx.
  apply list_elem_of_In in Hin.
  apply in_map_iff in Hin as (y & Hy & Hf). apply filter_In in Hf as [Hf _].
  apply list_elem_of_fmap. exists y. split; [auto|]. apply list_elem_of_In, Hf.
Qed.

Lemma expired_sessions_NoDup (current_time : Z) (m : SessionManager) :
  base.NoDup (expired_sessions current_time m).
Proof.
  unfold expired_sessions. apply NoDup_map_fst_filter. apply NoDup_fst_map_to_list.
Qed.

Lemma elem_of_expired_sessions (current_time : Z) (m : SessionManager) (session_id : string) :
  session_id ∈ expired_sessions current_time m <->
  exists session, sessions m !! session_id = Some session /\
                  session_timeout m < current_time - last_accessed session.
Proof.
  unfold expired_sessions. rewrite list_elem_of_In, in_map_iff. split.
  - intros ([k session] & <- & Hf). apply filter_In in Hf as [Hin Hlt].
    apply list_elem_of_In, elem_of_map_to_list in Hin.
    exists session. split; [exact Hin|]. apply Z.ltb_lt in Hlt. exact Hlt.
  - intros (session & Hs & Hlt). exists (session_id, session). split; [reflexivity|].
    apply filter_In. split.
    + apply list_elem_of_In, elem_of_map_to_list. exact Hs.
    + apply Z.ltb_lt. exact Hlt.
Qed.

Lemma cleanup_expired_sessions_effect (current_time : Z) (w : World) :
  undeletable (fs w) = ∅ ->
  let w' := after (cleanup_expired_sessions current_time) w in
  undeletable (fs w') = ∅ /\ heap w' = heap w /\
  session_timeout (mgr w') = session_timeout (mgr w) /\
  max_sessions (mgr w') = max_sessions (mgr w) /\
  upload_dir (mgr w') = upload_dir (mgr w) /\
  (forall session_id,
     sessions (mgr w') !! session_id =
     match sessions (mgr w) !! session_id with
     | Some session =>
         if Z.ltb (session_timeout (mgr w)) (current_time - last_accessed session)
         then None else Some session
     | None => None
     end) /\
  (forall session_id session,
     sessions (mgr w) !! session_id = Some session ->
     stl_instances (mgr w') !! session_id =
     if Z.ltb (session_timeout (mgr w)) (current_time - last_accessed session)
     then None else stl_instances (mgr w) !! session_id).
Proof.
  intros Hun. cbv zeta. unfold after.
  rewrite cleanup_expired_sessions_run. cbn [snd].
  destruct (deletes_effect (expired_sessions current_time (mgr w)) w Hun
              (expired_sessions_NoDup _ _)) as (U & Hh & S1 & S2 & T & Mx & Up & _).
  { intros session_id Hin. apply elem_of_expired_sessions in Hin as (s & Hs & _). eauto. }
  split; [exact U|]. split; [exact Hh|]. split; [exact T|]. split; [exact Mx|].
  split; [exact Up|]. split.
  - intros session_id. rewrite S1, lookup_fold_delete.
    destruct (decide (session_id ∈ expired_sessions current_time (mgr w))) as [Hin|Hout].
    + apply elem_of_expired_sessions in Hin as (s & -> & Hlt).
      apply Z.ltb_lt in Hlt. rewrite Hlt. reflexivity.
    + destruct (sessions (mgr w) !! session_id) as [s|] eqn:Hs; [|reflexivity].
      destruct (Z.ltb_spec (session_timeout (mgr w)) (current_time - last_accessed s));
        [|reflexivity].
      exfalso. apply Hout. apply elem_of_expired_sessions. eauto.
  - intros session_id session Hs. rewrite S2, lookup_fold_delete.
    destruct (decide (session_id ∈ expired_sessions current_time (mgr w))) as [Hin|Hout].
    + apply elem_of_expired_sessions in Hin as (s & Hs' & Hlt).
      rewrite Hs in Hs'. injection Hs' as <-.
      apply Z.ltb_lt in Hlt. rewrite Hlt. reflexivity.
    + destruct (Z.ltb_spec (session_timeout (mgr w)) (current_time - last_accessed session));
        [|reflexivity].
      exfalso. apply Hout. apply elem_of_expired_sessions. eauto.
Qed.

(** Property X24.  [cleanup_expired_sessions] returns the number of
    sessions it found expired (idle for longer than the timeout), whether or
    not their deletion succeeded.  When no directory resists removal, it
    removes exactly those sessions and their materialised instances and
    keeps every other session, with its instance, as it was; a second sweep
    at the same time finds nothing and changes nothing. *)
Theorem cleanup_removes_the_expired (current_time : Z) (w : World) :
  outcome (cleanup_expired_sessions current_time) w
    = Ok (length (expired_sessions current_time (mgr w))) /\
  (undeletable (fs w) = ∅ ->
   let w' := after (cleanup_expired_sessions current_time) w in
   heap w' = heap w /\
   (forall session_id,
      sessions (mgr w') !! session_id =
      match sessions (mgr w) !! session_id with
      | Some session =>
          if Z.ltb (session_timeout (mgr w)) (current_time - last_accessed session)
          then None else Some session
      | None => None
      end) /\
   (forall session_id session,
      sessions (mgr w) !! session_id = Some session ->
      stl_instances (mgr w') !! session_id =
      if Z.ltb (session_timeout (mgr w)) (current_time - last_accessed session)
      then None else stl_instances (mgr w) !! session_id) /\
   cleanup_expired_sessions current_time w' = (Ok 0%nat, w')).
Proof.
  split.
  - unfold outcome. rewrite cleanup_expired_sessions_run. reflexivity.
  - intros Hun. cbv zeta.
    destruct (cleanup_expired_sessions_effect current_time w Hun)
      as (_ & Hh & T & _ & _ & S1 & S2).
    split; [exact Hh|]. split; [exact S1|]. split; [exact S2|].
    apply cleanup_expired_sessions_none.
    intros sid s Hs. rewrite S1 in Hs. rewrite T.
    destruct (sessions (mgr w) !! sid) as [s0|]; [|discriminate].
    destruct (Z.ltb_spec (session_timeout (mgr w)) (current_time - last_accessed s0));
      [discriminate|].
    injection Hs as <-. lia.
Qed.

Lemma cleanup_removes_the_expired_witness :
  let w := after (create_session 0 0 "a" example_content "a.stl")
                 (__init__ "/up" 3600 10 (mkFS ∅ ∅ ∅)) in
  sessions (mgr (after (cleanup_expired_sessions 4000) w)) !! "a"%string = None.
Proof.
  intros w.
  destruct (cleanup_removes_the_expired 4000 w) as (_ & H).
  destruct (H eq_refl) as (_ & Hs & _).
  rewrite (Hs "a"%string). vm_compute. reflexivity.
Defined.

(** *** Creating a session in a full store *)






(** *** Listing the sessions *)

Lemma get_session_info_present (now : Z) (session_id : string) (session : SessionInfo)
    (w : World) :
  sessions (mgr w) !! session_id = Some session ->
  get_session_info now session_id w =
  (Ok (Some (mkSessionSummary session_id (filename session) (file_size session)
                              (upload_time session) now)),
   mkWorld (set_sessions
              (<[ session_id := mkSessionInfo (filename session) (file_path session)
                                              (file_size session) (upload_time session)
                                              now (session_dir session) ]>
                 (sessions (mgr w))) (mgr w))
           (heap w) (fs w)).
Proof.
  intros Hs. unfold get_session_info, get_session, bind, get, ret, on_mgr, modify.
  rewrite Hs. reflexivity.
Qed.

Lemma get_session_info_absent (now : Z) (session_id : string) (w : World) :
  sessions (mgr w) !! session_id = None ->
  get_session_info now session_id w = (Ok None, w).
Proof.
  intros Hs. unfold get_session_info, get_session, bind, get, ret.
  rewrite Hs. reflexivity.
Qed.

Lemma list_sessions_fold (now : string -> Z) (kvs : list (string * SessionInfo)) :
  forall (acc : M World (list (string * option SessionSummary))) (w w0 : World) listed,
  base.NoDup (kvs.*1) ->
  (forall k session, (k, session) ∈ kvs -> sessions (mgr w0) !! k = Some session) ->
  acc w = (Ok listed, w0) ->
  fold_left (fun acc session_id =>
               bind acc (fun listed =>
               bind (get_session_info (now session_id) session_id) (fun info =>
               ret (listed ++ [(session_id, info)]))))
            (map fst kvs) acc w
  = (Ok (listed ++
         map (fun kv => (fst kv,
                         Some (mkSessionSummary (fst kv) (filename (snd kv))
                                 (file_size (snd kv)) (upload_time (snd kv))
                                 (now (fst kv)))))
             kvs),
     mkWorld (set_sessions
                (fold_left (fun m kv =>
                              <[ fst kv := mkSessionInfo (filename (snd kv))
                                             (file_path (snd kv)) (file_size (snd kv))
                                             (upload_time (snd kv)) (now (fst kv))
                                             (session_dir (snd kv)) ]> m)
                           kvs (sessions (mgr w0)))
                (mgr w0))
             (heap w0) (fs w0)).
Proof.
  induction kvs as [|[k session] kvs IH]; intros acc w w0 listed Hnd Hin Hacc.
  - cbn [map fold_left]. rewrite Hacc, app_nil_r.
    destruct w0 as [[] ? ?]. reflexivity.
  - cbn [map fold_left fst snd].
    cbn in Hnd. inversion Hnd as [|? ? Hk Hnd']; subst.
    pose proof (Hin k session ltac:(left)) as Hs.
    set (w1 := mkWorld (set_sessions
                          (<[ k := mkSessionInfo (filename session) (file_path session)
                                     (file_size session) (upload_time session) (now k)
                                     (session_dir session) ]> (sessions (mgr w0)))
                          (mgr w0)) (heap w0) (fs w0)).
    rewrite (IH _ w w1
               (listed ++ [(k, Some (mkSessionSummary k (filename session)
                                       (file_size session) (upload_time session)
                                       (now k)))])).
    + rewrite <- app_assoc. reflexivity.
    + exact Hnd'.
    + intros k' session' Hin'. unfold w1. cbn.
      rewrite lookup_insert_ne; [apply Hin; right; exact Hin'|].
      intros ->. apply Hk. apply list_elem_of_fmap. exists (k', session'). auto.
    + unfold bind at 1. rewrite Hacc. unfold bind at 1.
      rewrite (get_session_info_present (now k) k session w0 Hs). reflexivity.
Qed.

Lemma lookup_fold_touch (now : string -> Z) (kvs : list (string * SessionInfo)) :
  forall (m : gmap string SessionInfo) (session_id : string) (session : SessionInfo),
  base.NoDup (kvs.*1) ->
  (session_id, session) ∈ kvs ->
  fold_left (fun m kv =>
               <[ fst kv := mkSessionInfo (filename (snd kv)) (file_path (snd kv))
                              (file_size (snd kv)) (upload_time (snd kv)) (now (fst kv))
                              (session_dir (snd kv)) ]> m) kvs m !! session_id
  = Some (mkSessionInfo (filename session) (file_path session) (file_size session)
                        (upload_time session) (now session_id) (session_dir session)).
Proof.
  assert (Hout : forall kvs (m : gmap string SessionInfo) session_id,
            session_id ∉ kvs.*1 ->
            fold_left (fun m kv =>
               <[ fst kv := mkSessionInfo (filename (snd kv)) (file_path (snd kv))
                              (file_size (snd kv)) (upload_time (snd kv)) (now (fst kv))
                              (session_dir (snd kv)) ]> m) kvs m !! session_id
            = m !! session_id).
  { clear. induction kvs as [|[k s] kvs IH]; intros m session_id Hn; [reflexivity|].
    cbn [fold_left fst snd]. cbn in Hn. apply not_elem_of_cons in Hn as [Hne Hn].
    rewrite IH by exact Hn. apply lookup_insert_ne. congruence. }
  induction kvs as [|[k s] kvs IH]; intros m session_id session Hnd Hin.
  - apply elem_of_nil in Hin. contradiction.
  - cbn in Hnd. inversion Hnd as [|? ? Hk Hnd']; subst.
    cbn [fold_left fst snd].
    apply elem_of_cons in Hin as [[= -> ->]|Hin].
    + rewrite Hout by exact Hk. apply lookup_insert_eq.
    + apply IH; assumption.
Qed.

Lemma lookup_fold_touch_absent (now : string -> Z) (kvs : list (string * SessionInfo)) :
  forall (m : gmap string SessionInfo) (session_id : string),
  session_id ∉ kvs.*1 ->
  fold_left (fun m kv =>
               <[ fst kv := mkSessionInfo (filename (snd kv)) (file_path (snd kv))
                              (file_size (snd kv)) (upload_time (snd kv)) (now (fst kv))
                              (session_dir (snd kv)) ]> m) kvs m !! session_id
  = m !! session_id.
Proof.
  induction kvs as [|[k s] kvs IH]; intros m session_id Hn; [reflexivity|].
  cbn [fold_left fst snd]. cbn in Hn. apply not_elem_of_cons in Hn as [Hne Hn].
  rewrite IH by exact Hn. apply lookup_insert_ne. congruence.
Qed.

(** Property X26.  [list_sessions] never raises and returns one entry per
    recorded session, with the session's name, size and upload time.  It
    counts as an access to every session: afterwards each session's
    [last_accessed] is the clock reading of the listing, and nothing else in
    the store has changed.  Hence a sweep at a time when no such reading is
    older than the timeout removes nothing, however long the sessions had
    been idle before the listing. *)
Theorem list_sessions_touches_every_session (now : string -> Z) (w : World) :
  let w' := after (list_sessions now) w in
  outcome (list_sessions now) w =
    Ok (map (fun kv => (fst kv,
                        Some (mkSessionSummary (fst kv) (filename (snd kv))
                                (file_size (snd kv)) (upload_time (snd kv))
                                (now (fst kv)))))
            (map_to_list (sessions (mgr w)))) /\
  (forall session_id,
     sessions (mgr w') !! session_id =
     match sessions (mgr w) !! session_id with
     | Some session =>
         Some (mkSessionInfo (filename session) (file_path session) (file_size session)
                             (upload_time session) (now session_id) (session_dir session))
     | None => None
     end) /\
  heap w' = heap w /\ fs w' = fs w /\
  stl_instances (mgr w') = stl_instances (mgr w) /\
  lru (mgr w') = lru (mgr w) /\
  cache_hits (mgr w') = cache_hits (mgr w) /\
  cache_misses (mgr w') = cache_misses (mgr w) /\
  (forall current_time,
     (forall session_id, is_Some (sessions (mgr w) !! session_id) ->
                         current_time - now session_id <= session_timeout (mgr w)) ->
     cleanup_expired_sessions current_time w' = (Ok 0%nat, w')).
Proof.
  cbv zeta.
  assert (E : list_sessions now w =
    (Ok (map (fun kv => (fst kv,
                         Some (mkSessionSummary (fst kv) (filename (snd kv))
                                 (file_size (snd kv)) (upload_time (snd kv))
                                 (now (fst kv)))))
             (map_to_list (sessions (mgr w)))),
     mkWorld (set_sessions
                (fold_left (fun m kv =>
                              <[ fst kv := mkSessionInfo (filename (snd kv))
                                             (file_path (snd kv)) (file_size (snd kv))
                                             (upload_time (snd kv)) (now (fst kv))
                                             (session_dir (snd kv)) ]> m)
                           (map_to_list (sessions (mgr w))) (sessions (mgr w)))
                (mgr w))
             (heap w) (fs w))).
  { unfold list_sessions. unfold bind at 1. unfold get at 1.
    apply (list_sessions_fold now (map_to_list (sessions (mgr w))) (ret []) w w []).
    - apply NoDup_fst_map_to_list.
    - intros k session Hin. apply elem_of_map_to_list in Hin. exact Hin.
    - reflexivity. }
  assert (L : forall session_id,
     sessions (mgr (after (list_sessions now) w)) !! session_id =
     match sessions (mgr w) !! session_id with
     | Some session =>
         Some (mkSessionInfo (filename session) (file_path session) (file_size session)
                             (upload_time session) (now session_id) (session_dir session))
     | None => None
     end).
  { intros session_id. unfold after. rewrite E. cbn [snd mgr sessions set_sessions].
    destruct (sessions (mgr w) !! session_id) as [session|] eqn:Hs.
    - apply lookup_fold_touch; [apply NoDup_fst_map_to_list|].
      apply elem_of_map_to_list. exact Hs.
    - rewrite lookup_fold_touch_absent; [exact Hs|].
      intros Hin. apply list_elem_of_fmap in Hin as ([k s] & -> & Hin).
      apply elem_of_map_to_list in Hin. cbn in Hs. congruence. }
  split; [unfold outcome; rewrite E; reflexivity|].
  split; [exact L|].
  unfold after in *. rewrite E in *. cbn [snd mgr heap fs] in *.
  repeat (split; [reflexivity|]).
  intros current_time Hfresh.
  apply cleanup_expired_sessions_none.
  intros sid s Hs. cbn [mgr] in Hs. rewrite L in Hs.
  destruct (sessions (mgr w) !! sid) as [s0|] eqn:Hs0; [|discriminate].
  injection Hs as <-. cbn. apply Hfresh. rewrite Hs0. eauto.
Qed.

(** *** Statistics *)

Lemma count_session_fold (timeout current_time : Z) (l : list SessionInfo) :
  forall counts,
  fold_left (count_session timeout current_time) l counts =
  ((fst counts
    + length (List.filter (fun s => negb (Z.ltb timeout (current_time - last_accessed s))) l))%nat,
   (snd counts
    + length (List.filter (fun s => Z.ltb timeout (current_time - last_accessed s)) l))%nat).
Proof.
  induction l as [|s l IH]; intros [a e]; cbn [fold_left List.filter fst snd length].
  - f_equal; lia.
  - rewrite IH. unfold count_session. cbn [fst snd].
    destruct (Z.ltb timeout (current_time - last_accessed s)); cbn [negb fst snd length];
      f_equal; lia.
Qed.

Lemma length_filter_snd {A B} (f : B -> bool) (l : list (A * B)) :
  length (List.filter f (map snd l)) = length (List.filter (fun kv => f (snd kv)) l).
Proof.
  induction l as [|x l IH]; [reflexivity|]. cbn.
  destruct (f (snd x)); cbn; rewrite IH; reflexivity.
Qed.

Lemma length_filter_partition {A} (f : A -> bool) (l : list A) :
  (length (List.filter (fun x => negb (f x)) l) + length (List.filter f l) = length l)%nat.
Proof.
  induction l as [|x l IH]; [reflexivity|]. cbn.
  destruct (f x); cbn; lia.
Qed.

(** Property X27.  [get_stats] never raises and changes nothing: it does not
    count as an access and removes no session.  In its result the total is
    the number of recorded sessions and the sum of the active and the
    expired ones; the expired count is the number a sweep at the same time
    would report; the hit rate lies between 0 and 1, is 0 before any lookup
    and otherwise is hits over hits plus misses. *)
Theorem get_stats_consistent (time_time : Z) (w : World) :
  exists st,
    get_stats time_time w = (Ok st, w) /\
    stats_total_sessions st = size (sessions (mgr w)) /\
    stats_total_sessions st = (stats_active_sessions st + stats_expired_sessions st)%nat /\
    outcome (cleanup_expired_sessions time_time) w = Ok (stats_expired_sessions st) /\
    stats_stl_instances_cached st = size (stl_instances (mgr w)) /\
    (0 <= stats_cache_hit_rate st <= 1)%R /\
    ((cache_hits (mgr w) + cache_misses (mgr w) = 0)%nat -> stats_cache_hit_rate st = 0%R) /\
    ((cache_hits (mgr w) + cache_misses (mgr w) > 0)%nat ->
     (stats_cache_hit_rate st * INR (cache_hits (mgr w) + cache_misses (mgr w))
      = INR (cache_hits (mgr w)))%R) /\
    (stats_total_size_mb st * 1048576 = INR (stats_total_size_bytes st))%R.
Proof.
  eexists. split; [reflexivity|].
  cbn [stats_total_sessions stats_active_sessions stats_expired_sessions
       stats_stl_instances_cached stats_cache_hit_rate
       stats_total_size_mb stats_total_size_bytes].
  rewrite count_session_fold. cbn [fst snd]. rewrite !Nat.add_0_l.
  split; [reflexivity|]. split.
  { rewrite length_filter_partition, length_map.
    rewrite <- length_map_to_list. reflexivity. }
  split.
  { unfold outcome. rewrite cleanup_expired_sessions_run. cbn [fst].
    unfold expired_sessions. rewrite length_map.
    rewrite (length_filter_snd
               (fun s => Z.ltb (session_timeout (mgr w)) (time_time - last_accessed s))).
    reflexivity. }
  split; [reflexivity|].
  set (h := cache_hits (mgr w)). set (ms := cache_misses (mgr w)).
  assert (Hden : (1 <= INR (Nat.max 1 (h + ms)))%R).
  { change 1%R with (INR 1). apply le_INR. lia. }
  assert (Hh : (0 <= INR h)%R) by apply pos_INR.
  assert (Hle : (INR h <= INR (Nat.max 1 (h + ms)))%R) by (apply le_INR; lia).
  split; [|split; [|split]].
  - split.
    + apply Rmult_le_pos; [exact Hh|]. apply Rlt_le, Rinv_0_lt_compat. lra.
    + apply (Rmult_le_reg_r (INR (Nat.max 1 (h + ms)))); [lra|].
      unfold Rdiv. rewrite Rmult_assoc, Rinv_l by lra. lra.
  - intros H0. assert (h = 0)%nat as -> by lia. unfold Rdiv. cbn [INR]. ring.
  - intros Hpos. replace (Nat.max 1 (h + ms)) with (h + ms)%nat by lia.
    assert (0 < INR (h + ms))%R by (apply lt_0_INR; lia).
    field. lra.
  - field.
Qed.

(** *** Looking up the instance is not an access *)

(** Property X28.  [get_stl_tools] never raises and never touches the
    session records or the file system, whether it finds the session, its
    instance, a remembered result or loads the file: in particular it does
    not refresh [last_accessed], so the sessions a sweep would find expired
    are the same before and after.  It counts exactly one hit or one miss:
    a hit when it returns an instance and a miss when it returns [None]. *)
Theorem get_stl_tools_is_not_an_access (from_file : list Byte.byte -> option STL.Mesh)
    (session_id : string) (w : World) :
  let w' := after (get_stl_tools from_file session_id) w in
  sessions (mgr w') = sessions (mgr w) /\
  fs w' = fs w /\
  session_timeout (mgr w') = session_timeout (mgr w) /\
  (forall current_time,
     expired_sessions current_time (mgr w') = expired_sessions current_time (mgr w)) /\
  exists r,
    outcome (get_stl_tools from_file session_id) w = Ok r /\
    match r with
    | Some _ => cache_hits (mgr w') = S (cache_hits (mgr w))
                /\ cache_misses (mgr w') = cache_misses (mgr w)
    | None => cache_hits (mgr w') = cache_hits (mgr w)
              /\ cache_misses (mgr w') = S (cache_misses (mgr w))
    end.
Proof.
  cbv zeta.
  assert (H : sessions (mgr (after (get_stl_tools from_file session_id) w))
              = sessions (mgr w) /\
              fs (after (get_stl_tools from_file session_id) w) = fs w /\
              session_timeout (mgr (after (get_stl_tools from_file session_id) w))
              = session_timeout (mgr w) /\
              exists r,
                outcome (get_stl_tools from_file session_id) w = Ok r /\
                match r with
                | Some _ =>
                    cache_hits (mgr (after (get_stl_tools from_file session_id) w))
                    = S (cache_hits (mgr w))
                    /\ cache_misses (mgr (after (get_stl_tools from_file session_id) w))
                       = cache_misses (mgr w)
                | None =>
                    cache_hits (mgr (after (get_stl_tools from_file session_id) w))
                    = cache_hits (mgr w)
                    /\ cache_misses (mgr (after (get_stl_tools from_file session_id) w))
                       = S (cache_misses (mgr w))
                end).
  { unfold outcome, after, get_stl_tools, _get_stl_tools_cached, _get_stl_tools_uncached.
    unfold bind, get, ret, put, on_mgr, modify.
    destruct (sessions (mgr w) !! session_id) as [session|] eqn:Hs; cbn.
    - destruct (stl_instances (mgr w) !! session_id) as [r|]; cbn.
      + repeat split; eexists; split; [reflexivity|]; split; reflexivity.
      + destruct (lru_find session_id (lru (mgr w))) as [[r|]|]; cbn.
        * repeat split; eexists; split; [reflexivity|]; split; reflexivity.
        * repeat split; eexists; split; [reflexivity|]; split; reflexivity.
        * rewrite Hs.
          destruct (load_file from_file (file_path session) (fs w) STL.__init__)
            as [[b|e] obj]; cbn;
            repeat split; eexists; split; [reflexivity| |reflexivity|]; split; reflexivity.
    - repeat split; eexists; split; [reflexivity|]; split; reflexivity. }
  destruct H as (Hs & Hf & Ht & Hr).
  split; [exact Hs|]. split; [exact Hf|]. split; [exact Ht|]. split; [|exact Hr].
  intros current_time. unfold expired_sessions. rewrite Hs, Ht. reflexivity.
Qed.

(** *** Sessions with plain names *)

(** Property X29.  Two sessions created one after the other under distinct
    plain identifiers (no separator, as [uuid4] gives), the second with a
    plain file name: when deleting the first succeeds, the record of the
    second and its stored bytes are untouched, whatever the file name of the
    first was. *)
Theorem plain_names_keep_sessions_apart (w : World) (ta na tb nb : Z) (a b : string)
    (content_a content_b : list Byte.byte) (name_a name_b : string) :
  plain a -> plain b -> a <> b -> plain name_b ->
  Z.of_nat (size (sessions (mgr w))) + 1 < max_sessions (mgr w) ->
  let w1 := after (create_session ta na a content_a name_a) w in
  let w2 := after (create_session tb nb b content_b name_b) w1 in
  let w3 := after (delete_session a) w2 in
  let dir_b := os_path_join (upload_dir (mgr w)) b in
  let path_b := os_path_join dir_b name_b in
  outcome (delete_session a) w2 = Ok true ->
  outcome (create_session tb nb b content_b name_b) w1 = Ok (b, path_b) /\
  sessions (mgr w3) !! a = None /\
  sessions (mgr w3) !! b
    = Some (mkSessionInfo name_b path_b (length content_b) nb nb dir_b) /\
  files (fs w3) !! path_b = Some content_b.
Proof.
  intros Ha Hb Hab Hn Hcap. cbv zeta.
  pose proof (create_session_below ta na a content_a name_a w ltac:(lia)) as E1.
  cbv zeta in E1.
  set (w1 := mkWorld _ (heap w) _) in E1.
  assert (A1 : after (create_session ta na a content_a name_a) w = w1)
    by (unfold after; rewrite E1; reflexivity).
  rewrite A1.
  assert (Hsz : Z.of_nat (size (sessions (mgr w1))) < max_sessions (mgr w1)).
  { unfold w1. cbn. rewrite map_size_insert.
    destruct (sessions (mgr w) !! a); unfold Datatypes.id; lia. }
  pose proof (create_session_below tb nb b content_b name_b w1 Hsz) as E2.
  cbv zeta in E2.
  change (upload_dir (mgr w1)) with (upload_dir (mgr w)) in E2.
  set (dir_b := os_path_join (upload_dir (mgr w)) b) in *.
  set (path_b := os_path_join dir_b name_b) in *.
  set (session_b := mkSessionInfo name_b path_b (length content_b) nb nb dir_b) in *.
  set (w2 := mkWorld _ (heap w1) _) in E2.
  assert (A2 : after (create_session tb nb b content_b name_b) w1 = w2)
    by (unfold after; rewrite E2; reflexivity).
  rewrite A2.
  intros Hdel.
  assert (Hsb : sessions (mgr w2) !! b = Some session_b).
  { unfold w2. cbn. apply lookup_insert_eq. }
  assert (Hsa : exists session_a,
             sessions (mgr w2) !! a = Some session_a /\
             session_dir session_a = os_path_join (upload_dir (mgr w2)) a).
  { eexists. split.
    - unfold w2, w1. cbn. rewrite lookup_insert_ne by congruence. apply lookup_insert_eq.
    - reflexivity. }
  destruct Hsa as (session_a & Hsa & Hdir).
  assert (Hfile : files (fs w2) !! path_b = Some content_b).
  { unfold w2. cbn. apply lookup_insert_eq. }
  destruct (delete_session_true a w2 Hdel) as (session_a' & Hsa' & Hafter).
  split; [unfold outcome; rewrite E2; reflexivity|].
  split; [|split].
  - rewrite Hafter. cbn. apply lookup_delete_eq.
  - rewrite Hafter. cbn. rewrite lookup_delete_ne by congruence. exact Hsb.
  - pose proof (delete_session_keeps_plain_file w2 a b session_a session_b
                  Hab Ha Hb Hn Hsa Hdir eq_refl Hdel) as Hkeep.
    change (file_path session_b) with path_b in Hkeep.
    rewrite Hkeep. exact Hfile.
Qed.

Lemma plain_names_keep_sessions_apart_witness :
  let w := __init__ "/up" 3600 10 (mkFS ∅ ∅ ∅) in
  let w1 := after (create_session 0 0 "a" example_content "/up/b/b.stl") w in
  let w2 := after (create_session 0 0 "b" example_content "b.stl") w1 in
  files (fs (after (delete_session "a") w2)) !! "/up/b/b.stl"%string = Some example_content.
Proof.
  intros w w1 w2.
  destruct (plain_names_keep_sessions_apart w 0 0 0 0 "a" "b" example_content
              example_content "/up/b/b.stl" "b.stl") as (_ & _ & _ & H).
  - split; [discriminate|reflexivity].
  - split; [discriminate|reflexivity].
  - discriminate.
  - split; [discriminate|reflexivity].
  - vm_compute. reflexivity.
  - vm_compute. reflexivity.
  - exact H.
Defined.

(** *** Stores reached by the public methods *)

Lemma wf_init (up : string) (timeout max : Z) (fs0 : FS) : wf (__init__ up timeout max fs0).
Proof.
  split; [|split]; cbn.
  - intros session_id r H. rewrite lookup_empty in H. discriminate.
  - intros session_id v H. discriminate.
  - intros session_id r H. discriminate.
Qed.

Lemma lru_find_take (session_id : string) (n : nat) : forall (l : lru_state) v,
  lru_find session_id (take n l) = Some v -> lru_find session_id l = Some v.
Proof.
  induction n as [|n IH]; intros [|[k x] l] v; cbn; try discriminate.
  destruct (String.eqb k session_id); [auto|apply IH].
Qed.

Lemma lru_find_remove (session_id other : string) (l : lru_state) :
  other <> session_id ->
  lru_find other (lru_remove session_id l) = lru_find other l.
Proof.
  intros Hne. induction l as [|[k x] l IH]; [reflexivity|].
  unfold lru_remove in *. cbn.
  destruct (String.eqb_spec k session_id) as [->|Hk]; cbn.
  - rewrite IH. destruct (String.eqb_spec session_id other); [congruence|reflexivity].
  - rewrite IH. reflexivity.
Qed.

Lemma wf_sessions_grow (w : World) (ss : gmap string SessionInfo) (h : list STL.STLTools)
    (fs' : FS) :
  wf w ->
  (forall session_id, is_Some (sessions (mgr w) !! session_id) -> is_Some (ss !! session_id)) ->
  (length (heap w) <= length h)%nat ->
  wf (mkWorld (set_sessions ss (mgr w)) h fs').
Proof.
  intros (W1 & W2 & W3) Hss Hh. split; [|split]; cbn.
  - intros session_id r Hr. destruct (W1 session_id r Hr) as [Hs Hlt].
    split; [apply Hss, Hs|lia].
  - intros session_id v Hv. apply Hss, (W2 session_id v Hv).
  - exact W3.
Qed.

Lemma wf_delete_session (session_id : string) (w : World) :
  wf w -> wf (after (delete_session session_id) w).
Proof.
  intros (W1 & W2 & W3).
  assert (Hgone : forall ss fs',
    (forall other r, other <> session_id -> stl_instances (mgr w) !! other = Some r ->
                     is_Some (ss !! other)) ->
    wf (mkWorld (set_sessions ss
                   (set_lru [] (set_stl_instances
                                  (delete session_id (stl_instances (mgr w))) (mgr w))))
                (heap w) fs')).
  { intros ss fs' H. split; [|split]; cbn; try discriminate.
    intros other r Hr.
    destruct (decide (other = session_id)) as [->|Hne].
    - rewrite lookup_delete_eq in Hr. discriminate.
    - rewrite lookup_delete_ne in Hr by congruence.
      split; [apply (H other r Hne Hr)|apply (W1 other r Hr)]. }
  unfold after.
  destruct (sessions (mgr w) !! session_id) as [session|] eqn:Hs.
  - destruct (os_path_exists (session_dir session) (fs w)) eqn:Hex;
      [destruct (decide (session_dir session ∈ undeletable (fs w))) as [Hun|Hun]|].
    + rewrite (delete_session_blocked w session_id session Hs Hex Hun). cbn [snd].
      apply (Hgone (sessions (mgr w)) (fs w)).
      intros other r _ Hr. apply (W1 other r Hr).
    + rewrite (delete_session_done w session_id session Hs (or_intror Hun)), Hex.
      cbn [snd].
      apply (Hgone (delete session_id (sessions (mgr w)))
                   (remove_tree (session_dir session) (fs w))).
      intros other r Hne Hr. rewrite lookup_delete_ne by congruence. apply (W1 other r Hr).
    + rewrite (delete_session_done w session_id session Hs (or_introl Hex)), Hex.
      cbn [snd].
      apply (Hgone (delete session_id (sessions (mgr w))) (fs w)).
      intros other r Hne Hr. rewrite lookup_delete_ne by congruence. apply (W1 other r Hr).
  - rewrite (delete_session_absent session_id w Hs). cbn [snd]. split; [|split]; assumption.
Qed.

Lemma wf_cleanup_expired_sessions (current_time : Z) (w : World) :
  wf w -> wf (after (cleanup_expired_sessions current_time) w).
Proof.
  unfold after. rewrite cleanup_expired_sessions_run. cbn [snd].
  generalize (expired_sessions current_time (mgr w)). intros ids. revert w.
  induction ids as [|x ids IH]; intros w Hw; cbn [fold_left]; [exact Hw|].
  apply IH, wf_delete_session, Hw.
Qed.

Lemma create_session_cases time_time datetime_now uuid4 content name (w : World) :
  exists w1,
    (w1 = w \/ w1 = after (cleanup_expired_sessions time_time) w) /\
    (after (create_session time_time datetime_now uuid4 content name) w = w1 \/
     exists session fs',
       after (create_session time_time datetime_now uuid4 content name) w =
       mkWorld (set_sessions (<[ uuid4 := session ]> (sessions (mgr w1))) (mgr w1))
               (heap w1) fs').
Proof.
  unfold after at 2 3. unfold create_session, bind, get, ret, raise, on_fs, on_mgr, modify.
  destruct (Z.of_nat (size (sessions (mgr w))) >=? max_sessions (mgr w)).
  - destruct (cleanup_expired_sessions time_time w) as [[n|e] w1] eqn:E.
    + exists w1. split; [right; unfold after; rewrite E; reflexivity|].
      cbn. destruct (Z.of_nat (size (sessions (mgr w1))) >=? max_sessions (mgr w1)).
      * left. reflexivity.
      * right. eexists _, _. reflexivity.
    + exists w1. split; [right; unfold after; rewrite E; reflexivity|]. left. reflexivity.
  - exists w. split; [left; reflexivity|]. right. eexists _, _. reflexivity.
Qed.

Lemma wf_create_session time_time datetime_now uuid4 content name (w : World) :
  wf w -> wf (after (create_session time_time datetime_now uuid4 content name) w).
Proof.
  intros Hw.
  destruct (create_session_cases time_time datetime_now uuid4 content name w)
    as (w1 & Hw1 & Hc).
  assert (W1 : wf w1).
  { destruct Hw1 as [->| ->]; [exact Hw|apply wf_cleanup_expired_sessions, Hw]. }
  destruct Hc as [->|(session & fs' & ->)]; [exact W1|].
  apply wf_sessions_grow; [exact W1| |lia].
  intros session_id Hs.
  destruct (decide (session_id = uuid4)) as [->|Hne].
  - rewrite lookup_insert_eq. eauto.
  - rewrite lookup_insert_ne by congruence. exact Hs.
Qed.

Lemma wf_get_session (now : Z) (session_id : string) (w : World) :
  wf w -> wf (after (get_session now session_id) w).
Proof.
  intros Hw. unfold after, get_session, bind, get, ret, on_mgr, modify.
  destruct (sessions (mgr w) !! session_id) as [session|] eqn:Hs; cbn [snd]; [|exact Hw].
  apply wf_sessions_grow; [exact Hw| |lia].
  intros other Ho.
  destruct (decide (other = session_id)) as [->|Hne].
  - rewrite lookup_insert_eq. eauto.
  - rewrite lookup_insert_ne by congruence. exact Ho.
Qed.

Lemma after_get_session_info (now : Z) (session_id : string) (w : World) :
  after (get_session_info now session_id) w = after (get_session now session_id) w.
Proof.
  unfold after, get_session_info, get_session, bind, get, ret, on_mgr, modify.
  destruct (sessions (mgr w) !! session_id); reflexivity.
Qed.

Lemma wf_list_sessions (now : string -> Z) (w : World) :
  wf w -> wf (after (list_sessions now) w).
Proof.
  intros Hw. unfold after, list_sessions. unfold bind at 1. unfold get at 1.
  rewrite (list_sessions_fold now (map_to_list (sessions (mgr w))) (ret []) w w []).
  - cbn [snd]. apply wf_sessions_grow; [exact Hw| |lia].
    intros session_id [session Hs].
    rewrite (lookup_fold_touch now _ _ session_id session); [eauto| |].
    + apply NoDup_fst_map_to_list.
    + apply elem_of_map_to_list. exact Hs.
  - apply NoDup_fst_map_to_list.
  - intros k session Hin. apply elem_of_map_to_list in Hin. exact Hin.
  - reflexivity.
Qed.

Lemma wf_get_stl_tools (from_file : list Byte.byte -> option STL.Mesh)
    (session_id : string) (w : World) :
  wf w -> wf (after (get_stl_tools from_file session_id) w).
Proof.
  intros (W1 & W2 & W3).
  destruct (sessions (mgr w) !! session_id) as [session|] eqn:Hs.
  - destruct (stl_instances (mgr w) !! session_id) as [r|] eqn:Hi.
    + unfold after. rewrite (get_stl_tools_again from_file w session_id session r Hs Hi).
      cbn [snd]. split; [|split]; assumption.
    + destruct (lru_find session_id (lru (mgr w))) as [[r|]|] eqn:Hl.
      * rewrite (W3 session_id r Hl) in Hi. discriminate.
      * unfold after.
        rewrite (get_stl_tools_replay from_file w session_id session Hs Hi Hl). cbn [snd].
        split; [|split]; cbn.
        -- exact W1.
        -- intros other v.
           destruct (String.eqb_spec session_id other) as [<-|Hne]; [rewrite Hs; eauto|].
           rewrite lru_find_remove by congruence. apply W2.
        -- intros other r.
           destruct (String.eqb_spec session_id other) as [<-|Hne]; [discriminate|].
           rewrite lru_find_remove by congruence. apply W3.
      * unfold after. rewrite (get_stl_tools_first from_file w session_id session Hs Hi Hl).
        destruct (load_file from_file (file_path session) (fs w) STL.__init__)
          as [[b|e] obj]; cbn [snd].
        -- split; [|split]; cbn [mgr heap sessions stl_instances lru hit set_stl_instances
                                  set_lru].
           ++ intros other r Hr. rewrite length_app. cbn [length].
              destruct (decide (other = session_id)) as [->|Hne].
              ** rewrite lookup_insert_eq in Hr. injection Hr as <-.
                 rewrite Hs. split; [eauto|lia].
              ** rewrite lookup_insert_ne in Hr by congruence.
                 destruct (W1 other r Hr). split; [assumption|lia].
           ++ intros other v Hv. apply lru_find_take in Hv. cbn in Hv.
              destruct (String.eqb_spec session_id other) as [<-|Hne]; [rewrite Hs; eauto|].
              apply (W2 other v Hv).
           ++ intros other r Hr. apply lru_find_take in Hr. cbn in Hr.
              destruct (String.eqb_spec session_id other) as [<-|Hne].
              ** injection Hr as <-. apply lookup_insert_eq.
              ** rewrite lookup_insert_ne by congruence. apply (W3 other r Hr).
        -- split; [|split]; cbn [mgr heap sessions stl_instances lru miss set_lru].
           ++ intros other r Hr. rewrite length_app. cbn [length].
              destruct (W1 other r Hr). split; [assumption|lia].
           ++ intros other v Hv. apply lru_find_take in Hv. cbn in Hv.
              destruct (String.eqb_spec session_id other) as [<-|Hne]; [rewrite Hs; eauto|].
              apply (W2 other v Hv).
           ++ intros other r Hr. apply lru_find_take in Hr. cbn in Hr.
              destruct (String.eqb_spec session_id other) as [<-|Hne]; [discriminate|].
              apply (W3 other r Hr).
  - unfold after, get_stl_tools, bind, get, ret, on_mgr, modify. rewrite Hs. cbn [snd].
    split; [|split]; assumption.
Qed.

Lemma wf_run_op (from_file : list Byte.byte -> option STL.Mesh) (o : op) (w : World) :
  wf w -> wf (run_op from_file o w).
Proof.
  intros Hw. destruct o; cbn [run_op].
  - apply wf_create_session, Hw.
  - apply wf_get_session, Hw.
  - apply wf_get_stl_tools, Hw.
  - apply wf_delete_session, Hw.
  - apply wf_cleanup_expired_sessions, Hw.
  - rewrite after_get_session_info. apply wf_get_session, Hw.
  - apply wf_list_sessions, Hw.
  - exact Hw.
Qed.

(** Property X30.  In every store reached from a well-formed one (such as
    the store [__init__] creates) by calls of the public methods, in any
    order and whether they fail or not: each materialised instance belongs to
    a recorded session and refers to an allocated object, and the
    [lru_cache] holds only recorded sessions.  So nothing is kept for an
    identifier without a record (a deleted session or a fresh identifier),
    and a session without an instance can only have a remembered failure in
    the cache. *)
Theorem store_stays_well_formed (from_file : list Byte.byte -> option STL.Mesh)
    (calls : list op) (w0 : World) :
  wf w0 ->
  let w := run_ops from_file calls w0 in
  wf w /\
  (forall session_id r, stl_instances (mgr w) !! session_id = Some r ->
     is_Some (sessions (mgr w) !! session_id) /\ is_Some (heap w !! r)) /\
  (forall session_id, sessions (mgr w) !! session_id = None ->
     stl_instances (mgr w) !! session_id = None /\
     lru_find session_id (lru (mgr w)) = None) /\
  (forall session_id, stl_instances (mgr w) !! session_id = None ->
     lru_find session_id (lru (mgr w)) = None \/
     lru_find session_id (lru (mgr w)) = Some None).
Proof.
  intros Hw0. cbv zeta.
  assert (Hw : wf (run_ops from_file calls w0)).
  { revert w0 Hw0. induction calls as [|o calls IH]; intros w0 Hw0; [exact Hw0|].
    cbn [run_ops fold_left]. apply IH, wf_run_op, Hw0. }
  split; [exact Hw|].
  destruct Hw as (W1 & W2 & W3).
  split; [|split].
  - intros session_id r Hr. destruct (W1 session_id r Hr) as [Hs Hlt].
    split; [exact Hs|]. apply lookup_lt_is_Some. exact Hlt.
  - intros session_id Hs. split.
    + destruct (stl_instances _ !! session_id) as [r|] eqn:Hr; [|reflexivity].
      destruct (W1 session_id r Hr) as [[s Hs'] _]. congruence.
    + destruct (lru_find session_id _) as [v|] eqn:Hv; [|reflexivity].
      destruct (W2 session_id v Hv) as [s Hs']. congruence.
  - intros session_id Hi.
    destruct (lru_find session_id _) as [[r|]|] eqn:Hv; auto.
    rewrite (W3 session_id r Hv) in Hi. discriminate.
Qed.

Lemma store_stays_well_formed_witness :
  wf (run_ops example_parser
        [op_create_session 0 0 "a" example_content "a.stl"; op_get_stl_tools "a";
         op_delete_session "a"]
        (__init__ "/up" 3600 10 (mkFS ∅ ∅ ∅))).
Proof.
  apply (store_stays_well_formed example_parser
           [op_create_session 0 0 "a" example_content "a.stl"; op_get_stl_tools "a";
            op_delete_session "a"]
           (__init__ "/up" 3600 10 (mkFS ∅ ∅ ∅))).
  apply wf_init.
Defined.
End SessionLaws.
